(** * PktLogicDriver: address arbitration, liveness and control-packet dispatch

    A shallow embedding of [source/drivers/PktLogicDriver.cpp] and the
    properties of its periodic callback and inbound packet handler.

    Unsigned fields are natural numbers of type [N]; the 8-bit rolling
    counter wraps modulo 256 where the source increments it.  Flag words are
    handled with [N.land], [N.lor] and [N.ldiff] ([x &= ~m] is
    [N.ldiff x m]).  The slot table [proto.drivers] and the filter array are
    lists indexed with stdpp's lookup and insert. *)

From stdpp Require Import numbers list.

(** ** Constants of the headers

    [PktSerialProtocol.h] and [CodalComponent.h] are not part of the sources
    at hand, so the constants they define are parameters of the development. *)

Class Constants := {
  PKT_PROTOCOL_DRIVER_SIZE : nat;
  PKT_LOGIC_DRIVER_MAX_FILTERS : nat;
  PKT_LOGIC_DRIVER_TIMEOUT : N;
  PKT_LOGIC_ADDRESS_ALLOC_TIME : N;
  PKT_LOGIC_DRIVER_CTRLPACKET_TIME : N;
  PKT_DEVICE_FLAGS_LOCAL : N;
  PKT_DEVICE_FLAGS_REMOTE : N;
  PKT_DEVICE_FLAGS_INITIALISED : N;
  PKT_DEVICE_FLAGS_INITIALISING : N;
  PKT_DEVICE_FLAGS_CP_SEEN : N;
  CONTROL_PKT_FLAGS_CONFLICT : N;
  CONTROL_PKT_FLAGS_PAIRED : N;
  CONTROL_PKT_FLAGS_BROADCAST : N;
  DEVICE_COMPONENT_RUNNING : N;
  DEVICE_COMPONENT_STATUS_SYSTEM_TICK : N
}.

(** ** Data model *)

(** [struct PktDevice]. *)
Record PktDevice := {
  address : N;
  rolling_counter : N;
  flags : N;
  serial_number : N
}.

(** The part of [PktSerialDriver] the logic driver reads and writes. *)
Record PktSerialDriver := {
  device : PktDevice;
  driver_class : N
}.

(** [struct ControlPacket], the fields the logic driver looks at. *)
Record ControlPacket := {
  cp_address : N;
  cp_flags : N;
  cp_serial_number : N;
  cp_driver_class : N
}.

(** An entry of [proto.drivers]: a null pointer, the logic driver itself
    ([this]), or some other driver. *)
Inductive Slot :=
| NULL
| This
| Peer (d : PktSerialDriver).

(** The protocol's bus and slot table together with the logic driver's own
    fields.  [this_driver] is the record every [This] slot points to. *)
Record State := {
  bus_running : bool;
  drivers : list Slot;
  this_driver : PktSerialDriver;
  status : N;
  address_filters : list N
}.

(** Modelled from the spec: the bus and the bodies of the drivers' virtual
    methods ([queueControlPacket], [deviceConnected], [deviceRemoved],
    [handleControlPacket] of other drivers) are not in the sources.  What the
    logic driver does to the outside is a list of events: a frame sent on the
    bus, or a method invoked on the driver in slot [i].  [periodicCallback]
    and [handlePacket] below return the table as their own statements leave
    it, together with the calls they make.  The spec (4.1) has
    [queue_control_packet] transmit the driver's record and
    [handle_control_packet] do nothing by default, so these two leave the
    record alone; what [deviceConnected] and [deviceRemoved] do to the driver
    they are called on is threaded through the [_with] definitions further
    down, for an arbitrary such effect. *)
Inductive Event :=
| BusSend (cp : ControlPacket)
| QueueControlPacket (i : nat)
| DeviceConnected (i : nat) (d : PktDevice)
| DeviceRemoved (i : nat)
| HandleControlPacket (i : nat) (cp : ControlPacket).

(** ** Field updates *)

Definition set_address (dev : PktDevice) (a : N) : PktDevice :=
  {| address := a; rolling_counter := rolling_counter dev;
     flags := flags dev; serial_number := serial_number dev |}.

Definition set_rolling_counter (dev : PktDevice) (c : N) : PktDevice :=
  {| address := address dev; rolling_counter := c;
     flags := flags dev; serial_number := serial_number dev |}.

Definition set_flags (dev : PktDevice) (f : N) : PktDevice :=
  {| address := address dev; rolling_counter := rolling_counter dev;
     flags := f; serial_number := serial_number dev |}.

Definition set_device (d : PktSerialDriver) (dev : PktDevice) : PktSerialDriver :=
  {| device := dev; driver_class := driver_class d |}.

Definition set_cp_flags (cp : ControlPacket) (f : N) : ControlPacket :=
  {| cp_address := cp_address cp; cp_flags := f;
     cp_serial_number := cp_serial_number cp;
     cp_driver_class := cp_driver_class cp |}.

Definition set_drivers (st : State) (ds : list Slot) : State :=
  {| bus_running := bus_running st; drivers := ds;
     this_driver := this_driver st; status := status st;
     address_filters := address_filters st |}.

Definition set_this_driver (st : State) (d : PktSerialDriver) : State :=
  {| bus_running := bus_running st; drivers := drivers st;
     this_driver := d; status := status st;
     address_filters := address_filters st |}.

Definition set_status (st : State) (s : N) : State :=
  {| bus_running := bus_running st; drivers := drivers st;
     this_driver := this_driver st; status := s;
     address_filters := address_filters st |}.

Definition set_address_filters (st : State) (fs : list N) : State :=
  {| bus_running := bus_running st; drivers := drivers st;
     this_driver := this_driver st; status := status st;
     address_filters := fs |}.

(** [x & mask] used as a condition. *)
Definition has_flag (x mask : N) : bool := negb (N.land x mask =? 0)%N.

(** [proto.drivers[i]] dereferenced; [None] for a null pointer.  The table has
    [PKT_PROTOCOL_DRIVER_SIZE] entries, so an index below that bound is in
    range; an index outside the list reads as a null pointer. *)
Definition driver_at (st : State) (i : nat) : option PktSerialDriver :=
  match drivers st !! i with
  | Some This => Some (this_driver st)
  | Some (Peer d) => Some d
  | _ => None
  end.

(** Writing through [proto.drivers[i]]. *)
Definition set_driver (st : State) (i : nat) (d : PktSerialDriver) : State :=
  match drivers st !! i with
  | Some This => set_this_driver st d
  | Some (Peer _) => set_drivers st (<[i := Peer d]> (drivers st))
  | _ => st
  end.

Section Driver.
Context {C : Constants}.

(** ** periodicCallback *)

(** The inner [for j] loop of the allocation: is candidate [a] the address of
    an INITIALISED driver in a slot other than [i]?  ([existsb] stops at the
    first hit, as the [break] does.) *)
Definition still_allocated (st : State) (i : nat) (a : N) : bool :=
  existsb
    (fun j =>
       if (i =? j)%nat then false
       else match driver_at st j with
            | Some dj =>
                has_flag (flags (device dj)) PKT_DEVICE_FLAGS_INITIALISED
                && (address (device dj) =? a)%N
            | None => false
            end)
    (seq 0 PKT_PROTOCOL_DRIVER_SIZE).

(** Modelled from the spec: [target_random] is external; its contract is a
    value in [[0, bound)].  The random source is the list of raw values it
    will produce; one draw is [r mod bound].

    The [while (allocated)] loop: draw candidates until one is free.  The loop
    ends only when the source produces a free candidate; [None] is the run in
    which the supplied draws are used up first. *)
Fixpoint pick_address (st : State) (i : nat) (rs : list N) : option (N * list N) :=
  match rs with
  | [] => None
  | r :: rs' =>
      let a := (r mod 256)%N in
      if still_allocated st i a then pick_address st i rs' else Some (a, rs')
  end.

(** Line 21-22: the counter advances while the driver is initialising or
    initialised; [uint8_t] wraps. *)
Definition bump_counter (dev : PktDevice) : PktDevice :=
  if has_flag (flags dev)
       (N.lor PKT_DEVICE_FLAGS_INITIALISED PKT_DEVICE_FLAGS_INITIALISING)
  then set_rolling_counter dev ((rolling_counter dev + 1) mod 256)%N
  else dev.

(** The body of the [for i] loop for a driver [d] found in slot [i] that is
    not the logic driver.  The virtual methods of the driver
    ([deviceRemoved], [queueControlPacket], [deviceConnected]) are defined
    outside this file of the sources; a call is recorded as an event. *)
Definition tick_peer (st : State) (i : nat) (d : PktSerialDriver) (rs : list N)
  : option (PktSerialDriver * list Event * list N) :=
  let dev := bump_counter (device d) in
  if has_flag (flags dev) PKT_DEVICE_FLAGS_REMOTE
     && (rolling_counter dev =? PKT_LOGIC_DRIVER_TIMEOUT)%N
  then
    Some (set_device d (set_flags dev (N.ldiff (flags dev) PKT_DEVICE_FLAGS_CP_SEEN)),
          if has_flag (flags dev) PKT_DEVICE_FLAGS_CP_SEEN then []
          else [DeviceRemoved i],
          rs)
  else if has_flag (flags dev) PKT_DEVICE_FLAGS_LOCAL then
    if negb (has_flag (flags dev)
               (N.lor PKT_DEVICE_FLAGS_INITIALISED PKT_DEVICE_FLAGS_INITIALISING))
    then
      '(a, rs') ← pick_address st i rs;
      Some (set_device d
              (set_flags (set_address dev a)
                 (N.lor (flags dev) PKT_DEVICE_FLAGS_INITIALISING)),
            [QueueControlPacket i], rs')
    else if has_flag (flags dev) PKT_DEVICE_FLAGS_INITIALISING then
      if (rolling_counter dev =? PKT_LOGIC_ADDRESS_ALLOC_TIME)%N then
        let dev' :=
          set_flags dev
            (N.lor (N.ldiff (flags dev) PKT_DEVICE_FLAGS_INITIALISING)
               PKT_DEVICE_FLAGS_INITIALISED) in
        Some (set_device d dev', [DeviceConnected i dev'], rs)
      else Some (set_device d dev, [], rs)
    else if has_flag (flags dev) PKT_DEVICE_FLAGS_INITIALISED then
      Some (set_device d dev,
            if (0 <? rolling_counter dev)%N
               && (rolling_counter dev mod PKT_LOGIC_DRIVER_CTRLPACKET_TIME =? 0)%N
            then [QueueControlPacket i] else [],
            rs)
    else Some (set_device d dev, [], rs)
  else Some (set_device d dev, [], rs).

(** The [for i] loop over the slots listed in [ixs]; null slots and the logic
    driver's own slot are skipped. *)
Fixpoint tick_slots (ixs : list nat) (st : State) (rs : list N)
  : option (State * list Event * list N) :=
  match ixs with
  | [] => Some (st, [], rs)
  | i :: ixs' =>
      match drivers st !! i with
      | Some (Peer d) =>
          '(d', evs, rs') ← tick_peer st i d rs;
          '(st', evs', rs'') ←
            tick_slots ixs' (set_drivers st (<[i := Peer d']> (drivers st))) rs';
          Some (st', evs ++ evs', rs'')
      | _ => tick_slots ixs' st rs
      end
  end.

Definition periodicCallback (st : State) (rs : list N)
  : option (State * list Event * list N) :=
  if negb (bus_running st) then Some (st, [], rs)
  else tick_slots (seq 0 PKT_PROTOCOL_DRIVER_SIZE) st rs.

(** ** Constructor, start and stop *)

(** The constructor body: address 0, status 0, the filter array zeroed, and
    the flags that mark the instance as occupied.  [d] and [cls] are what the
    base-class constructor stored. *)
Definition PktLogicDriver_new (d : PktDevice) (cls : N) (table : list Slot)
    (running : bool) : State :=
  {| bus_running := running;
     drivers := table;
     this_driver :=
       {| device :=
            set_flags (set_address d 0)
              (N.lor PKT_DEVICE_FLAGS_LOCAL PKT_DEVICE_FLAGS_INITIALISED);
          driver_class := cls |};
     status := 0;
     address_filters := replicate PKT_LOGIC_DRIVER_MAX_FILTERS 0%N |}.

Definition start (st : State) : State :=
  set_status st
    (N.lor (status st)
       (N.lor DEVICE_COMPONENT_RUNNING DEVICE_COMPONENT_STATUS_SYSTEM_TICK)).

Definition stop (st : State) : State :=
  set_status st
    (N.ldiff (status st)
       (N.lor DEVICE_COMPONENT_RUNNING DEVICE_COMPONENT_STATUS_SYSTEM_TICK)).

(** ** filterPacket *)

(** The scan of [address_filters] over the indices [ixs].  Reading an index
    outside the array is undefined in the source; here it is [None]. *)
Fixpoint filter_scan (filters : list N) (a : N) (ixs : list nat) : option bool :=
  match ixs with
  | [] => Some false
  | i :: ixs' =>
      match filters !! i with
      | None => None
      | Some f => if (f =? a)%N then Some true else filter_scan filters a ixs'
      end
  end.

(** The loop runs over [PKT_PROTOCOL_DRIVER_SIZE] indices, as in the source. *)
Definition filterPacket (filters : list N) (a : N) : option bool :=
  if (0 <? a)%N then filter_scan filters a (seq 0 PKT_PROTOCOL_DRIVER_SIZE)
  else Some false.

(** ** handlePacket *)

(** First slot among [ixs] that holds a driver satisfying [p]. *)
Fixpoint find_slot (p : PktSerialDriver -> bool) (st : State) (ixs : list nat)
  : option (nat * PktSerialDriver) :=
  match ixs with
  | [] => None
  | i :: ixs' =>
      match driver_at st i with
      | Some d => if p d then Some (i, d) else find_slot p st ixs'
      | None => find_slot p st ixs'
      end
  end.

(** The two loops over the filter array (line 158-162 and 171-175): for each
    index below [PKT_LOGIC_DRIVER_MAX_FILTERS], an entry that passes the test
    [hit] is overwritten with [v].  Neither loop has a [break]. *)
Definition rewrite_filters (hit : N -> bool) (v : N) (filters : list N) : list N :=
  foldl
    (fun fs i =>
       match fs !! i with
       | Some f => if hit f then <[i := v]> fs else fs
       | None => fs
       end)
    filters (seq 0 PKT_LOGIC_DRIVER_MAX_FILTERS).

(** Line 158-162: [if (address_filters[i] == 0) address_filters[i] = a]. *)
Definition filter_insert (filters : list N) (a : N) : list N :=
  rewrite_filters (fun f => (f =? 0)%N) a filters.

(** Line 171-175: [if (address_filters[i] == a) address_filters[i] = 0]. *)
Definition filter_remove (filters : list N) (a : N) : list N :=
  rewrite_filters (fun f => (f =? a)%N) 0%N filters.

(** Line 125: the slot's driver has the packet's address. *)
Definition address_matches (cp : ControlPacket) (d : PktSerialDriver) : bool :=
  (address (device d) =? cp_address cp)%N.

(** Line 184-188: a remote driver of the packet's class that is not waiting
    for another serial number. *)
Definition remote_candidate (cp : ControlPacket) (d : PktSerialDriver) : bool :=
  has_flag (flags (device d)) PKT_DEVICE_FLAGS_REMOTE
  && (driver_class d =? cp_driver_class cp)%N
  && negb ((0 <? serial_number (device d))%N
           && negb (serial_number (device d) =? cp_serial_number cp)%N).

(** The [PktDevice d] built at line 191-195. *)
Definition device_of_packet (cp : ControlPacket) : PktDevice :=
  {| address := cp_address cp; rolling_counter := 0;
     flags := cp_flags cp; serial_number := cp_serial_number cp |}.

(** [None] is a run in which [filterPacket] reads outside the filter array. *)
Definition handlePacket (st : State) (cp : ControlPacket)
  : option (State * list Event) :=
  match find_slot (address_matches cp) st (seq 0 PKT_PROTOCOL_DRIVER_SIZE) with
  | Some (i, d) =>
      let f := flags (device d) in
      if negb (serial_number (device d) =? cp_serial_number cp)%N
         && negb (has_flag f PKT_DEVICE_FLAGS_INITIALISING)
      then
        Some (st, [BusSend (set_cp_flags cp
                              (N.lor (cp_flags cp) CONTROL_PKT_FLAGS_CONFLICT))])
      else if has_flag f PKT_DEVICE_FLAGS_INITIALISING
              && has_flag (cp_flags cp) CONTROL_PKT_FLAGS_CONFLICT
      then
        Some (set_driver st i
                (set_device d
                   (set_flags (device d)
                      (N.ldiff f PKT_DEVICE_FLAGS_INITIALISING))),
              [])
      else
        Some (set_driver st i
                (set_device d
                   (set_flags (device d) (N.lor f PKT_DEVICE_FLAGS_CP_SEEN))),
              [HandleControlPacket i cp])
  | None =>
      filtered ← filterPacket (address_filters st) (cp_address cp);
      if has_flag (cp_flags cp) CONTROL_PKT_FLAGS_PAIRED && negb filtered then
        Some (set_address_filters st
                (filter_insert (address_filters st) (cp_address cp)),
              [])
      else
        let st1 :=
          if filtered && has_flag (cp_flags cp) CONTROL_PKT_FLAGS_BROADCAST
          then set_address_filters st
                 (filter_remove (address_filters st) (cp_address cp))
          else st in
        match find_slot (remote_candidate cp) st1
                (seq 0 PKT_PROTOCOL_DRIVER_SIZE) with
        | Some (i, _) => Some (st1, [DeviceConnected i (device_of_packet cp)])
        | None => Some (st1, [])
        end
  end.

(** ** Vocabulary of the properties *)

(** No slot holds a driver with the packet's address (step 1 finds nothing). *)
Definition no_address_match (st : State) (cp : ControlPacket) : Prop :=
  forall i d, i < PKT_PROTOCOL_DRIVER_SIZE -> driver_at st i = Some d ->
              address (device d) <> cp_address cp.

(** A slot the remote association looks for: a REMOTE driver of the packet's
    class whose serial number is 0 or the packet's. *)
Definition association_target (cp : ControlPacket) (d : PktSerialDriver) : Prop :=
  has_flag (flags (device d)) PKT_DEVICE_FLAGS_REMOTE = true
  /\ driver_class d = cp_driver_class cp
  /\ (serial_number (device d) = 0%N
      \/ serial_number (device d) = cp_serial_number cp).

(** Slot [i] holds [d], and it is the first slot in slot order whose driver
    satisfies [P]. *)
Definition first_slot (P : PktSerialDriver -> Prop) (st : State) (i : nat)
    (d : PktSerialDriver) : Prop :=
  i < PKT_PROTOCOL_DRIVER_SIZE /\ driver_at st i = Some d /\ P d
  /\ (forall j dj, j < i -> driver_at st j = Some dj -> ~ P dj).

(** The slot whose driver an event is a call on. *)
Definition event_slot (e : Event) : option nat :=
  match e with
  | BusSend _ => None
  | QueueControlPacket i => Some i
  | DeviceConnected i _ => Some i
  | DeviceRemoved i => Some i
  | HandleControlPacket i _ => Some i
  end.


Definition is_device_removed (i : nat) (e : Event) : bool :=
  match e with DeviceRemoved j => (i =? j)%nat | _ => false end.

Fixpoint count_events (p : Event -> bool) (evs : list Event) : nat :=
  match evs with
  | [] => 0
  | e :: evs' => (if p e then 1 else 0) + count_events p evs'
  end.

(** INITIALISED is set. *)
Definition initialised (d : PktSerialDriver) : Prop :=
  has_flag (flags (device d)) PKT_DEVICE_FLAGS_INITIALISED = true.

(** INITIALISING or INITIALISED is set: the driver holds or announces an
    address (and its counter advances). *)
Definition claimed (d : PktSerialDriver) : Prop :=
  has_flag (flags (device d))
    (N.lor PKT_DEVICE_FLAGS_INITIALISED PKT_DEVICE_FLAGS_INITIALISING) = true.

(** The two halves of the address invariant of the data model. *)
Definition nonzero_when_initialised (st : State) : Prop :=
  forall i d, driver_at st i = Some d -> initialised d ->
              address (device d) <> 0%N.

Definition unique_initialised (st : State) : Prop :=
  forall i j di dj, i <> j ->
    driver_at st i = Some di -> driver_at st j = Some dj ->
    initialised di -> initialised dj ->
    address (device di) <> address (device dj).

Definition address_invariant (st : State) : Prop :=
  nonzero_when_initialised st /\ unique_initialised st.

(** No two drivers that hold or announce an address share it. *)
Definition unique_claimed (st : State) : Prop :=
  forall i j di dj, i <> j ->
    driver_at st i = Some di -> driver_at st j = Some dj ->
    claimed di -> claimed dj ->
    address (device di) <> address (device dj).

(** The assumption on the header's flag values that the properties of the
    tick rely on: INITIALISED is not the empty mask, and INITIALISING,
    INITIALISED, REMOTE and CP_SEEN do not share bits where one is cleared or
    set while another is tested. *)
Record device_flags_wf : Prop := {
  wf_initialised : PKT_DEVICE_FLAGS_INITIALISED <> 0%N;
  wf_initialising_initialised :
    N.land PKT_DEVICE_FLAGS_INITIALISING PKT_DEVICE_FLAGS_INITIALISED = 0%N;
  wf_cp_seen_initialised :
    N.land PKT_DEVICE_FLAGS_CP_SEEN PKT_DEVICE_FLAGS_INITIALISED = 0%N;
  wf_cp_seen_initialising :
    N.land PKT_DEVICE_FLAGS_CP_SEEN PKT_DEVICE_FLAGS_INITIALISING = 0%N;
  wf_cp_seen_remote :
    N.land PKT_DEVICE_FLAGS_CP_SEEN PKT_DEVICE_FLAGS_REMOTE = 0%N
}.

(** Draws that allocate at once: their candidates are pairwise distinct and
    none is the address of a driver in the table. *)
Definition fresh_draws (st : State) (rs : list N) : Prop :=
  NoDup ((fun r => (r mod 256)%N) <$> rs)
  /\ (forall r j d, r ∈ rs -> driver_at st j = Some d ->
                    address (device d) <> (r mod 256)%N).

(** A driver the tick will not allocate an address for. *)
Definition settled (d : PktSerialDriver) : Prop :=
  has_flag (flags (device d)) PKT_DEVICE_FLAGS_LOCAL = false \/ claimed d.

(** The rolling counter of [d] at the timeout test of the [k]-th tick from
    now, when nothing but ticks happens to the driver: it advances by one per
    tick, modulo 256, while INITIALISING or INITIALISED is set, and stands
    still otherwise. *)
Definition counter_after (d : PktSerialDriver) (k : nat) : N :=
  if has_flag (flags (device d))
       (N.lor PKT_DEVICE_FLAGS_INITIALISED PKT_DEVICE_FLAGS_INITIALISING)
  then ((rolling_counter (device d) + N.of_nat k) mod 256)%N
  else rolling_counter (device d).

(** The driver a REMOTE slot holds after one tick. *)
Definition after_tick (d : PktSerialDriver) : PktSerialDriver :=
  set_device d
    (set_flags (bump_counter (device d))
       (if (counter_after d 1 =? PKT_LOGIC_DRIVER_TIMEOUT)%N
        then N.ldiff (flags (device d)) PKT_DEVICE_FLAGS_CP_SEEN
        else flags (device d))).

(** A run of [n] ticks in which the methods called leave the drivers'
    records alone; the events of each tick are kept apart.  ([ticks_with]
    lets the methods act.) *)
Fixpoint ticks (n : nat) (st : State) (rs : list N)
  : option (State * list (list Event) * list N) :=
  match n with
  | O => Some (st, [], rs)
  | S n' =>
      '(st1, evs, rs1) ← periodicCallback st rs;
      '(st2, tr, rs2) ← ticks n' st1 rs1;
      Some (st2, evs :: tr, rs2)
  end.

End Driver.

(** ** Sample constants

    Values used where a property is evaluated on a concrete table.  The
    control-packet flag bits are those of the wire format (CONFLICT 0x01,
    PAIRED 0x02, BROADCAST 0x04) and the slot table has 16 entries; the
    device flag bits, the timing constants and the status bits are distinct
    single bits and 8-bit tick counts chosen for the examples. *)
Definition sample_constants : Constants :=
  {| PKT_PROTOCOL_DRIVER_SIZE := 16;
     PKT_LOGIC_DRIVER_MAX_FILTERS := 20;
     PKT_LOGIC_DRIVER_TIMEOUT := 254;
     PKT_LOGIC_ADDRESS_ALLOC_TIME := 254;
     PKT_LOGIC_DRIVER_CTRLPACKET_TIME := 112;
     PKT_DEVICE_FLAGS_LOCAL := 0x8000;
     PKT_DEVICE_FLAGS_REMOTE := 0x4000;
     PKT_DEVICE_FLAGS_INITIALISED := 0x0080;
     PKT_DEVICE_FLAGS_INITIALISING := 0x0040;
     PKT_DEVICE_FLAGS_CP_SEEN := 0x0020;
     CONTROL_PKT_FLAGS_CONFLICT := 0x01;
     CONTROL_PKT_FLAGS_PAIRED := 0x02;
     CONTROL_PKT_FLAGS_BROADCAST := 0x04;
     DEVICE_COMPONENT_RUNNING := 0x1000;
     DEVICE_COMPONENT_STATUS_SYSTEM_TICK := 0x2000 |}.

(** The same constants with a filter array shorter than the slot table. *)
Definition short_filter_constants : Constants :=
  {| PKT_PROTOCOL_DRIVER_SIZE := 16;
     PKT_LOGIC_DRIVER_MAX_FILTERS := 8;
     PKT_LOGIC_DRIVER_TIMEOUT := 254;
     PKT_LOGIC_ADDRESS_ALLOC_TIME := 254;
     PKT_LOGIC_DRIVER_CTRLPACKET_TIME := 112;
     PKT_DEVICE_FLAGS_LOCAL := 0x8000;
     PKT_DEVICE_FLAGS_REMOTE := 0x4000;
     PKT_DEVICE_FLAGS_INITIALISED := 0x0080;
     PKT_DEVICE_FLAGS_INITIALISING := 0x0040;
     PKT_DEVICE_FLAGS_CP_SEEN := 0x0020;
     CONTROL_PKT_FLAGS_CONFLICT := 0x01;
     CONTROL_PKT_FLAGS_PAIRED := 0x02;
     CONTROL_PKT_FLAGS_BROADCAST := 0x04;
     DEVICE_COMPONENT_RUNNING := 0x1000;
     DEVICE_COMPONENT_STATUS_SYSTEM_TICK := 0x2000 |}.

(** A table of 16 slots holding the given entries first. *)
Definition table16 (entries : list Slot) : list Slot :=
  take 16 (entries ++ replicate 16 NULL).

Definition mk_device (a c f s : N) : PktDevice :=
  {| address := a; rolling_counter := c; flags := f; serial_number := s |}.

Definition mk_peer (a c f s cls : N) : Slot :=
  Peer {| device := mk_device a c f s; driver_class := cls |}.

Definition mk_state (running : bool) (entries : list Slot) (filters : list N)
  : State :=
  {| bus_running := running;
     drivers := table16 entries;
     this_driver := {| device := mk_device 0 0 0x8080 0; driver_class := 0 |};
     status := 0;
     address_filters := filters |}.

(** The state and the unused draws a run of ticks ends with. *)
Definition outcome (r : option (State * list (list Event) * list N))
  : option (State * list N) :=
  (fun x => (x.1.1, x.2)) <$> r.

(** The ticks of a run, counted from [t], in which [deviceRemoved] is invoked
    on slot [i]. *)
Fixpoint removal_ticks (t i : nat) (tr : list (list Event)) : list nat :=
  match tr with
  | [] => []
  | evs :: tr' =>
      (if existsb (is_device_removed i) evs then [t] else [])
      ++ removal_ticks (S t) i tr'
  end.

(** ** Sample tables and packets *)

(** Case analysis on a slot index of a 16-entry table, evaluating the lookup
    [H] in each case. *)
Ltac slot_cases n i H :=
  lazymatch n with
  | O => first [vm_compute in H; discriminate H
               |exfalso; cbn in *; lia
               |idtac]
  | S ?m =>
      let j := fresh "j" in
      destruct i as [|j];
      [vm_compute in H; try discriminate H; try (injection H as <-)
      |slot_cases m j H]
  end.

Ltac each_slot i H := slot_cases 16 i H.

(** Scenario S6 after its first packet: address 5 fills the filter array. *)
Definition s6_filtered_state : State :=
  mk_state true [This; mk_peer 0 0 0x4000 0 7] (replicate 20 5%N).

Definition s6_second_packet : ControlPacket :=
  {| cp_address := 5; cp_flags := 0; cp_serial_number := 0xDEADBEEF;
     cp_driver_class := 7 |}.

(** Scenario S6 before any packet: the filter array is empty. *)
Definition s6_initial_state : State :=
  mk_state true [This; mk_peer 0 0 0x4000 0 7] (replicate 20 0%N).

Definition s6_first_packet : ControlPacket :=
  {| cp_address := 5; cp_flags := 0x02; cp_serial_number := 0xDEADBEEF;
     cp_driver_class := 7 |}.

(** Scenario S3: a REMOTE slot of class 7 waiting for any serial number, and
    a packet from address 7 with no flag set. *)
Definition s3_state : State :=
  mk_state true [This; mk_peer 0 0 0x4000 0 7] (replicate 20 0%N).

Definition s3_packet : ControlPacket :=
  {| cp_address := 7; cp_flags := 0; cp_serial_number := 0xDEADBEEF;
     cp_driver_class := 7 |}.

(** Scenario S5: a LOCAL driver INITIALISED at address 12 with serial 0xAAAA,
    and a packet for address 12 from serial 0xBBBB. *)
Definition s5_state : State :=
  mk_state true [This; mk_peer 12 3 0x8080 0xAAAA 1] (replicate 20 0%N).

Definition s5_packet : ControlPacket :=
  {| cp_address := 12; cp_flags := 0; cp_serial_number := 0xBBBB;
     cp_driver_class := 1 |}.

(** Two fresh LOCAL drivers next to the logic driver. *)
Definition two_fresh_locals : State :=
  mk_state true
    [This; mk_peer 0 0 0x8000 0xAAAA 1; mk_peer 0 0 0x8000 0xBBBB 1]
    (replicate 20 0%N).

(** A peer contests address 7. *)
Definition conflict_on_7 : ControlPacket :=
  {| cp_address := 7; cp_flags := 0x01; cp_serial_number := 0xDDDD;
     cp_driver_class := 1 |}.

(** The table later on: slot 1 still INITIALISING at address 12, slot 2
    INITIALISED at the same address. *)
Definition shadowed_owner : State :=
  mk_state true
    [This; mk_peer 12 253 0x8040 0xAAAA 1; mk_peer 12 254 0x8080 0xBBBB 1]
    (replicate 20 0%N).

Definition packet_for_12 : ControlPacket :=
  {| cp_address := 12; cp_flags := 0; cp_serial_number := 0xCCCC;
     cp_driver_class := 1 |}.

(** The table of S5 after [start] and [stop]. *)
Definition s5_stopped : State := @stop sample_constants (@start sample_constants s5_state).

(** A packet from the serial number that owns address 12 in S5. *)
Definition s5_own_packet : ControlPacket :=
  {| cp_address := 12; cp_flags := 0; cp_serial_number := 0xAAAA;
     cp_driver_class := 1 |}.

(** The table after the contest of address 7: slot 1 is LOCAL again with
    neither INITIALISING nor INITIALISED, its counter at 50. *)
Definition contested_state : State :=
  mk_state true
    [This; mk_peer 7 50 0x8000 0xAAAA 1; mk_peer 12 50 0x8040 0xBBBB 1]
    (replicate 20 0%N).

(** The table 51 ticks after two fresh local drivers started: both are
    INITIALISING, at addresses 7 and 12. *)
Definition both_announcing : State :=
  mk_state true
    [This; mk_peer 7 50 0x8040 0xAAAA 1; mk_peer 12 50 0x8040 0xBBBB 1]
    (replicate 20 0%N).

(** The state right after construction, the logic driver registered in
    slot 0 of an otherwise empty table. *)
Definition constructed_state : State :=
  @PktLogicDriver_new sample_constants (mk_device 0 0 0 0) 0 (table16 [This]) true.

(** [shadowed_owner] one tick later: both drivers are INITIALISED at 12. *)
Definition both_own_12 : State :=
  mk_state true
    [This; mk_peer 12 254 0x8080 0xAAAA 1; mk_peer 12 255 0x8080 0xBBBB 1]
    (replicate 20 0%N).

(** [contested_state] one tick later. *)
Definition reallocated_state : State :=
  mk_state true
    [This; mk_peer 12 50 0x8040 0xAAAA 1; mk_peer 12 51 0x8040 0xBBBB 1]
    (replicate 20 0%N).

(** Scenario S4: the REMOTE driver of S3 once it is connected at address 7,
    its counter running from 0 (INITIALISED set), and the last packet its
    peer sends. *)
Definition s4_connected : State :=
  mk_state true [This; mk_peer 7 0 0x4080 0xDEADBEEF 7] (replicate 20 0%N).

Definition s4_last_packet : ControlPacket :=
  {| cp_address := 7; cp_flags := 0; cp_serial_number := 0xDEADBEEF;
     cp_driver_class := 7 |}.

(** The same table with CP_SEEN set on the REMOTE driver. *)
Definition s4_seen : State :=
  mk_state true [This; mk_peer 7 0 0x40A0 0xDEADBEEF 7] (replicate 20 0%N).

(** ** Further vocabulary *)

Section MoreVocabulary.
Context {C : Constants}.

(** The events of a tick or of a packet that are calls on the driver in
    slot [i]. *)
Definition events_of (i : nat) (evs : list Event) : list Event :=
  filter (fun e => event_slot e = Some i) evs.

(** The 8-bit fields of every driver of the table other than the logic
    driver hold 8-bit values. *)
Definition uint8_fields (st : State) : Prop :=
  forall k d, drivers st !! k = Some (Peer d) ->
              (address (device d) < 256)%N /\ (rolling_counter (device d) < 256)%N.

(** INITIALISING and INITIALISED are not both set. *)
Definition exclusive (d : PktSerialDriver) : Prop :=
  ~ (has_flag (flags (device d)) PKT_DEVICE_FLAGS_INITIALISING = true
     /\ has_flag (flags (device d)) PKT_DEVICE_FLAGS_INITIALISED = true).

(** What a tick may call: [queueControlPacket], [deviceConnected] or
    [deviceRemoved]; never the bus, never [handleControlPacket]. *)
Definition tick_event (e : Event) : Prop :=
  match e with
  | QueueControlPacket _ | DeviceConnected _ _ | DeviceRemoved _ => True
  | BusSend _ | HandleControlPacket _ _ => False
  end.

(** What a packet may cause: a frame on the bus, [handleControlPacket] or
    [deviceConnected]. *)
Definition packet_event (e : Event) : Prop :=
  match e with
  | BusSend _ | HandleControlPacket _ _ | DeviceConnected _ _ => True
  | QueueControlPacket _ | DeviceRemoved _ => False
  end.

(** The driver with other flags, or with another counter. *)
Definition with_flags (d : PktSerialDriver) (f : N) : PktSerialDriver :=
  set_device d (set_flags (device d) f).

Definition with_counter (d : PktSerialDriver) (c : N) : PktSerialDriver :=
  set_device d (set_rolling_counter (device d) c).

(** The driver [d] with rolling counter [c] and flags [f]. *)
Definition mk_driver (d : PktSerialDriver) (c f : N) : PktSerialDriver :=
  {| device :=
       {| address := address (device d); rolling_counter := c; flags := f;
          serial_number := serial_number (device d) |};
     driver_class := driver_class d |}.

(** Two entries of the slot table that stand for the same driver: the same
    kind of entry and, for another driver, the same serial number and class. *)
Definition same_identity (s s' : Slot) : Prop :=
  match s, s' with
  | NULL, NULL => True
  | This, This => True
  | Peer d, Peer d' =>
      serial_number (device d) = serial_number (device d')
      /\ driver_class d = driver_class d'
  | _, _ => False
  end.

(** Every driver of the table, the logic driver included, is [exclusive]. *)
Definition all_exclusive (st : State) : Prop :=
  forall k d, driver_at st k = Some d -> exclusive d.

(** One thing that happens to the logic driver: a tick that returns, or an
    inbound packet; the random draws and the packet are arbitrary.  The state
    after the step is the one the logic driver's own statements leave. *)
Inductive step : State -> State -> Prop :=
| step_tick st rs st' evs rs' :
    periodicCallback st rs = Some (st', evs, rs') -> step st st'
| step_packet st cp st' evs :
    handlePacket st cp = Some (st', evs) -> step st st'.

(** How one tick or one packet can leave the flags and the address of a
    driver: untouched; CP_SEEN cleared (timeout test); INITIALISING set with
    a new address (allocation, only when neither INITIALISING nor INITIALISED
    was set); INITIALISING replaced by INITIALISED (end of the silence
    window); INITIALISING cleared (contested candidate); CP_SEEN set (packet
    from the owner). *)
Definition slot_step (d d' : PktSerialDriver) : Prop :=
  let f := flags (device d) in
  let f' := flags (device d') in
  (f' = f /\ address (device d') = address (device d))
  \/ (f' = N.ldiff f PKT_DEVICE_FLAGS_CP_SEEN
      /\ address (device d') = address (device d))
  \/ (f' = N.lor f PKT_DEVICE_FLAGS_INITIALISING
      /\ has_flag f (N.lor PKT_DEVICE_FLAGS_INITIALISED
                       PKT_DEVICE_FLAGS_INITIALISING) = false)
  \/ (f' = N.lor (N.ldiff f PKT_DEVICE_FLAGS_INITIALISING)
             PKT_DEVICE_FLAGS_INITIALISED
      /\ address (device d') = address (device d))
  \/ (f' = N.ldiff f PKT_DEVICE_FLAGS_INITIALISING
      /\ address (device d') = address (device d))
  \/ (f' = N.lor f PKT_DEVICE_FLAGS_CP_SEEN
      /\ address (device d') = address (device d)).

(** Any finite sequence of ticks and inbound packets. *)
Inductive run : State -> State -> Prop :=
| run_done st : run st st
| run_more st st1 st' : step st st1 -> run st1 st' -> run st st'.

End MoreVocabulary.

(** The filter array of S6 with one more address in it. *)
Definition s6_two_addresses : list N := [5; 9]%N ++ replicate 18 0%N.

(** A PAIRED packet from address 9 and a BROADCAST packet from address 5. *)
Definition paired_from_9 : ControlPacket :=
  {| cp_address := 9; cp_flags := 0x02; cp_serial_number := 0xFEED;
     cp_driver_class := 3 |}.

Definition broadcast_from_5 : ControlPacket :=
  {| cp_address := 5; cp_flags := 0x04; cp_serial_number := 0xDEADBEEF;
     cp_driver_class := 7 |}.

(** A REMOTE slot of class 7 next to the logic driver, the filter array
    holding addresses 5 and 9. *)
Definition two_filtered_state : State :=
  mk_state true [This; mk_peer 0 0 0x4000 0 7] s6_two_addresses.

Definition paired_from_11 : ControlPacket :=
  {| cp_address := 11; cp_flags := 0x02; cp_serial_number := 0xF00D;
     cp_driver_class := 3 |}.

(** S5 after the owner's own packet: CP_SEEN is set on slot 1. *)
Definition s5_seen : State :=
  mk_state true [This; mk_peer 12 3 0x80A0 0xAAAA 1] (replicate 20 0%N).

(** An INITIALISED local driver one tick before its counter reaches the
    control-packet period, and the table one tick later. *)
Definition beacon_due : State :=
  mk_state true [This; mk_peer 12 111 0x8080 0xAAAA 1] (replicate 20 0%N).

Definition beacon_sent : State :=
  mk_state true [This; mk_peer 12 112 0x8080 0xAAAA 1] (replicate 20 0%N).

(** An INITIALISING local driver two ticks before the end of its silence
    window, and the table two ticks later. *)
Definition window_closing : State :=
  mk_state true [This; mk_peer 12 252 0x8040 0xAAAA 1] (replicate 20 0%N).

Definition window_closed : State :=
  mk_state true [This; mk_peer 12 254 0x8080 0xAAAA 1] (replicate 20 0%N).

(** S4 one tick after the last packet. *)
Definition s4_seen_next : State :=
  mk_state true [This; mk_peer 7 1 0x40A0 0xDEADBEEF 7] (replicate 20 0%N).

(** The hypothesis that slot [i] is the first one holding the packet's
    address, on a 16-entry table. *)
Ltac first_match_here :=
  split; [vm_compute; lia|]; split; [reflexivity|]; split; [reflexivity|];
  let j := fresh "j" in let dj := fresh "dj" in
  let Hj := fresh "Hj" in let Hdj := fresh "Hdj" in
  intros j dj Hj Hdj; each_slot j Hdj; try lia; vm_compute; discriminate.

Ltac no_match_here :=
  let i := fresh "i" in let d := fresh "d" in
  let Hi := fresh "Hi" in let Hd := fresh "Hd" in
  intros i d Hi Hd; each_slot i Hd; vm_compute; discriminate.

(** Every driver of a 16-entry table is [exclusive]. *)
Ltac all_exclusive_here :=
  let k := fresh "k" in let d := fresh "d" in let Hd := fresh "Hd" in
  let H1 := fresh "H1" in let H2 := fresh "H2" in
  intros k d Hd; each_slot k Hd; intros [H1 H2]; vm_compute in H1, H2;
  discriminate.

(** The 8-bit fields of a 16-entry table are in range. *)
Ltac uint8_fields_here :=
  let k := fresh "k" in let d := fresh "d" in let Hd := fresh "Hd" in
  intros k d Hd; each_slot k Hd; vm_compute; split; reflexivity.


(** ** The drivers' own methods

    [deviceConnected] and [deviceRemoved] are virtual methods of
    [PktSerialDriver]; their bodies are not in the sources at hand.  A method
    acts on the driver object it is called on, so its effect is a function of
    that driver (and, for [deviceConnected], of the record handed over).  The
    two functions are parameters: every property below that mentions them
    holds whatever they are, unless it states an assumption on them. *)
Class Callees := {
  deviceConnected : PktSerialDriver -> PktDevice -> PktSerialDriver;
  deviceRemoved : PktSerialDriver -> PktSerialDriver
}.

(** The table keeps the kind of every entry: empty, the logic driver, or some
    other driver. *)
Definition kinds_kept (st st' : State) : Prop :=
  forall k, match drivers st !! k with
            | Some (Peer _) => exists d', drivers st' !! k = Some (Peer d')
            | o => drivers st' !! k = o
            end.

(** The fields the logic driver never writes but on allocation, and the
    class. *)
Definition same_fields (d d' : PktSerialDriver) : Prop :=
  address (device d') = address (device d)
  /\ rolling_counter (device d') = rolling_counter (device d)
  /\ serial_number (device d') = serial_number (device d)
  /\ driver_class d' = driver_class d.

Definition is_device_connected (e : Event) : bool :=
  match e with DeviceConnected _ _ => true | _ => false end.

(** A call of [deviceConnected] or [deviceRemoved] on the driver in slot [k]. *)
Definition calls_into (k : nat) (e : Event) : bool :=
  match e with
  | DeviceConnected j _ => (k =? j)%nat
  | DeviceRemoved j => (k =? j)%nat
  | _ => false
  end.

(** What happens to the logic driver from outside: a tick, with the draws the
    random source holds for it, or an inbound packet. *)
Inductive Input :=
| Tick (rs : list N)
| Packet (cp : ControlPacket).

Section Calling.
Context {C : Constants} {K : Callees}.

(** What a call does to the driver it is made on. *)
Definition call_effect (e : Event) (d : PktSerialDriver) : PktSerialDriver :=
  match e with
  | DeviceConnected _ rec => deviceConnected d rec
  | DeviceRemoved _ => deviceRemoved d
  | _ => d
  end.

(** Line 32: [flags &= ~CP_SEEN]. *)
Definition clear_cp_seen (d : PktSerialDriver) : PktSerialDriver :=
  set_device d
    (set_flags (device d) (N.ldiff (flags (device d)) PKT_DEVICE_FLAGS_CP_SEEN)).

(** The body of the [for i] loop with the methods taking effect.  At the
    timeout of a REMOTE driver whose CP_SEEN is clear (line 27-33)
    [deviceRemoved] runs first and CP_SEEN is then cleared in the flags it
    left.  In every other branch a call is the last statement of the branch
    ([deviceConnected], line 85) or changes nothing in the record
    ([queueControlPacket], line 73 and 91), so the method acts on the driver
    as [tick_peer] leaves it. *)
Definition tick_peer_with (st : State) (i : nat) (d : PktSerialDriver)
    (rs : list N) : option (PktSerialDriver * list Event * list N) :=
  let dev := bump_counter (device d) in
  if has_flag (flags dev) PKT_DEVICE_FLAGS_REMOTE
     && (rolling_counter dev =? PKT_LOGIC_DRIVER_TIMEOUT)%N
     && negb (has_flag (flags dev) PKT_DEVICE_FLAGS_CP_SEEN)
  then
    Some (clear_cp_seen (deviceRemoved (set_device d dev)),
          [DeviceRemoved i], rs)
  else
    '(d', evs, rs') ← tick_peer st i d rs;
    Some (foldl (fun x e => call_effect e x) d' evs, evs, rs').

(** The [for i] loop, as [tick_slots], over the body above. *)
Fixpoint tick_slots_with (ixs : list nat) (st : State) (rs : list N)
  : option (State * list Event * list N) :=
  match ixs with
  | [] => Some (st, [], rs)
  | i :: ixs' =>
      match drivers st !! i with
      | Some (Peer d) =>
          '(d', evs, rs') ← tick_peer_with st i d rs;
          '(st', evs', rs'') ←
            tick_slots_with ixs'
              (set_drivers st (<[i := Peer d']> (drivers st))) rs';
          Some (st', evs ++ evs', rs'')
      | _ => tick_slots_with ixs' st rs
      end
  end.

Definition periodicCallback_with (st : State) (rs : list N)
  : option (State * list Event * list N) :=
  if negb (bus_running st) then Some (st, [], rs)
  else tick_slots_with (seq 0 PKT_PROTOCOL_DRIVER_SIZE) st rs.

(** The table once the method of event [e] has run. *)
Definition after_call (st : State) (e : Event) : State :=
  match e with
  | DeviceConnected i _ | DeviceRemoved i =>
      match driver_at st i with
      | Some d => set_driver st i (call_effect e d)
      | None => st
      end
  | _ => st
  end.

(** [handlePacket] with the methods taking effect: every call it makes
    (line 132, 147 and 197) is followed by [return], so the method acts on
    the table as [handlePacket] leaves it. *)
Definition handlePacket_with (st : State) (cp : ControlPacket)
  : option (State * list Event) :=
  '(st', evs) ← handlePacket st cp;
  Some (foldl after_call st' evs, evs).

(** A run of [n] ticks with the methods taking effect. *)
Fixpoint ticks_with (n : nat) (st : State) (rs : list N)
  : option (State * list (list Event) * list N) :=
  match n with
  | O => Some (st, [], rs)
  | S n' =>
      '(st1, evs, rs1) ← periodicCallback_with st rs;
      '(st2, tr, rs2) ← ticks_with n' st1 rs1;
      Some (st2, evs :: tr, rs2)
  end.

(** One input, and a sequence of inputs; the events are collected. *)
Definition step_with (st : State) (x : Input) : option (State * list Event) :=
  match x with
  | Tick rs => '(st', evs, _) ← periodicCallback_with st rs; Some (st', evs)
  | Packet cp => handlePacket_with st cp
  end.

Fixpoint run_with (xs : list Input) (st : State) : option (State * list Event) :=
  match xs with
  | [] => Some (st, [])
  | x :: xs' =>
      '(st1, e1) ← step_with st x;
      '(st2, e2) ← run_with xs' st1;
      Some (st2, e1 ++ e2)
  end.

(** [deviceRemoved] is due on a REMOTE driver [d] in the tick after [k]
    further ticks: the counter equals the timeout in that tick, and CP_SEEN is
    clear by then, clear from the start or cleared by the timeout test of an
    earlier tick. *)
Definition removal_due (d : PktSerialDriver) (k : nat) : Prop :=
  counter_after d (S k) = PKT_LOGIC_DRIVER_TIMEOUT
  /\ (has_flag (flags (device d)) PKT_DEVICE_FLAGS_CP_SEEN = false
      \/ exists k', k' < k
                    /\ counter_after d (S k') = PKT_LOGIC_DRIVER_TIMEOUT).

(** An assumption on [deviceRemoved]: it ends the record of a driver that is
    not LOCAL.  Neither INITIALISING nor INITIALISED is left set, so the
    counter stands still, and it does not stand at the timeout. *)
Definition removal_ends_record : Prop :=
  forall d,
    has_flag (flags (device d)) PKT_DEVICE_FLAGS_LOCAL = false ->
    has_flag (flags (device (deviceRemoved d)))
      (N.lor PKT_DEVICE_FLAGS_INITIALISED PKT_DEVICE_FLAGS_INITIALISING) = false
    /\ has_flag (flags (device (deviceRemoved d))) PKT_DEVICE_FLAGS_LOCAL = false
    /\ rolling_counter (device (deviceRemoved d)) <> PKT_LOGIC_DRIVER_TIMEOUT.

(** A driver the tick does nothing to: not LOCAL, its counter standing still
    away from the timeout. *)
Definition dormant (d : PktSerialDriver) : Prop :=
  has_flag (flags (device d))
    (N.lor PKT_DEVICE_FLAGS_INITIALISED PKT_DEVICE_FLAGS_INITIALISING) = false
  /\ has_flag (flags (device d)) PKT_DEVICE_FLAGS_LOCAL = false
  /\ rolling_counter (device d) <> PKT_LOGIC_DRIVER_TIMEOUT.

End Calling.

Section AddressVocabulary.
Context {C : Constants}.

(** The logic driver sits in a slot of the table, INITIALISED at address 0,
    as its constructor leaves it. *)
Definition logic_driver_registered (st : State) : Prop :=
  (exists j, j < PKT_PROTOCOL_DRIVER_SIZE /\ drivers st !! j = Some This)
  /\ initialised (this_driver st)
  /\ address (device (this_driver st)) = 0%N.

(** Every driver other than the logic driver that holds or announces an
    address has a non-zero one. *)
Definition nonzero_peers (st : State) : Prop :=
  forall k d, drivers st !! k = Some (Peer d) -> claimed d ->
              address (device d) <> 0%N.

(** What a packet can do to a driver: the address stays, INITIALISED is
    neither set nor cleared, and neither INITIALISING nor INITIALISED is
    set. *)
Definition packet_keeps (d d' : PktSerialDriver) : Prop :=
  address (device d') = address (device d)
  /\ (initialised d -> initialised d')
  /\ (initialised d' -> initialised d)
  /\ (claimed d' -> claimed d).

(** Entry by entry: the table keeps the kind of every entry, and every
    driver, the logic driver included, is related by [packet_keeps]. *)
Definition entries_keep (st st' : State) : Prop :=
  (forall k, match drivers st !! k with
             | Some (Peer d) =>
                 exists d', drivers st' !! k = Some (Peer d') /\ packet_keeps d d'
             | o => drivers st' !! k = o
             end)
  /\ packet_keeps (this_driver st) (this_driver st').

(** What the logic driver's own statements can do to a driver in one tick or
    packet: one of the changes of [slot_step], the serial number and the
    class staying. *)
Definition own_step (d d' : PktSerialDriver) : Prop :=
  slot_step d d'
  /\ serial_number (device d') = serial_number (device d)
  /\ driver_class d' = driver_class d.

(** A local driver that owns its address: LOCAL and INITIALISED, neither
    REMOTE nor INITIALISING. *)
Definition owner (d : PktSerialDriver) : Prop :=
  has_flag (flags (device d)) PKT_DEVICE_FLAGS_LOCAL = true
  /\ has_flag (flags (device d)) PKT_DEVICE_FLAGS_REMOTE = false
  /\ has_flag (flags (device d)) PKT_DEVICE_FLAGS_INITIALISED = true
  /\ has_flag (flags (device d)) PKT_DEVICE_FLAGS_INITIALISING = false.



(** The methods that leave the record of their driver alone. *)
Definition quiet_callees : Callees :=
  {| deviceConnected := fun d _ => d;
     deviceRemoved := fun d => d |}.

(** Modelled from the spec: the bodies of [PktSerialDriver::deviceConnected]
    and [PktSerialDriver::deviceRemoved] are missing.  In the spec (3, 4.1,
    S3, S4) the record of a driver is created when the driver is associated
    and destroyed on [device_removed()], and the rolling counter is reset on
    a transition the protocol observes: [deviceConnected] stores the address,
    serial number and counter of the record it is handed and marks the driver
    INITIALISED; [deviceRemoved] clears INITIALISED and INITIALISING and resets
    the counter. *)
Definition placing_callees : Callees :=
  {| deviceConnected := fun d rec =>
       set_device d
         {| address := address rec;
            rolling_counter := rolling_counter rec;
            flags := N.lor (flags (device d)) PKT_DEVICE_FLAGS_INITIALISED;
            serial_number := serial_number rec |};
     deviceRemoved := fun d =>
       set_device d
         {| address := address (device d);
            rolling_counter := 0;
            flags := N.ldiff (flags (device d))
                       (N.lor PKT_DEVICE_FLAGS_INITIALISED
                          PKT_DEVICE_FLAGS_INITIALISING);
            serial_number := serial_number (device d) |} |}.

End AddressVocabulary.

(** ** Further sample tables *)

Definition sample_callees : Callees := @placing_callees sample_constants.

(** The draws of a tick on [contested_state]: 256 gives candidate 0, which
    the logic driver holds; 12 is free. *)
Definition contested_draws : list N := [256; 12]%N.

(** S5 with a REMOTE slot of class 7 waiting in slot 2.  The inputs: the
    packet of S3, which is associated with slot 2, a tick, the foreign packet
    for address 12, the owner's packet, and another tick. *)
Definition s5_with_waiting : State :=
  mk_state true
    [This; mk_peer 12 3 0x8080 0xAAAA 1; mk_peer 0 0 0x4000 0 7]
    (replicate 20 0%N).

Definition s5_inputs : list Input :=
  [Packet s3_packet; Tick []; Packet s5_packet; Packet s5_own_packet; Tick []].

(** The table after these inputs, with [placing_callees], and the calls
    made. *)
Definition s5_with_waiting_later : State :=
  mk_state true
    [This; mk_peer 12 5 0x80A0 0xAAAA 1; mk_peer 7 2 0x4080 0xDEADBEEF 7]
    (replicate 20 0%N).

Definition s5_calls : list Event :=
  [DeviceConnected 2 (mk_device 7 0 0 0xDEADBEEF);
   BusSend {| cp_address := 12; cp_flags := 0x01; cp_serial_number := 0xBBBB;
              cp_driver_class := 1 |};
   HandleControlPacket 1 s5_own_packet].

(** [s5_with_waiting] right after the packet of S3, with
    [placing_callees]. *)
Definition s5_associated : State :=
  mk_state true
    [This; mk_peer 12 3 0x8080 0xAAAA 1; mk_peer 7 0 0x4080 0xDEADBEEF 7]
    (replicate 20 0%N).

(** Scenario S3 after the association, with [placing_callees]: the REMOTE
    slot holds the peer's address and serial number. *)
Definition s3_associated : State :=
  mk_state true [This; mk_peer 7 0 0x4080 0xDEADBEEF 7] (replicate 20 0%N).
(** * Properties *)

(** ** Flag arithmetic *)

Section Flags.

Lemma has_flag_true (x m : N) : has_flag x m = true <-> N.land x m <> 0%N.
Proof. unfold has_flag. now rewrite negb_true_iff, N.eqb_neq. Qed.

Lemma has_flag_false (x m : N) : has_flag x m = false <-> N.land x m = 0%N.
Proof. unfold has_flag. now rewrite negb_false_iff, N.eqb_eq. Qed.

Lemma has_flag_mask_lor (x a b : N) :
  has_flag x (N.lor a b) = has_flag x a || has_flag x b.
Proof.
  apply eq_true_iff_eq.
  rewrite orb_true_iff, !has_flag_true, N.land_lor_distr_r, N.lor_eq_0_iff.
  destruct (N.eq_dec (N.land x a) 0%N), (N.eq_dec (N.land x b) 0%N); tauto.
Qed.

Lemma has_flag_lor (x m a : N) :
  has_flag (N.lor x m) a = has_flag x a || has_flag m a.
Proof.
  apply eq_true_iff_eq.
  rewrite orb_true_iff, !has_flag_true, N.land_lor_distr_l, N.lor_eq_0_iff.
  destruct (N.eq_dec (N.land x a) 0%N), (N.eq_dec (N.land m a) 0%N); tauto.
Qed.

Lemma land_ldiff_disjoint (x m a : N) :
  N.land m a = 0%N -> N.land (N.ldiff x m) a = N.land x a.
Proof.
  intros H. apply N.bits_inj. intros n.
  assert (Hn : N.testbit (N.land m a) n = false) by (rewrite H; apply N.bits_0).
  rewrite N.land_spec in Hn. rewrite !N.land_spec, N.ldiff_spec.
  destruct (N.testbit x n), (N.testbit m n), (N.testbit a n);
    simpl in *; congruence.
Qed.

Lemma has_flag_ldiff_disjoint (x m a : N) :
  N.land m a = 0%N -> has_flag (N.ldiff x m) a = has_flag x a.
Proof. intros H. unfold has_flag. now rewrite land_ldiff_disjoint. Qed.

Lemma has_flag_ldiff_mono (x m a : N) :
  has_flag (N.ldiff x m) a = true -> has_flag x a = true.
Proof.
  rewrite !has_flag_true. intros H Hx. apply H. apply N.bits_inj. intros n.
  assert (Hn : N.testbit (N.land x a) n = false) by (rewrite Hx; apply N.bits_0).
  rewrite N.land_spec in Hn. rewrite N.land_spec, N.ldiff_spec, N.bits_0.
  destruct (N.testbit x n), (N.testbit m n), (N.testbit a n);
    simpl in *; congruence.
Qed.

Lemma has_flag_ldiff_same (x m : N) : has_flag (N.ldiff x m) m = false.
Proof.
  apply has_flag_false. apply N.bits_inj. intros n.
  rewrite N.land_spec, N.ldiff_spec, N.bits_0.
  destruct (N.testbit x n), (N.testbit m n); reflexivity.
Qed.

Lemma has_flag_self (m : N) : m <> 0%N -> has_flag m m = true.
Proof. intros H. apply has_flag_true. now rewrite N.land_diag. Qed.

End Flags.

(** ** Searching the slot table *)

Section FindSlot.
Context {C : Constants}.

Lemma find_slot_None (p : PktSerialDriver -> bool) (st : State) (ixs : list nat) :
  find_slot p st ixs = None <->
  (forall i d, i ∈ ixs -> driver_at st i = Some d -> p d = false).
Proof.
  induction ixs as [|i ixs IH]; simpl.
  - split; [|reflexivity]. intros _ j d Hj. inversion Hj.
  - destruct (driver_at st i) as [d|] eqn:Hd.
    + destruct (p d) eqn:Hp.
      * split; [discriminate|]. intros H.
        specialize (H i d (list_elem_of_here _ _) Hd). congruence.
      * rewrite IH. split.
        -- intros H j dj Hj Hdj. apply elem_of_cons in Hj as [->|Hj].
           ++ congruence.
           ++ eauto.
        -- intros H j dj Hj. apply H. now right.
    + rewrite IH. split.
      * intros H j dj Hj Hdj. apply elem_of_cons in Hj as [->|Hj].
        -- congruence.
        -- eauto.
      * intros H j dj Hj. apply H. now right.
Qed.

Lemma find_slot_Some (p : PktSerialDriver -> bool) (st : State) (ixs : list nat)
    (i : nat) (d : PktSerialDriver) :
  find_slot p st ixs = Some (i, d) ->
  i ∈ ixs /\ driver_at st i = Some d /\ p d = true.
Proof.
  induction ixs as [|k ixs IH]; simpl; [discriminate|].
  destruct (driver_at st k) as [dk|] eqn:Hk.
  - destruct (p dk) eqn:Hp.
    + intros [= <- <-]. split; [left|]. now split.
    + intros H. apply IH in H as (? & ? & ?). split; [now right|]. now split.
  - intros H. apply IH in H as (? & ? & ?). split; [now right|]. now split.
Qed.

(** The search in slot order returns the first slot that qualifies. *)
Lemma find_slot_seq_first (p : PktSerialDriver -> bool) (st : State)
    (n a i : nat) (d : PktSerialDriver) :
  a <= i < a + n ->
  driver_at st i = Some d ->
  p d = true ->
  (forall j dj, a <= j < i -> driver_at st j = Some dj -> p dj = false) ->
  find_slot p st (seq a n) = Some (i, d).
Proof.
  revert a. induction n as [|n IH]; intros a Hi Hd Hp Hfirst; simpl; [lia|].
  destruct (decide (a = i)) as [->|Hne].
  - now rewrite Hd, Hp.
  - assert (Hrest : find_slot p st (seq (S a) n) = Some (i, d)).
    { apply IH; [lia|assumption|assumption|].
      intros j dj Hj. apply Hfirst. lia. }
    destruct (driver_at st a) as [da|] eqn:Ha; [|exact Hrest].
    rewrite (Hfirst a da); [exact Hrest|lia|exact Ha].
Qed.

Lemma find_slot_seq_inv (p : PktSerialDriver -> bool) (st : State)
    (n a i : nat) (d : PktSerialDriver) :
  find_slot p st (seq a n) = Some (i, d) ->
  a <= i < a + n /\ driver_at st i = Some d /\ p d = true
  /\ (forall j dj, a <= j < i -> driver_at st j = Some dj -> p dj = false).
Proof.
  revert a. induction n as [|n IH]; intros a; simpl; [discriminate|].
  assert (Hstep : find_slot p st (seq (S a) n) = Some (i, d) ->
                  (forall da, driver_at st a = Some da -> p da = false) ->
                  a <= i < a + S n /\ driver_at st i = Some d /\ p d = true
                  /\ (forall j dj, a <= j < i -> driver_at st j = Some dj ->
                                   p dj = false)).
  { intros H Ha. apply IH in H as (Hi & Hd & Hpd & Hfirst).
    split; [lia|]. split; [exact Hd|]. split; [exact Hpd|].
    intros j dj Hj Hdj. destruct (decide (j = a)) as [->|Hne].
    - now apply Ha.
    - apply (Hfirst j dj); [lia|exact Hdj]. }
  destruct (driver_at st a) as [da|] eqn:Ha.
  - destruct (p da) eqn:Hp.
    + intros [= <- <-]. split; [lia|]. split; [exact Ha|]. split; [exact Hp|].
      intros j dj Hj. lia.
    + intros H. apply Hstep; [exact H|]. intros da' [= <-]. exact Hp.
  - intros H. apply Hstep; [exact H|]. discriminate.
Qed.

Lemma driver_at_set_address_filters (st : State) (fs : list N) (i : nat) :
  driver_at (set_address_filters st fs) i = driver_at st i.
Proof. reflexivity. Qed.

Lemma find_slot_set_address_filters (p : PktSerialDriver -> bool) (st : State)
    (fs : list N) (ixs : list nat) :
  find_slot p (set_address_filters st fs) ixs = find_slot p st ixs.
Proof.
  induction ixs as [|i ixs IH]; simpl; [reflexivity|].
  rewrite driver_at_set_address_filters, IH. reflexivity.
Qed.

(** The test of line 184-188 in words. *)
Lemma remote_candidate_spec (cp : ControlPacket) (d : PktSerialDriver) :
  remote_candidate cp d = true <->
  has_flag (flags (device d)) PKT_DEVICE_FLAGS_REMOTE = true
  /\ driver_class d = cp_driver_class cp
  /\ (serial_number (device d) = 0%N
      \/ serial_number (device d) = cp_serial_number cp).
Proof.
  unfold remote_candidate.
  rewrite !andb_true_iff, negb_true_iff, andb_false_iff, negb_false_iff.
  rewrite !N.eqb_eq, N.ltb_ge. split.
  - intros [[Hr Hc] Hs]. repeat split; try assumption.
    destruct Hs as [Hs|Hs]; [left; lia|now right].
  - intros (Hr & Hc & Hs). repeat split; try assumption.
    destruct Hs as [Hs|Hs]; [left; lia|now right].
Qed.

End FindSlot.

(** ** filterPacket and the bounds of the filter array *)

Section FilterBounds.
Context {C : Constants}.

Lemma filter_scan_in_range (filters : list N) (a : N) (ixs : list nat) :
  (forall i, i ∈ ixs -> i < length filters) ->
  is_Some (filter_scan filters a ixs).
Proof.
  induction ixs as [|i ixs IH]; intros Hin; simpl.
  - eauto.
  - destruct (lookup_lt_is_Some_2 filters i) as [f Hf].
    { apply Hin. left. }
    rewrite Hf. destruct (f =? a)%N; [eauto|].
    apply IH. intros j Hj. apply Hin. now right.
Qed.

Lemma filter_scan_out_of_range (filters : list N) (a : N) (ixs : list nat) (k : nat) :
  a ∉ filters -> k ∈ ixs -> length filters <= k ->
  filter_scan filters a ixs = None.
Proof.
  intros Hnot. induction ixs as [|i ixs IH]; intros Hk Hlen; simpl.
  - inversion Hk.
  - destruct (filters !! i) as [f|] eqn:Hf; [|reflexivity].
    destruct (N.eqb_spec f a) as [->|Hne].
    + exfalso. apply Hnot. eapply list_elem_of_lookup_2; eauto.
    + apply IH; [|exact Hlen].
      apply elem_of_cons in Hk as [->|Hk]; [|exact Hk].
      apply lookup_lt_Some in Hf. lia.
Qed.

(** When the slot table is no longer than the filter array, every index the
    scan reads is inside the array. *)
Lemma filterPacket_in_range (filters : list N) (a : N) :
  PKT_PROTOCOL_DRIVER_SIZE <= PKT_LOGIC_DRIVER_MAX_FILTERS ->
  length filters = PKT_LOGIC_DRIVER_MAX_FILTERS ->
  is_Some (filterPacket filters a).
Proof.
  intros Hle Hlen. unfold filterPacket.
  destruct (0 <? a)%N; [|eauto].
  apply filter_scan_in_range. intros i Hi.
  apply elem_of_seq in Hi. lia.
Qed.

(** The scan of [filterPacket] is bounded by the size of the slot table, not
    by the capacity of [address_filters].  In a build whose table has more
    slots than the array has entries, a non-zero address that is not in the
    array makes the scan read index [PKT_LOGIC_DRIVER_MAX_FILTERS], outside
    the array.  Which of the two cases holds is decided by the header that
    defines both constants. *)
Lemma filterPacket_reads_past_the_array (filters : list N) (a : N) :
  PKT_LOGIC_DRIVER_MAX_FILTERS < PKT_PROTOCOL_DRIVER_SIZE ->
  length filters = PKT_LOGIC_DRIVER_MAX_FILTERS ->
  (0 < a)%N ->
  a ∉ filters ->
  filterPacket filters a = None.
Proof.
  intros Hlt Hlen Ha Hnot. unfold filterPacket.
  apply N.ltb_lt in Ha. rewrite Ha.
  apply (filter_scan_out_of_range filters a _ PKT_LOGIC_DRIVER_MAX_FILTERS);
    [exact Hnot| |lia].
  apply elem_of_seq. lia.
Qed.

End FilterBounds.

Lemma filterPacket_reads_past_the_array_witness :
  @PKT_LOGIC_DRIVER_MAX_FILTERS short_filter_constants
  < @PKT_PROTOCOL_DRIVER_SIZE short_filter_constants
  /\ length (replicate 8 0%N) = @PKT_LOGIC_DRIVER_MAX_FILTERS short_filter_constants
  /\ @filterPacket short_filter_constants (replicate 8 0%N) 5 = None.
Proof.
  split; [vm_compute; lia|]. split; [reflexivity|].
  apply (@filterPacket_reads_past_the_array short_filter_constants).
  - vm_compute. lia.
  - reflexivity.
  - lia.
  - intros H. apply elem_of_replicate in H as [H _]. discriminate H.
Defined.

(** ** The loops over the filter array *)

Section FilterRewrite.
Context {C : Constants}.

Lemma rewrite_loop_lookup (hit : N -> bool) (v : N) (fs : list N) (n : nat) :
  forall i,
    foldl
      (fun fs i =>
         match fs !! i with
         | Some f => if hit f then <[i := v]> fs else fs
         | None => fs
         end) fs (seq 0 n) !! i
    = (fun f => if bool_decide (i < n) && hit f then v else f) <$> fs !! i.
Proof.
  induction n as [|n IH]; intros i.
  - simpl. destruct (fs !! i); reflexivity.
  - rewrite seq_S, foldl_app. simpl.
    set (L := foldl _ fs (seq 0 n)) in *.
    assert (Hn : L !! n = fs !! n).
    { rewrite IH. rewrite bool_decide_eq_false_2 by lia.
      destruct (fs !! n); reflexivity. }
    assert (Hother : i <> n ->
              L !! i = (fun f => if bool_decide (i < S n) && hit f then v else f)
                       <$> fs !! i).
    { intros Hne. rewrite IH. destruct (fs !! i) as [f|]; [|reflexivity].
      simpl. rewrite (bool_decide_ext (i < n) (i < S n)) by lia. reflexivity. }
    rewrite Hn. destruct (fs !! n) as [f|] eqn:Hf.
    + destruct (decide (i = n)) as [->|Hne].
      * rewrite Hf. simpl. rewrite bool_decide_eq_true_2 by lia. simpl.
        destruct (hit f); [|now rewrite Hn].
        apply list_lookup_insert_eq. apply lookup_lt_is_Some.
        rewrite Hn. eauto.
      * destruct (hit f); [rewrite list_lookup_insert_ne by lia|]; now apply Hother.
    + destruct (decide (i = n)) as [->|Hne]; [|now apply Hother].
      now rewrite Hn, Hf.
Qed.

Lemma rewrite_filters_fmap (hit : N -> bool) (v : N) (fs : list N) :
  length fs <= PKT_LOGIC_DRIVER_MAX_FILTERS ->
  rewrite_filters hit v fs = (fun f => if hit f then v else f) <$> fs.
Proof.
  intros Hlen. apply list_eq. intros i. unfold rewrite_filters.
  rewrite rewrite_loop_lookup, list_lookup_fmap.
  destruct (fs !! i) as [f|] eqn:Hf; [|reflexivity].
  apply lookup_lt_Some in Hf. simpl.
  rewrite bool_decide_eq_true_2 by lia. reflexivity.
Qed.


End FilterRewrite.

(** ** handlePacket *)

Section HandlePacket.
Context {C : Constants}.

Lemma no_address_match_find (st : State) (cp : ControlPacket) :
  no_address_match st cp ->
  find_slot (address_matches cp) st (seq 0 PKT_PROTOCOL_DRIVER_SIZE) = None.
Proof.
  intros H. apply find_slot_None. intros i d Hi Hd.
  apply elem_of_seq in Hi. unfold address_matches.
  apply N.eqb_neq. apply (H i d); [lia|exact Hd].
Qed.

Lemma first_target_find (st : State) (cp : ControlPacket) (i : nat)
    (d : PktSerialDriver) :
  first_slot (association_target cp) st i d ->
  find_slot (remote_candidate cp) st (seq 0 PKT_PROTOCOL_DRIVER_SIZE)
  = Some (i, d).
Proof.
  intros (Hi & Hd & Ht & Hfirst).
  apply find_slot_seq_first; [lia|exact Hd|now apply remote_candidate_spec|].
  intros j dj Hj Hdj. apply not_true_is_false. intros Hc.
  apply remote_candidate_spec in Hc. apply (Hfirst j dj); [lia|exact Hdj|exact Hc].
Qed.

(** Step 3 is reached whenever step 1 finds no slot and step 2 does not
    return; the filter lookup takes no part in the decision to associate. *)
Lemma handlePacket_associates (st : State) (cp : ControlPacket) (filtered : bool)
    (i : nat) (d : PktSerialDriver) :
  no_address_match st cp ->
  filterPacket (address_filters st) (cp_address cp) = Some filtered ->
  has_flag (cp_flags cp) CONTROL_PKT_FLAGS_PAIRED && negb filtered = false ->
  filtered && has_flag (cp_flags cp) CONTROL_PKT_FLAGS_BROADCAST = false ->
  first_slot (association_target cp) st i d ->
  handlePacket st cp = Some (st, [DeviceConnected i (device_of_packet cp)]).
Proof.
  intros Hno Hf Hp Hb Ht. unfold handlePacket.
  rewrite (no_address_match_find st cp Hno), Hf. simpl.
  rewrite Hp, Hb. now rewrite (first_target_find st cp i d Ht).
Qed.

(** C3: an address that [filterPacket] reports as filtered is associated all
    the same.  For a packet without BROADCAST whose address is in the filter
    and matches no slot, [handlePacket] goes on to the remote association and
    invokes [deviceConnected] on the first REMOTE slot of the packet's class;
    the filter suppresses nothing. *)
Theorem handlePacket_filtered_address_is_associated (st : State)
    (cp : ControlPacket) (i : nat) (d : PktSerialDriver) :
  no_address_match st cp ->
  filterPacket (address_filters st) (cp_address cp) = Some true ->
  has_flag (cp_flags cp) CONTROL_PKT_FLAGS_BROADCAST = false ->
  first_slot (association_target cp) st i d ->
  handlePacket st cp = Some (st, [DeviceConnected i (device_of_packet cp)]).
Proof.
  intros Hno Hf Hb Ht.
  apply (handlePacket_associates st cp true i d); try assumption.
  apply andb_false_r.
Qed.

(** C6, as the code has it: for a packet without PAIRED that matches no slot
    by address and is not filtered, [deviceConnected] is invoked exactly once
    (it is the only event), on the first slot in slot order that is REMOTE
    with the packet's class and serial 0 or the packet's serial.  The record
    passed has the packet's address and serial, counter 0, and the packet's
    flags as they are: REMOTE is not added. *)
Theorem handlePacket_remote_association (st : State) (cp : ControlPacket)
    (i : nat) (d : PktSerialDriver) :
  no_address_match st cp ->
  filterPacket (address_filters st) (cp_address cp) = Some false ->
  has_flag (cp_flags cp) CONTROL_PKT_FLAGS_PAIRED = false ->
  first_slot (association_target cp) st i d ->
  handlePacket st cp
  = Some (st, [DeviceConnected i
                 {| address := cp_address cp; rolling_counter := 0;
                    flags := cp_flags cp;
                    serial_number := cp_serial_number cp |}]).
Proof.
  intros Hno Hf Hp Ht.
  apply (handlePacket_associates st cp false i d); try assumption.
  - now rewrite Hp.
  - reflexivity.
Qed.

(** C7: a PAIRED packet for an address that matches no slot and is not yet
    filtered makes [handlePacket] write the address into every entry of the
    filter array that is 0, not only the first; no event is produced. *)
Theorem handlePacket_paired_fills_every_empty_entry (st : State)
    (cp : ControlPacket) :
  no_address_match st cp ->
  has_flag (cp_flags cp) CONTROL_PKT_FLAGS_PAIRED = true ->
  filterPacket (address_filters st) (cp_address cp) = Some false ->
  length (address_filters st) = PKT_LOGIC_DRIVER_MAX_FILTERS ->
  handlePacket st cp
  = Some (set_address_filters st
            ((fun f => if (f =? 0)%N then cp_address cp else f)
               <$> address_filters st),
          []).
Proof.
  intros Hno Hp Hf Hlen. unfold handlePacket.
  rewrite (no_address_match_find st cp Hno), Hf. simpl.
  rewrite Hp. simpl. unfold filter_insert.
  rewrite rewrite_filters_fmap by lia. reflexivity.
Qed.

(** C4, as the code has it: when the first slot in slot order whose address
    equals the packet's is not INITIALISING and has another serial number,
    [handlePacket] sends exactly one frame, the packet with CONFLICT or-ed
    into its flags, and returns with the state (every slot, the filters and
    the status) as it was. *)
Theorem handlePacket_conflict (st : State) (cp : ControlPacket) (i : nat)
    (d : PktSerialDriver) :
  first_slot (fun d => address (device d) = cp_address cp) st i d ->
  serial_number (device d) <> cp_serial_number cp ->
  has_flag (flags (device d)) PKT_DEVICE_FLAGS_INITIALISING = false ->
  handlePacket st cp
  = Some (st, [BusSend
                 {| cp_address := cp_address cp;
                    cp_flags := N.lor (cp_flags cp) CONTROL_PKT_FLAGS_CONFLICT;
                    cp_serial_number := cp_serial_number cp;
                    cp_driver_class := cp_driver_class cp |}]).
Proof.
  intros (Hi & Hd & Ha & Hfirst) Hs Hing. unfold handlePacket.
  rewrite (find_slot_seq_first (address_matches cp) st _ 0 i d).
  - apply N.eqb_neq in Hs. rewrite Hs, Hing. reflexivity.
  - lia.
  - exact Hd.
  - unfold address_matches. now apply N.eqb_eq.
  - intros j dj Hj Hdj. unfold address_matches. apply N.eqb_neq.
    apply (Hfirst j dj); [lia|exact Hdj].
Qed.

(** Replaying a packet for an address [filterPacket] already reports, without
    BROADCAST, leaves the filter array (and the rest of the state) as it was. *)
Lemma handlePacket_replay_keeps_filters (st st' : State) (cp : ControlPacket)
    (evs : list Event) :
  no_address_match st cp ->
  filterPacket (address_filters st) (cp_address cp) = Some true ->
  has_flag (cp_flags cp) CONTROL_PKT_FLAGS_BROADCAST = false ->
  handlePacket st cp = Some (st', evs) ->
  st' = st.
Proof.
  intros Hno Hf Hb. unfold handlePacket.
  rewrite (no_address_match_find st cp Hno), Hf. simpl.
  rewrite andb_false_r, Hb.
  destruct (find_slot (remote_candidate cp) st _) as [[i d]|];
    now intros [= <- <-].
Qed.

End HandlePacket.

(** ** handlePacket on concrete tables *)

Lemma handlePacket_filtered_address_is_associated_witness :
  @filterPacket sample_constants (address_filters s6_filtered_state) 5 = Some true
  /\ @has_flag (cp_flags s6_second_packet)
       (@CONTROL_PKT_FLAGS_BROADCAST sample_constants) = false
  /\ @handlePacket sample_constants s6_filtered_state s6_second_packet
     = Some (s6_filtered_state,
             [DeviceConnected 1 (mk_device 5 0 0 0xDEADBEEF)]).
Proof.
  split; [reflexivity|]. split; [reflexivity|].
  apply (@handlePacket_filtered_address_is_associated sample_constants
           s6_filtered_state s6_second_packet 1
           {| device := mk_device 0 0 0x4000 0; driver_class := 7 |}).
  - intros i d Hi Hd. each_slot i Hd; vm_compute; discriminate.
  - reflexivity.
  - reflexivity.
  - split; [vm_compute; lia|]. split; [reflexivity|].
    split; [split; [reflexivity|split; [reflexivity|now left]]|].
    intros j dj Hj Hdj. each_slot j Hdj; try lia.
    intros (Hr & _). vm_compute in Hr. discriminate Hr.
Defined.

(** The PAIRED packet of S6 replayed: the address is filtered by now, and the
    packet is associated with the REMOTE slot. *)
Lemma paired_replay_is_associated :
  @handlePacket sample_constants s6_initial_state s6_first_packet
  = Some (s6_filtered_state, [])
  /\ @handlePacket sample_constants s6_filtered_state s6_first_packet
     = Some (s6_filtered_state,
             [DeviceConnected 1 (mk_device 5 0 0x02 0xDEADBEEF)]).
Proof. split; reflexivity. Qed.

Lemma handlePacket_remote_association_witness :
  @filterPacket sample_constants (address_filters s3_state) 7 = Some false
  /\ @has_flag (cp_flags s3_packet) (@CONTROL_PKT_FLAGS_PAIRED sample_constants)
     = false
  /\ @handlePacket sample_constants s3_state s3_packet
     = Some (s3_state, [DeviceConnected 1 (mk_device 7 0 0 0xDEADBEEF)]).
Proof.
  split; [reflexivity|]. split; [reflexivity|].
  apply (@handlePacket_remote_association sample_constants s3_state s3_packet 1
           {| device := mk_device 0 0 0x4000 0; driver_class := 7 |}).
  - intros i d Hi Hd. each_slot i Hd; vm_compute; discriminate.
  - reflexivity.
  - reflexivity.
  - split; [vm_compute; lia|]. split; [reflexivity|].
    split; [split; [reflexivity|split; [reflexivity|now left]]|].
    intros j dj Hj Hdj. each_slot j Hdj; try lia.
    intros (Hr & _). vm_compute in Hr. discriminate Hr.
Defined.

(** Scenario S3 on the code: the record handed to [deviceConnected] carries
    the packet's flags, here 0, so REMOTE is not among them. *)
Lemma remote_association_record_lacks_REMOTE :
  @handlePacket sample_constants s3_state s3_packet
  = Some (s3_state, [DeviceConnected 1 (mk_device 7 0 0 0xDEADBEEF)])
  /\ has_flag (flags (mk_device 7 0 0 0xDEADBEEF))
       (@PKT_DEVICE_FLAGS_REMOTE sample_constants) = false.
Proof. split; reflexivity. Qed.

Lemma handlePacket_paired_fills_every_empty_entry_witness :
  @has_flag (cp_flags s6_first_packet) (@CONTROL_PKT_FLAGS_PAIRED sample_constants)
  = true
  /\ @filterPacket sample_constants (address_filters s6_initial_state) 5
     = Some false
  /\ @handlePacket sample_constants s6_initial_state s6_first_packet
     = Some (set_address_filters s6_initial_state (replicate 20 5%N), []).
Proof.
  split; [reflexivity|]. split; [reflexivity|].
  apply (@handlePacket_paired_fills_every_empty_entry sample_constants
           s6_initial_state s6_first_packet).
  - intros i d Hi Hd. each_slot i Hd; vm_compute; discriminate.
  - reflexivity.
  - reflexivity.
  - reflexivity.
Defined.

Lemma handlePacket_conflict_witness :
  @handlePacket sample_constants s5_state s5_packet
  = Some (s5_state,
          [BusSend {| cp_address := 12; cp_flags := 0x01;
                      cp_serial_number := 0xBBBB; cp_driver_class := 1 |}]).
Proof.
  apply (@handlePacket_conflict sample_constants s5_state s5_packet 1
           {| device := mk_device 12 3 0x8080 0xAAAA; driver_class := 1 |}).
  - split; [vm_compute; lia|]. split; [reflexivity|]. split; [reflexivity|].
    intros j dj Hj Hdj. each_slot j Hdj; try lia. vm_compute. discriminate.
  - vm_compute. discriminate.
  - reflexivity.
Defined.

(** The table [shadowed_owner] arises from two fresh local drivers: both
    allocate on the first tick, a peer contests the first driver's candidate
    after 51 ticks, and the first driver then draws the address the second one
    is still announcing.  Its counter is not restarted, so 204 ticks later the
    second driver is INITIALISED and the first is one tick short of it. *)
Lemma shadowed_owner_reachable :
  outcome (@ticks sample_constants 51 two_fresh_locals [7; 12]%N)
  = Some (both_announcing, [])
  /\ @handlePacket sample_constants both_announcing conflict_on_7
     = Some (contested_state, [])
  /\ outcome (@ticks sample_constants 204 contested_state [12]%N)
     = Some (shadowed_owner, []).
Proof. split; [|split]; vm_compute; reflexivity. Qed.

(** Slot 2 owns address 12, is not INITIALISING and has another serial number
    than the packet, yet the scan stops at slot 1: nothing is sent, slot 1
    gets CP_SEEN and its [handleControlPacket] is invoked. *)
Lemma conflict_needs_first_match :
  (exists d, driver_at shadowed_owner 2 = Some d
             /\ address (device d) = cp_address packet_for_12
             /\ has_flag (flags (device d))
                  (@PKT_DEVICE_FLAGS_INITIALISING sample_constants) = false
             /\ serial_number (device d) <> cp_serial_number packet_for_12)
  /\ @handlePacket sample_constants shadowed_owner packet_for_12
     = Some (mk_state true
               [This; mk_peer 12 253 0x8060 0xAAAA 1;
                mk_peer 12 254 0x8080 0xBBBB 1]
               (replicate 20 0%N),
             [HandleControlPacket 1 packet_for_12]).
Proof.
  split; [|reflexivity].
  eexists. split; [reflexivity|]. split; [reflexivity|].
  split; [reflexivity|]. vm_compute. discriminate.
Qed.

(** ** start and stop *)

Section StartStop.
Context {C : Constants}.

Lemma has_flag_ldiff_lor_l (x a b : N) : has_flag (N.ldiff x (N.lor a b)) a = false.
Proof.
  unfold has_flag. apply negb_false_iff, N.eqb_eq, N.bits_inj. intros n.
  rewrite N.land_spec, N.ldiff_spec, N.lor_spec, N.bits_0.
  destruct (N.testbit x n), (N.testbit a n), (N.testbit b n); reflexivity.
Qed.

Lemma has_flag_ldiff_lor_r (x a b : N) : has_flag (N.ldiff x (N.lor a b)) b = false.
Proof. rewrite N.lor_comm. apply has_flag_ldiff_lor_l. Qed.

Lemma find_slot_set_status (p : PktSerialDriver -> bool) (st : State) (s : N)
    (ixs : list nat) :
  find_slot p (set_status st s) ixs = find_slot p st ixs.
Proof. induction ixs as [|i ixs IH]; simpl; [reflexivity|]. now rewrite IH. Qed.

Lemma set_driver_set_status (st : State) (s : N) (i : nat) (d : PktSerialDriver) :
  set_driver (set_status st s) i d = set_status (set_driver st i d) s.
Proof.
  unfold set_driver. simpl. destruct (drivers st !! i) as [[| |?]|]; reflexivity.
Qed.

(** [handlePacket] never reads [status]. *)
Lemma handlePacket_set_status (st : State) (s : N) (cp : ControlPacket) :
  handlePacket (set_status st s) cp
  = (fun '(st', evs) => (set_status st' s, evs)) <$> handlePacket st cp.
Proof.
  unfold handlePacket. rewrite find_slot_set_status.
  destruct (find_slot (address_matches cp) st _) as [[i d]|].
  - repeat match goal with |- context [if ?b then _ else _] => destruct b end;
      simpl; rewrite ?set_driver_set_status; reflexivity.
  - simpl. destruct (filterPacket (address_filters st) (cp_address cp)) as [b|];
      [|reflexivity].
    simpl. destruct (has_flag (cp_flags cp) CONTROL_PKT_FLAGS_PAIRED && negb b);
      [reflexivity|].
    destruct (b && has_flag (cp_flags cp) CONTROL_PKT_FLAGS_BROADCAST).
    + change (set_address_filters (set_status st s) ?f)
        with (set_status (set_address_filters st f) s).
      rewrite find_slot_set_status.
      destruct (find_slot _ _ _) as [[i d]|]; reflexivity.
    + rewrite find_slot_set_status.
      destruct (find_slot _ _ _) as [[i d]|]; reflexivity.
Qed.

Lemma pick_address_set_status (st : State) (s : N) (i : nat) (rs : list N) :
  pick_address (set_status st s) i rs = pick_address st i rs.
Proof.
  induction rs as [|r rs IH]; simpl; [reflexivity|].
  rewrite IH. reflexivity.
Qed.

Lemma tick_peer_set_status (st : State) (s : N) (i : nat) (d : PktSerialDriver)
    (rs : list N) :
  tick_peer (set_status st s) i d rs = tick_peer st i d rs.
Proof. unfold tick_peer. now rewrite pick_address_set_status. Qed.

Lemma tick_slots_set_status (ixs : list nat) (st : State) (s : N) (rs : list N) :
  tick_slots ixs (set_status st s) rs
  = (fun '(st', evs, rs') => (set_status st' s, evs, rs')) <$> tick_slots ixs st rs.
Proof.
  revert st rs. induction ixs as [|i ixs IH]; intros st rs; [reflexivity|].
  cbn [tick_slots]. change (drivers (set_status st s)) with (drivers st).
  destruct (drivers st !! i) as [[| |d]|]; try apply IH.
  rewrite tick_peer_set_status.
  destruct (tick_peer st i d rs) as [[[d' evs] rs']|]; [|reflexivity].
  cbn [mbind option_bind].
  change (set_drivers (set_status st s) (<[i:=Peer d']> (drivers st)))
    with (set_status (set_drivers st (<[i:=Peer d']> (drivers st))) s).
  rewrite IH.
  destruct (tick_slots ixs _ rs') as [[[st' evs'] rs'']|]; reflexivity.
Qed.

(** [periodicCallback] never reads [status] either: only the bus is asked. *)
Lemma periodicCallback_set_status (st : State) (s : N) (rs : list N) :
  periodicCallback (set_status st s) rs
  = (fun '(st', evs, rs') => (set_status st' s, evs, rs'))
      <$> periodicCallback st rs.
Proof.
  unfold periodicCallback. simpl. destruct (bus_running st); simpl.
  - apply tick_slots_set_status.
  - reflexivity.
Qed.

End StartStop.

(** ** A stopped driver *)

Section Stopped.
Context {C : Constants}.

Lemma handlePacket_status (st st' : State) (cp : ControlPacket) (evs : list Event) :
  handlePacket st cp = Some (st', evs) -> status st' = status st.
Proof.
  intros H.
  assert (Hs := handlePacket_set_status st (status st) cp).
  replace (set_status st (status st)) with st in Hs by now destruct st.
  rewrite H in Hs. simpl in Hs. injection Hs as Hs. rewrite Hs. reflexivity.
Qed.

Lemma periodicCallback_status (st st' : State) (rs rs' : list N) (evs : list Event) :
  periodicCallback st rs = Some (st', evs, rs') -> status st' = status st.
Proof.
  intros H.
  assert (Hs := periodicCallback_set_status st (status st) rs).
  replace (set_status st (status st)) with st in Hs by now destruct st.
  rewrite H in Hs. simpl in Hs. injection Hs as Hs. rewrite Hs. reflexivity.
Qed.

(** Bit by bit: [stop] clears the bits of the two masks and keeps every
    other bit of [status]; [start] sets the bits of the two masks and keeps
    every other bit. *)
Lemma stop_status_bits (st : State) (n : N) :
  N.testbit (status (stop st)) n
  = N.testbit (status st) n
    && negb (N.testbit (N.lor DEVICE_COMPONENT_RUNNING
                          DEVICE_COMPONENT_STATUS_SYSTEM_TICK) n).
Proof. unfold stop. simpl. apply N.ldiff_spec. Qed.

Lemma start_status_bits (st : State) (n : N) :
  N.testbit (status (start st)) n
  = N.testbit (status st) n
    || N.testbit (N.lor DEVICE_COMPONENT_RUNNING
                    DEVICE_COMPONENT_STATUS_SYSTEM_TICK) n.
Proof. unfold start. simpl. apply N.lor_spec. Qed.

(** C9, as the code has it.  [stop] clears the RUNNING and SYSTEM_TICK bits of
    [status] and touches nothing else: every other bit of [status] keeps its
    value, and so do the bus, the slots, the logic driver's record and the
    filter.  Neither [handlePacket] nor [periodicCallback] reads [status]: on
    a stopped driver each sends the same frames, invokes the same driver
    methods and makes the same changes to the slots and the filter as on a
    started one, and leaves the driver stopped.  Keeping a stopped driver
    quiet is left to whoever calls them. *)
Theorem stop_only_clears_status_bits (st : State) (cp : ControlPacket)
    (rs : list N) :
  has_flag (status (stop st)) DEVICE_COMPONENT_RUNNING = false
  /\ has_flag (status (stop st)) DEVICE_COMPONENT_STATUS_SYSTEM_TICK = false
  /\ (forall n,
        N.testbit (status (stop st)) n
        = N.testbit (status st) n
          && negb (N.testbit (N.lor DEVICE_COMPONENT_RUNNING
                                DEVICE_COMPONENT_STATUS_SYSTEM_TICK) n))
  /\ bus_running (stop st) = bus_running st
  /\ drivers (stop st) = drivers st
  /\ this_driver (stop st) = this_driver st
  /\ address_filters (stop st) = address_filters st
  /\ handlePacket (stop st) cp
     = (fun '(st', evs) => (stop st', evs)) <$> handlePacket st cp
  /\ periodicCallback (stop st) rs
     = (fun '(st', evs, rs') => (stop st', evs, rs')) <$> periodicCallback st rs.
Proof.
  split; [apply has_flag_ldiff_lor_l|]. split; [apply has_flag_ldiff_lor_r|].
  split; [apply stop_status_bits|].
  do 4 (split; [reflexivity|]). split.
  - unfold stop at 1. rewrite handlePacket_set_status.
    destruct (handlePacket st cp) as [[st' evs]|] eqn:H; [|reflexivity].
    simpl. unfold stop. now rewrite (handlePacket_status _ _ _ _ H).
  - unfold stop at 1. rewrite periodicCallback_set_status.
    destruct (periodicCallback st rs) as [[[st' evs] rs']|] eqn:H; [|reflexivity].
    simpl. unfold stop. now rewrite (periodicCallback_status _ _ _ _ _ H).
Qed.

End Stopped.

(** A stopped driver answers an address collision on the bus, and marks and
    notifies the owner of an address when its packet arrives. *)
Lemma stopped_driver_still_handles_packets :
  has_flag (status s5_stopped) (@DEVICE_COMPONENT_RUNNING sample_constants) = false
  /\ has_flag (status s5_stopped)
       (@DEVICE_COMPONENT_STATUS_SYSTEM_TICK sample_constants) = false
  /\ @handlePacket sample_constants s5_stopped s5_packet
     = Some (s5_stopped,
             [BusSend {| cp_address := 12; cp_flags := 0x01;
                         cp_serial_number := 0xBBBB; cp_driver_class := 1 |}])
  /\ @handlePacket sample_constants s5_stopped s5_own_packet
     = Some (mk_state true [This; mk_peer 12 3 0x80A0 0xAAAA 1]
               (replicate 20 0%N),
             [HandleControlPacket 1 s5_own_packet]).
Proof. repeat split. Qed.

(** ** Bus stopped *)

Section BusStopped.
Context {C : Constants}.

Lemma periodicCallback_bus_stopped (st : State) (rs : list N) :
  bus_running st = false -> periodicCallback st rs = Some (st, [], rs).
Proof. intros H. unfold periodicCallback. now rewrite H. Qed.

(** C8: while the bus reports that it is not running, any number of
    consecutive ticks leaves the whole state (so every slot's flags, counter
    and address) as it was, consumes no random draw, and produces no event in
    any of the ticks: nothing is transmitted and no driver method is
    invoked. *)
Theorem ticks_bus_stopped (n : nat) (st : State) (rs : list N) :
  bus_running st = false ->
  ticks n st rs = Some (st, replicate n [], rs).
Proof.
  intros H. induction n as [|n IH]; simpl.
  - reflexivity.
  - rewrite (periodicCallback_bus_stopped st rs H). simpl.
    rewrite IH. reflexivity.
Qed.

End BusStopped.

Lemma ticks_bus_stopped_witness :
  let st := mk_state false
              [This; mk_peer 0 0 0x8000 0xAAAA 7; mk_peer 9 3 0x4080 0xBBBB 7]
              (replicate 20 0%N) in
  bus_running st = false
  /\ @ticks sample_constants 5 st [1; 2; 3]%N
     = Some (st, replicate 5 [], [1; 2; 3]%N).
Proof.
  split; [reflexivity|].
  apply (@ticks_bus_stopped sample_constants 5); reflexivity.
Defined.

(** ** The loop of periodicCallback *)

Section TickLoop.
Context {C : Constants}.

Lemma tick_peer_events (st : State) (i : nat) (d d' : PktSerialDriver)
    (rs rs' : list N) (evs : list Event) :
  tick_peer st i d rs = Some (d', evs, rs') ->
  Forall (fun e => event_slot e = Some i) evs.
Proof.
  unfold tick_peer.
  repeat match goal with
         | |- context [if ?b then _ else _] => destruct b
         | |- context [pick_address ?s ?k ?r] => destruct (pick_address s k r) as [[? ?]|]
         end; simpl; intros [= <- <- <-] || discriminate;
    repeat constructor.
Qed.

Lemma tick_slots_app (l1 l2 : list nat) (st : State) (rs : list N) :
  tick_slots (l1 ++ l2) st rs
  = '(st1, e1, r1) ← tick_slots l1 st rs;
    '(st2, e2, r2) ← tick_slots l2 st1 r1;
    Some (st2, e1 ++ e2, r2).
Proof.
  revert st rs. induction l1 as [|i l1 IH]; intros st rs; simpl.
  - destruct (tick_slots l2 st rs) as [[[? ?] ?]|]; reflexivity.
  - destruct (drivers st !! i) as [[| |d]|]; try apply IH.
    destruct (tick_peer st i d rs) as [[[d' evs] rs']|]; [|reflexivity].
    simpl. rewrite IH.
    destruct (tick_slots l1 _ rs') as [[[st1 e1] r1]|]; [|reflexivity].
    simpl. destruct (tick_slots l2 st1 r1) as [[[st2 e2] r2]|]; [|reflexivity].
    simpl. now rewrite app_assoc.
Qed.

(** What the loop leaves alone: the bus, the logic driver's own fields, the
    kind of every slot, and every slot that is not visited. *)
Lemma tick_slots_frame (ixs : list nat) (st st' : State) (rs rs' : list N)
    (evs : list Event) :
  tick_slots ixs st rs = Some (st', evs, rs') ->
  bus_running st' = bus_running st
  /\ this_driver st' = this_driver st
  /\ status st' = status st
  /\ address_filters st' = address_filters st
  /\ (forall k, k ∉ ixs -> drivers st' !! k = drivers st !! k)
  /\ (forall k, match drivers st !! k with
                | Some (Peer _) => exists d', drivers st' !! k = Some (Peer d')
                | o => drivers st' !! k = o
                end)
  /\ Forall (fun e => exists k, k ∈ ixs /\ event_slot e = Some k) evs.
Proof.
  revert st rs evs. induction ixs as [|i ixs IH]; intros st rs evs; simpl.
  - intros [= <- <- <-]. repeat split; try constructor.
    intros k. destruct (drivers st !! k) as [[| |d]|]; eauto.
  - assert (Hskip : tick_slots ixs st rs = Some (st', evs, rs') ->
        bus_running st' = bus_running st
        /\ this_driver st' = this_driver st
        /\ status st' = status st
        /\ address_filters st' = address_filters st
        /\ (forall k, k ∉ i :: ixs -> drivers st' !! k = drivers st !! k)
        /\ (forall k, match drivers st !! k with
                      | Some (Peer _) => exists d', drivers st' !! k = Some (Peer d')
                      | o => drivers st' !! k = o
                      end)
        /\ Forall (fun e => exists k, k ∈ i :: ixs /\ event_slot e = Some k) evs).
    { intros H. apply IH in H as (? & ? & ? & ? & Hk & Hkind & Hev).
      repeat split; try assumption.
      - intros k Hnot. apply Hk. intros Hin. apply Hnot. now right.
      - eapply Forall_impl; [exact Hev|]. intros e (k & Hin & He).
        exists k. split; [now right|exact He]. }
    destruct (drivers st !! i) as [[| |d]|] eqn:Hi; try exact Hskip.
    clear Hskip.
    destruct (tick_peer st i d rs) as [[[d' e1] r1]|] eqn:Hp; [|discriminate].
    simpl.
    destruct (tick_slots ixs _ r1) as [[[st2 e2] r2]|] eqn:Hrest; [|discriminate].
    simpl. intros [= <- <- <-].
    apply IH in Hrest as (? & ? & ? & ? & Hk & Hkind & Hev).
    simpl in *. repeat split; try assumption.
    + intros k Hnot. rewrite Hk by (intros Hin; apply Hnot; now right).
      apply list_lookup_insert_ne. intros ->. apply Hnot. left.
    + intros k. specialize (Hkind k). destruct (decide (k = i)) as [->|Hne].
      * rewrite Hi. rewrite list_lookup_insert_eq in Hkind
          by (eapply lookup_lt_Some; exact Hi).
        exact Hkind.
      * rewrite list_lookup_insert_ne in Hkind by congruence. exact Hkind.
    + apply Forall_app. split.
      * eapply Forall_impl; [exact (tick_peer_events _ _ _ _ _ _ _ Hp)|].
        intros e He. exists i. split; [left|exact He].
      * eapply Forall_impl; [exact Hev|]. intros e (k & Hin & He).
        exists k. split; [now right|exact He].
Qed.

(** The loop seen from slot [i]: the slots before it are processed, then the
    body runs on the driver the slot held at the start of the tick, and the
    slots after it leave the result in place.  Events of the other slots are
    calls on other drivers. *)
Lemma tick_slots_at (n i : nat) (st st' : State) (rs rs' : list N)
    (evs : list Event) (d : PktSerialDriver) :
  i < n ->
  drivers st !! i = Some (Peer d) ->
  tick_slots (seq 0 n) st rs = Some (st', evs, rs') ->
  exists st_i e_pre r_i d' e_i r_i' e_post,
    tick_slots (seq 0 i) st rs = Some (st_i, e_pre, r_i)
    /\ tick_peer st_i i d r_i = Some (d', e_i, r_i')
    /\ drivers st' !! i = Some (Peer d')
    /\ evs = e_pre ++ e_i ++ e_post
    /\ Forall (fun e => event_slot e <> Some i) e_pre
    /\ Forall (fun e => event_slot e <> Some i) e_post.
Proof.
  intros Hi Hd Hrun.
  replace n with (i + S (n - S i)) in Hrun by lia.
  rewrite seq_app, tick_slots_app in Hrun. simpl in Hrun.
  destruct (tick_slots (seq 0 i) st rs) as [[[st_i e_pre] r_i]|] eqn:Hpre;
    [|discriminate].
  simpl in Hrun.
  destruct (tick_slots_frame _ _ _ _ _ _ Hpre) as (_ & _ & _ & _ & Hk & _ & Hev).
  assert (Hdi : drivers st_i !! i = Some (Peer d)).
  { rewrite Hk; [exact Hd|]. intros Hin. apply elem_of_seq in Hin. lia. }
  rewrite Hdi in Hrun.
  destruct (tick_peer st_i i d r_i) as [[[d' e_i] r_i']|] eqn:Hp; [|discriminate].
  simpl in Hrun.
  destruct (tick_slots (seq (S i) (n - S i)) _ r_i') as [[[st2 e_post] r2]|]
    eqn:Hpost; [|discriminate].
  simpl in Hrun. injection Hrun as <- <- <-.
  destruct (tick_slots_frame _ _ _ _ _ _ Hpost) as (_ & _ & _ & _ & Hk2 & _ & Hev2).
  exists st_i, e_pre, r_i, d', e_i, r_i', e_post.
  split; [reflexivity|]. split; [exact Hp|]. split.
  { rewrite Hk2 by (intros Hin; apply elem_of_seq in Hin; lia).
    simpl. apply list_lookup_insert_eq. eapply lookup_lt_Some. exact Hdi. }
  split; [reflexivity|]. split.
  - eapply Forall_impl; [exact Hev|]. intros e (k & Hin & He) Hc.
    apply elem_of_seq in Hin. rewrite He in Hc. injection Hc as ->. lia.
  - eapply Forall_impl; [exact Hev2|]. intros e (k & Hin & He) Hc.
    apply elem_of_seq in Hin. rewrite He in Hc. injection Hc as ->. lia.
Qed.

Lemma count_events_app (p : Event -> bool) (l1 l2 : list Event) :
  count_events p (l1 ++ l2) = count_events p l1 + count_events p l2.
Proof. induction l1 as [|e l1 IH]; simpl; [reflexivity|]. rewrite IH. lia. Qed.

Lemma count_events_other_slots (p : Event -> bool) (i : nat) (evs : list Event) :
  (forall e, p e = true -> event_slot e = Some i) ->
  Forall (fun e => event_slot e <> Some i) evs ->
  count_events p evs = 0.
Proof.
  intros Hp. induction 1 as [|e evs He _ IH]; simpl; [reflexivity|].
  rewrite IH. destruct (p e) eqn:Hpe; [|reflexivity].
  exfalso. apply He. now apply Hp.
Qed.


Lemma is_device_removed_slot (i : nat) (e : Event) :
  is_device_removed i e = true -> event_slot e = Some i.
Proof.
  destruct e; simpl; try discriminate. intros H.
  apply Nat.eqb_eq in H. now subst.
Qed.

(** The inner loop in words. *)
Lemma still_allocated_true (st : State) (i : nat) (a : N) :
  still_allocated st i a = true <->
  exists j dj, j < PKT_PROTOCOL_DRIVER_SIZE /\ j <> i
               /\ driver_at st j = Some dj /\ initialised dj
               /\ address (device dj) = a.
Proof.
  unfold still_allocated, initialised. rewrite existsb_exists. split.
  - intros (j & Hin & Hj). apply in_seq in Hin.
    destruct (Nat.eqb_spec i j) as [->|Hne]; [discriminate|].
    destruct (driver_at st j) as [dj|] eqn:Hdj; [|discriminate].
    apply andb_true_iff in Hj as [Hf Ha]. apply N.eqb_eq in Ha.
    exists j, dj. repeat split; try assumption; try lia; try congruence.
  - intros (j & dj & Hj & Hne & Hdj & Hf & Ha). exists j. split.
    + apply in_seq. lia.
    + destruct (Nat.eqb_spec i j) as [->|_]; [congruence|].
      rewrite Hdj, Hf. simpl. now apply N.eqb_eq.
Qed.

Lemma still_allocated_false (st : State) (i : nat) (a : N) :
  still_allocated st i a = false <->
  forall j dj, j < PKT_PROTOCOL_DRIVER_SIZE -> j <> i ->
               driver_at st j = Some dj -> initialised dj ->
               address (device dj) <> a.
Proof.
  rewrite <- not_true_iff_false, still_allocated_true. split.
  - intros H j dj Hj Hne Hdj Hf Ha. apply H. exists j, dj. now repeat split.
  - intros H (j & dj & Hj & Hne & Hdj & Hf & Ha). now apply (H j dj).
Qed.

(** The [while] loop: it consumes draws as long as they are taken and returns
    the first free one. *)
Lemma pick_address_Some (st : State) (i : nat) (rs rs' : list N) (a : N) :
  pick_address st i rs = Some (a, rs') <->
  exists pre r, rs = pre ++ r :: rs'
                /\ Forall (fun x => still_allocated st i (x mod 256)%N = true) pre
                /\ still_allocated st i (r mod 256)%N = false
                /\ a = (r mod 256)%N.
Proof.
  revert rs' a. induction rs as [|x rs IH]; intros rs' a; simpl.
  - split; [discriminate|]. intros (pre & r & H & _). now destruct pre.
  - destruct (still_allocated st i (x mod 256)%N) eqn:Hx.
    + rewrite IH. split.
      * intros (pre & r & -> & Hpre & Hr & ->).
        exists (x :: pre), r. repeat split; try assumption.
        now constructor.
      * intros (pre & r & Heq & Hpre & Hr & ->).
        destruct pre as [|y pre]; simpl in Heq; injection Heq as -> ->.
        -- congruence.
        -- exists pre, r. inversion Hpre; subst. now repeat split.
    + split.
      * intros [= <- <-]. exists [], x. now repeat split.
      * intros (pre & r & Heq & Hpre & Hr & ->).
        destruct pre as [|y pre]; simpl in Heq; injection Heq as -> ->.
        -- reflexivity.
        -- inversion Hpre; subst. congruence.
Qed.

End TickLoop.

(** ** The loop body, case by case *)

Section TickPeer.
Context {C : Constants}.

Lemma bump_counter_address (dev : PktDevice) :
  address (bump_counter dev) = address dev.
Proof. unfold bump_counter. now destruct (has_flag _ _). Qed.

Lemma bump_counter_flags (dev : PktDevice) :
  flags (bump_counter dev) = flags dev.
Proof. unfold bump_counter. now destruct (has_flag _ _). Qed.

Lemma bump_counter_serial (dev : PktDevice) :
  serial_number (bump_counter dev) = serial_number dev.
Proof. unfold bump_counter. now destruct (has_flag _ _). Qed.

(** The four outcomes of the body: the REMOTE timeout check, an allocation,
    the end of the silence window, or nothing but the counter. *)
Lemma tick_peer_cases (st : State) (i : nat) (d d' : PktSerialDriver)
    (rs rs' : list N) (evs : list Event) :
  tick_peer st i d rs = Some (d', evs, rs') ->
  let dev := bump_counter (device d) in
  (has_flag (flags dev) PKT_DEVICE_FLAGS_REMOTE = true
   /\ rolling_counter dev = PKT_LOGIC_DRIVER_TIMEOUT
   /\ d' = set_device d
             (set_flags dev (N.ldiff (flags dev) PKT_DEVICE_FLAGS_CP_SEEN))
   /\ evs = (if has_flag (flags dev) PKT_DEVICE_FLAGS_CP_SEEN then []
             else [DeviceRemoved i])
   /\ rs' = rs)
  \/ (has_flag (flags dev)
        (N.lor PKT_DEVICE_FLAGS_INITIALISED PKT_DEVICE_FLAGS_INITIALISING) = false
      /\ exists a, pick_address st i rs = Some (a, rs')
                   /\ d' = set_device d
                             (set_flags (set_address dev a)
                                (N.lor (flags dev) PKT_DEVICE_FLAGS_INITIALISING))
                   /\ evs = [QueueControlPacket i])
  \/ (has_flag (flags dev) PKT_DEVICE_FLAGS_INITIALISING = true
      /\ d' = set_device d
                (set_flags dev
                   (N.lor (N.ldiff (flags dev) PKT_DEVICE_FLAGS_INITIALISING)
                      PKT_DEVICE_FLAGS_INITIALISED))
      /\ rs' = rs)
  \/ (d' = set_device d dev /\ rs' = rs
      /\ has_flag (flags dev) PKT_DEVICE_FLAGS_REMOTE
         && (rolling_counter dev =? PKT_LOGIC_DRIVER_TIMEOUT)%N = false
      /\ forall e, e ∈ evs -> e = QueueControlPacket i).
Proof.
  intros H dev. unfold tick_peer in H.
  change (bump_counter (device d)) with dev in H.
  destruct (has_flag (flags dev) PKT_DEVICE_FLAGS_REMOTE
            && (rolling_counter dev =? PKT_LOGIC_DRIVER_TIMEOUT)%N) eqn:Hr.
  { apply andb_true_iff in Hr as [Hr Ht]. apply N.eqb_eq in Ht.
    injection H as <- <- <-. left. now repeat split. }
  right.
  assert (Hidle : forall evs0, evs = evs0 ->
            (forall e, e ∈ evs0 -> e = QueueControlPacket i) ->
            d' = set_device d dev -> rs' = rs ->
            d' = set_device d dev /\ rs' = rs /\ false = false
            /\ forall e, e ∈ evs -> e = QueueControlPacket i).
  { intros evs0 -> He -> ->. repeat split. exact He. }
  destruct (has_flag (flags dev) PKT_DEVICE_FLAGS_LOCAL).
  2:{ injection H as <- <- <-. right. right. eapply Hidle; eauto.
      intros e He. inversion He. }
  destruct (has_flag (flags dev) (N.lor _ _)) eqn:Hc; simpl in H.
  2:{ left. split; [reflexivity|].
      destruct (pick_address st i rs) as [[a r]|]; [|discriminate].
      simpl in H. injection H as <- <- <-. exists a. now repeat split. }
  right.
  destruct (has_flag (flags dev) PKT_DEVICE_FLAGS_INITIALISING) eqn:Hing.
  - destruct (rolling_counter dev =? PKT_LOGIC_ADDRESS_ALLOC_TIME)%N.
    + injection H as <- <- <-. left. now repeat split.
    + injection H as <- <- <-. right. eapply Hidle; eauto.
      intros e He. inversion He.
  - right.
    destruct (has_flag (flags dev) PKT_DEVICE_FLAGS_INITIALISED).
    + injection H as <- <- <-. eapply Hidle; eauto.
      intros e He.
      match type of He with context [if ?b then _ else _] => destruct b end;
        [|inversion He].
      apply list_elem_of_singleton in He. exact He.
    + injection H as <- <- <-. eapply Hidle; eauto.
      intros e He. inversion He.
Qed.

End TickPeer.

(** ** Ticks that return *)

Section Returns.
Context {C : Constants}.

Lemma tick_peer_settled (st : State) (i : nat) (d : PktSerialDriver) (rs : list N) :
  device_flags_wf ->
  settled d ->
  exists d' evs, tick_peer st i d rs = Some (d', evs, rs) /\ settled d'.
Proof.
  intros Hwf Hs. unfold tick_peer, settled, claimed in *. cbv zeta.
  rewrite !bump_counter_flags.
  destruct (has_flag (flags (device d)) PKT_DEVICE_FLAGS_REMOTE
            && (_ =? PKT_LOGIC_DRIVER_TIMEOUT)%N).
  { eexists _, _. split; [reflexivity|]. simpl.
    destruct Hs as [Hl|Hc].
    - left. apply not_true_is_false. intros H.
      apply has_flag_ldiff_mono in H. congruence.
    - right. rewrite has_flag_ldiff_disjoint; [exact Hc|].
      rewrite N.land_lor_distr_r, (wf_cp_seen_initialised Hwf),
        (wf_cp_seen_initialising Hwf). reflexivity. }
  assert (Hsame : forall evs : list Event,
            exists d' evs', Some (set_device d (bump_counter (device d)), evs, rs)
                            = Some (d', evs', rs)
                            /\ (has_flag (flags (device d')) PKT_DEVICE_FLAGS_LOCAL = false
                                \/ has_flag (flags (device d'))
                                     (N.lor PKT_DEVICE_FLAGS_INITIALISED
                                        PKT_DEVICE_FLAGS_INITIALISING) = true)).
  { intros evs. eexists _, _. split; [reflexivity|]. simpl.
    now rewrite bump_counter_flags. }
  destruct (has_flag (flags (device d)) PKT_DEVICE_FLAGS_LOCAL) eqn:Hl;
    [|apply Hsame].
  destruct Hs as [Hs|Hc]; [discriminate|]. rewrite Hc. simpl.
  destruct (has_flag (flags (device d)) PKT_DEVICE_FLAGS_INITIALISING).
  - destruct (_ =? PKT_LOGIC_ADDRESS_ALLOC_TIME)%N; [|apply Hsame].
    eexists _, _. split; [reflexivity|]. right. simpl.
    rewrite has_flag_mask_lor, has_flag_lor,
      (has_flag_self _ (wf_initialised Hwf)), orb_true_r. reflexivity.
  - destruct (has_flag (flags (device d)) PKT_DEVICE_FLAGS_INITIALISED);
      apply Hsame.
Qed.

Lemma tick_slots_settled (ixs : list nat) (st : State) (rs : list N) :
  device_flags_wf ->
  (forall k d, drivers st !! k = Some (Peer d) -> settled d) ->
  exists st' evs,
    tick_slots ixs st rs = Some (st', evs, rs)
    /\ (forall k d, drivers st' !! k = Some (Peer d) -> settled d).
Proof.
  intros Hwf. revert st. induction ixs as [|i ixs IH]; intros st Hs; simpl.
  - eauto.
  - destruct (drivers st !! i) as [[| |d]|] eqn:Hi; try (apply IH; exact Hs).
    destruct (tick_peer_settled st i d rs Hwf (Hs i d Hi)) as (d' & e1 & Hp & Hs').
    rewrite Hp. simpl.
    destruct (IH (set_drivers st (<[i:=Peer d']> (drivers st)))) as (st' & e2 & Hrun & Hs2).
    { intros k dk. simpl. destruct (decide (k = i)) as [->|Hne].
      - rewrite list_lookup_insert_eq by (eapply lookup_lt_Some; exact Hi).
        now intros [= <-].
      - rewrite list_lookup_insert_ne by congruence. apply Hs. }
    rewrite Hrun. simpl. eauto.
Qed.

(** A table in which no driver is waiting for an address needs no draw: any
    number of ticks returns, with the random source untouched. *)
Lemma ticks_return_when_settled (n : nat) (st : State) (rs : list N) :
  device_flags_wf ->
  (forall k d, drivers st !! k = Some (Peer d) -> settled d) ->
  exists st' tr, ticks n st rs = Some (st', tr, rs).
Proof.
  intros Hwf. revert st. induction n as [|n IH]; intros st Hs; simpl.
  - eauto.
  - assert (Hstep : exists st1 evs,
               periodicCallback st rs = Some (st1, evs, rs)
               /\ (forall k d, drivers st1 !! k = Some (Peer d) -> settled d)).
    { unfold periodicCallback. destruct (bus_running st); simpl.
      - now apply tick_slots_settled.
      - eauto. }
    destruct Hstep as (st1 & evs & Hstep & Hs1). rewrite Hstep. simpl.
    destruct (IH st1 Hs1) as (st' & tr & Hrun). rewrite Hrun. simpl. eauto.
Qed.

Lemma tick_peer_fresh (st : State) (i : nat) (d : PktSerialDriver) (rs : list N) :
  fresh_draws st rs ->
  rs <> [] ->
  exists d' evs rs',
    tick_peer st i d rs = Some (d', evs, rs')
    /\ ((rs' = rs /\ address (device d') = address (device d))
        \/ exists r, rs = r :: rs' /\ address (device d') = (r mod 256)%N).
Proof.
  intros [_ Hfresh] Hne. unfold tick_peer. cbv zeta.
  assert (Hsame : forall (dev : PktDevice) (evs : list Event),
            address dev = address (device d) ->
            exists d' evs' rs',
              Some (set_device d dev, evs, rs) = Some (d', evs', rs')
              /\ ((rs' = rs /\ address (device d') = address (device d))
                  \/ exists r, rs = r :: rs'
                               /\ address (device d') = (r mod 256)%N)).
  { intros dev evs Ha. eexists _, _, _. split; [reflexivity|]. left.
    split; [reflexivity|exact Ha]. }
  destruct (_ && _); [apply Hsame, bump_counter_address|].
  destruct (has_flag _ PKT_DEVICE_FLAGS_LOCAL);
    [|apply Hsame, bump_counter_address].
  destruct (negb _).
  - destruct rs as [|r rs0]; [congruence|]. simpl.
    assert (Hfree : still_allocated st i (r mod 256)%N = false).
    { apply still_allocated_false. intros j dj _ _ Hdj _.
      apply (Hfresh r j dj); [left|exact Hdj]. }
    rewrite Hfree. simpl. eexists _, _, _. split; [reflexivity|].
    right. exists r. split; reflexivity.
  - destruct (has_flag _ PKT_DEVICE_FLAGS_INITIALISING).
    + destruct (_ =? _)%N; apply Hsame, bump_counter_address.
    + destruct (has_flag _ _); apply Hsame, bump_counter_address.
Qed.

Lemma tick_slots_fresh (ixs : list nat) (st : State) (rs : list N) :
  fresh_draws st rs ->
  length ixs <= length rs ->
  exists st' evs rs', tick_slots ixs st rs = Some (st', evs, rs').
Proof.
  revert st rs. induction ixs as [|i ixs IH]; intros st rs Hf Hlen; simpl.
  - eauto.
  - simpl in Hlen.
    destruct (drivers st !! i) as [[| |d]|] eqn:Hi;
      try (apply IH; [exact Hf|lia]).
    destruct (tick_peer_fresh st i d rs Hf) as (d' & e1 & rs' & Hp & Hcase).
    { intros ->. simpl in Hlen. lia. }
    rewrite Hp. simpl.
    assert (Hd : driver_at st i = Some d) by (unfold driver_at; now rewrite Hi).
    destruct (IH (set_drivers st (<[i:=Peer d']> (drivers st))) rs')
      as (st' & e2 & rs'' & Hrun).
    + destruct Hf as [Hnd Hfresh]. split.
      * destruct Hcase as [[-> _]|(r & -> & _)]; [exact Hnd|].
        rewrite fmap_cons in Hnd. now apply NoDup_cons in Hnd as [_ Hnd].
      * intros r' j dj Hr' Hdj.
        assert (Hin : r' ∈ rs).
        { destruct Hcase as [[-> _]|(r & -> & _)]; [exact Hr'|now right]. }
        unfold driver_at in Hdj. simpl in Hdj.
        destruct (decide (j = i)) as [->|Hne].
        -- rewrite list_lookup_insert_eq in Hdj
             by (eapply lookup_lt_Some; exact Hi).
           injection Hdj as <-.
           destruct Hcase as [[-> Ha]|(r & -> & Ha)]; rewrite Ha.
           ++ now apply (Hfresh r' i d).
           ++ rewrite fmap_cons in Hnd. apply NoDup_cons in Hnd as [Hnot _].
              intros Heq. apply Hnot. rewrite Heq.
              apply list_elem_of_fmap. now exists r'.
        -- rewrite list_lookup_insert_ne in Hdj by congruence.
           now apply (Hfresh r' j dj).
    + destruct Hcase as [[-> _]|(r & -> & _)]; simpl in *; lia.
    + rewrite Hrun. simpl. eauto.
Qed.

(** A tick returns when the random source holds, for each slot of the table,
    a draw whose candidate is nobody's address and differs from the other
    candidates: each allocation then ends at its first draw. *)
Lemma periodicCallback_returns (st : State) (rs : list N) :
  fresh_draws st rs ->
  PKT_PROTOCOL_DRIVER_SIZE <= length rs ->
  exists st' evs rs', periodicCallback st rs = Some (st', evs, rs').
Proof.
  intros Hf Hlen. unfold periodicCallback. destruct (bus_running st); simpl.
  - apply tick_slots_fresh; [exact Hf|]. now rewrite length_seq.
  - eauto.
Qed.

End Returns.

(** ** Address allocation *)

Section Allocation.
Context {C : Constants}.

Lemma tick_peer_allocates (st : State) (i : nat) (d : PktSerialDriver)
    (rs : list N) :
  has_flag (flags (device d)) PKT_DEVICE_FLAGS_LOCAL = true ->
  has_flag (flags (device d))
    (N.lor PKT_DEVICE_FLAGS_INITIALISED PKT_DEVICE_FLAGS_INITIALISING) = false ->
  has_flag (flags (device d)) PKT_DEVICE_FLAGS_REMOTE
  && (rolling_counter (device d) =? PKT_LOGIC_DRIVER_TIMEOUT)%N = false ->
  tick_peer st i d rs
  = '(a, rs') ← pick_address st i rs;
    Some (set_device d
            {| address := a;
               rolling_counter := rolling_counter (device d);
               flags := N.lor (flags (device d)) PKT_DEVICE_FLAGS_INITIALISING;
               serial_number := serial_number (device d) |},
          [QueueControlPacket i], rs').
Proof.
  intros Hl Hc Hr. unfold tick_peer, bump_counter.
  rewrite Hc, Hr, Hl, Hc. reflexivity.
Qed.



End Allocation.



(** ** The address invariant *)

Section AddressInvariant.
Context {C : Constants}.

Lemma initialised_claimed (d : PktSerialDriver) : initialised d -> claimed d.
Proof.
  unfold initialised, claimed. intros H. rewrite has_flag_mask_lor, H. reflexivity.
Qed.

Lemma driver_at_set_driver (st : State) (i k : nat) (d d2 dk' : PktSerialDriver) :
  driver_at st i = Some d ->
  driver_at (set_driver st i d2) k = Some dk' ->
  driver_at st k = Some dk' \/ (driver_at st k = Some d /\ dk' = d2).
Proof.
  unfold set_driver, driver_at.
  destruct (drivers st !! i) as [[| |p]|] eqn:Hi; try discriminate.
  - intros [= <-]. simpl.
    destruct (drivers st !! k) as [[| |q]|]; try discriminate.
    + intros [= <-]. now right.
    + intros H. now left.
  - intros [= <-]. simpl. destruct (decide (k = i)) as [->|Hne].
    + rewrite list_lookup_insert_eq by (eapply lookup_lt_Some; exact Hi).
      intros [= <-]. right. now rewrite Hi.
    + rewrite list_lookup_insert_ne by congruence. intros H. now left.
Qed.

(** [handlePacket] changes no address and sets INITIALISED on no driver. *)
Lemma handlePacket_slots (st st' : State) (cp : ControlPacket)
    (evs : list Event) (k : nat) (dk' : PktSerialDriver) :
  device_flags_wf ->
  handlePacket st cp = Some (st', evs) ->
  driver_at st' k = Some dk' ->
  exists dk, driver_at st k = Some dk
             /\ address (device dk') = address (device dk)
             /\ (initialised dk' -> initialised dk).
Proof.
  intros Hwf. unfold handlePacket.
  destruct (find_slot (address_matches cp) st _) as [[i d]|] eqn:Hfind.
  - apply find_slot_Some in Hfind as (_ & Hd & _).
    destruct (_ && _).
    { intros [= <- <-] Hk. exists dk'. now repeat split. }
    destruct (_ && _).
    + intros [= <- <-] Hk.
      destruct (driver_at_set_driver _ _ _ _ _ _ Hd Hk) as [Hold|[Hold ->]].
      * exists dk'. now repeat split.
      * exists d. split; [exact Hold|]. split; [reflexivity|].
        unfold initialised. simpl. apply has_flag_ldiff_mono.
    + intros [= <- <-] Hk.
      destruct (driver_at_set_driver _ _ _ _ _ _ Hd Hk) as [Hold|[Hold ->]].
      * exists dk'. now repeat split.
      * exists d. split; [exact Hold|]. split; [reflexivity|].
        unfold initialised. simpl. rewrite has_flag_lor.
        rewrite (proj2 (has_flag_false _ _) (wf_cp_seen_initialised Hwf)).
        now rewrite orb_false_r.
  - destruct (filterPacket _ _) as [b|]; [|discriminate]. simpl.
    destruct (_ && negb b).
    { intros [= <- <-] Hk. exists dk'. now repeat split. }
    clear Hfind.
    destruct (b && _); cbv zeta; rewrite ?find_slot_set_address_filters;
      destruct (find_slot (remote_candidate cp) _ _) as [[j dj]|];
      intros [= <- <-] Hk; exists dk'; now repeat split.
Qed.

(** A driver found INITIALISED after a tick held or announced the same
    address before it. *)
Lemma periodicCallback_slots (st st' : State) (rs rs' : list N)
    (evs : list Event) (k : nat) (dk' : PktSerialDriver) :
  device_flags_wf ->
  periodicCallback st rs = Some (st', evs, rs') ->
  driver_at st' k = Some dk' ->
  initialised dk' ->
  exists dk, driver_at st k = Some dk
             /\ address (device dk') = address (device dk)
             /\ claimed dk.
Proof.
  intros Hwf. unfold periodicCallback. destruct (bus_running st); simpl.
  2:{ intros [= <- <- <-] Hk Hi. exists dk'. split; [exact Hk|].
      split; [reflexivity|now apply initialised_claimed]. }
  intros Hrun Hk Hinit.
  destruct (tick_slots_frame _ _ _ _ _ _ Hrun) as (_ & Hthis & _ & _ & Hout & Hkind & _).
  unfold driver_at in Hk |- *. specialize (Hkind k).
  destruct (drivers st !! k) as [[| |d]|] eqn:Hsk.
  - rewrite Hkind in Hk. discriminate.
  - rewrite Hkind in Hk. injection Hk as <-. exists (this_driver st).
    rewrite Hthis in *. split; [reflexivity|]. split; [reflexivity|].
    now apply initialised_claimed.
  - destruct (decide (k < PKT_PROTOCOL_DRIVER_SIZE)) as [Hlt|Hge].
    2:{ rewrite Hout, Hsk in Hk by (intros Hin; apply elem_of_seq in Hin; lia).
        injection Hk as <-. exists d. split; [reflexivity|].
        split; [reflexivity|now apply initialised_claimed]. }
    destruct (tick_slots_at _ _ _ _ _ _ _ _ Hlt Hsk Hrun)
      as (st_k & _ & r_k & d' & e_k & r_k' & _ & _ & Hp & Hd' & _).
    rewrite Hd' in Hk. injection Hk as <-.
    exists d. split; [reflexivity|].
    unfold initialised, claimed in *.
    apply tick_peer_cases in Hp.
    rewrite bump_counter_flags, ?bump_counter_address in Hp.
    destruct Hp as [(_ & _ & -> & _)|[(Hc & a & _ & -> & _)|[(Hing & -> & _)|(-> & _)]]];
      simpl in *; rewrite ?bump_counter_address.
    + split; [reflexivity|]. rewrite ?bump_counter_flags in Hinit.
      apply has_flag_ldiff_mono in Hinit.
      rewrite has_flag_mask_lor, Hinit. reflexivity.
    + exfalso. rewrite has_flag_mask_lor in Hc.
      apply orb_false_iff in Hc as [Hc _].
      rewrite has_flag_lor, Hc in Hinit. simpl in Hinit.
      apply has_flag_true in Hinit. apply Hinit.
      apply (wf_initialising_initialised Hwf).
    + split; [reflexivity|]. rewrite has_flag_mask_lor, Hing.
      apply orb_true_r.
    + split; [reflexivity|]. rewrite ?bump_counter_flags in Hinit.
      rewrite has_flag_mask_lor, Hinit. reflexivity.
  - rewrite Hkind in Hk. discriminate.
Qed.

Lemma packet_keeps_refl (d : PktSerialDriver) : packet_keeps d d.
Proof. unfold packet_keeps. tauto. Qed.

(** The two writes of [handlePacket] to a driver's flags. *)
Lemma packet_keeps_flags (d : PktSerialDriver) (f : N) :
  device_flags_wf ->
  f = N.ldiff (flags (device d)) PKT_DEVICE_FLAGS_INITIALISING
  \/ f = N.lor (flags (device d)) PKT_DEVICE_FLAGS_CP_SEEN ->
  packet_keeps d (set_device d (set_flags (device d) f)).
Proof.
  intros Hwf Hf. unfold packet_keeps, initialised, claimed. simpl.
  split; [reflexivity|].
  destruct Hf as [->| ->].
  - rewrite (has_flag_ldiff_disjoint _ _ _ (wf_initialising_initialised Hwf)).
    split; [tauto|]. split; [tauto|]. apply has_flag_ldiff_mono.
  - rewrite !has_flag_lor.
    rewrite (proj2 (has_flag_false _ _) (wf_cp_seen_initialised Hwf)).
    assert (Hc : has_flag PKT_DEVICE_FLAGS_CP_SEEN
                   (N.lor PKT_DEVICE_FLAGS_INITIALISED
                      PKT_DEVICE_FLAGS_INITIALISING) = false).
    { apply has_flag_false.
      rewrite N.land_lor_distr_r, (wf_cp_seen_initialised Hwf),
        (wf_cp_seen_initialising Hwf). reflexivity. }
    rewrite Hc, !orb_false_r. tauto.
Qed.

Lemma entries_keep_refl (st : State) : entries_keep st st.
Proof.
  split; [|apply packet_keeps_refl]. intros k.
  destruct (drivers st !! k) as [[| |d]|]; try reflexivity.
  exists d. split; [reflexivity|apply packet_keeps_refl].
Qed.

Lemma entries_keep_filters (st : State) (fs : list N) :
  entries_keep st (set_address_filters st fs).
Proof. exact (entries_keep_refl st). Qed.

Lemma set_driver_entries (st : State) (i : nat) (d d2 : PktSerialDriver) :
  driver_at st i = Some d ->
  packet_keeps d d2 ->
  entries_keep st (set_driver st i d2).
Proof.
  unfold driver_at, set_driver.
  destruct (drivers st !! i) as [[| |p]|] eqn:Hi; try discriminate.
  - intros [= <-] Hk. split; [|exact Hk]. intros k. simpl.
    destruct (drivers st !! k) as [[| |q]|]; try reflexivity.
    exists q. split; [reflexivity|apply packet_keeps_refl].
  - intros [= <-] Hk. split; [|apply packet_keeps_refl]. intros k. simpl.
    destruct (decide (k = i)) as [->|Hne].
    + rewrite Hi. exists d2. split; [|exact Hk].
      apply list_lookup_insert_eq. eapply lookup_lt_Some. exact Hi.
    + rewrite list_lookup_insert_ne by congruence.
      destruct (drivers st !! k) as [[| |q]|]; try reflexivity.
      exists q. split; [reflexivity|apply packet_keeps_refl].
Qed.

(** [handlePacket] writes flags only, and of those neither INITIALISED nor,
    to set it, INITIALISING. *)
Lemma handlePacket_entries (st st' : State) (cp : ControlPacket)
    (evs : list Event) :
  device_flags_wf ->
  handlePacket st cp = Some (st', evs) ->
  entries_keep st st'.
Proof.
  intros Hwf. unfold handlePacket.
  destruct (find_slot (address_matches cp) st _) as [[i d]|] eqn:Hfind.
  - apply find_slot_Some in Hfind as (_ & Hd & _).
    destruct (_ && _).
    { intros [= <- <-]. apply entries_keep_refl. }
    destruct (_ && _); intros [= <- <-];
      apply (set_driver_entries st i d _ Hd);
      apply (packet_keeps_flags d _ Hwf); auto.
  - destruct (filterPacket _ _) as [b|]; [|discriminate]. simpl.
    destruct (_ && negb b).
    { intros [= <- <-]. apply entries_keep_filters. }
    clear Hfind.
    destruct (b && _); cbv zeta; rewrite ?find_slot_set_address_filters;
      destruct (find_slot (remote_candidate cp) _ _) as [[j dj]|];
      intros [= <- <-];
      first [apply entries_keep_refl|apply entries_keep_filters].
Qed.

(** A tick keeps the logic driver registered; with the logic driver
    registered at address 0, no other driver comes to hold or announce
    address 0. *)
Lemma periodicCallback_registered (st st' : State) (rs rs' : list N)
    (evs : list Event) :
  periodicCallback st rs = Some (st', evs, rs') ->
  logic_driver_registered st -> logic_driver_registered st'.
Proof.
  unfold periodicCallback. destruct (bus_running st); simpl.
  2:{ now intros [= <- <- <-]. }
  intros Hrun ((j & Hj & Hthis) & Hinit & Ha).
  destruct (tick_slots_frame _ _ _ _ _ _ Hrun) as (_ & Ht & _ & _ & _ & Hkind & _).
  specialize (Hkind j). rewrite Hthis in Hkind.
  split; [now exists j|]. now rewrite Ht.
Qed.

Lemma periodicCallback_nonzero_peers (st st' : State) (rs rs' : list N)
    (evs : list Event) :
  periodicCallback st rs = Some (st', evs, rs') ->
  logic_driver_registered st -> nonzero_peers st -> nonzero_peers st'.
Proof.
  unfold periodicCallback. destruct (bus_running st); simpl.
  2:{ now intros [= <- <- <-]. }
  intros Hrun ((j & Hj & Hthis) & Hinit & Ha) Hnz k d' Hk Hc.
  destruct (tick_slots_frame _ _ _ _ _ _ Hrun) as (_ & _ & _ & _ & Hout & Hkind & _).
  specialize (Hkind k).
  destruct (drivers st !! k) as [[| |d]|] eqn:Hsk; try congruence.
  destruct (decide (k < PKT_PROTOCOL_DRIVER_SIZE)) as [Hlt|Hge].
  2:{ rewrite Hout, Hsk in Hk by (intros Hin; apply elem_of_seq in Hin; lia).
      injection Hk as <-. now apply (Hnz k d). }
  destruct (tick_slots_at _ _ _ _ _ _ _ _ Hlt Hsk Hrun)
    as (st_k & e_pre & r_k & d2 & e_k & r_k' & _ & Hpre & Hp & Hd2 & _).
  rewrite Hd2 in Hk. injection Hk as <-.
  destruct (tick_slots_frame _ _ _ _ _ _ Hpre) as (_ & Ht & _ & _ & _ & Hkj & _).
  specialize (Hkj j). rewrite Hthis in Hkj.
  unfold claimed in Hc. apply tick_peer_cases in Hp.
  rewrite bump_counter_flags, ?bump_counter_address in Hp.
  destruct Hp as [(_ & _ & -> & _)|[(_ & a & Hpick & -> & _)|[(Hing & -> & _)|(-> & _)]]];
    simpl in *; rewrite ?bump_counter_address, ?bump_counter_flags in *.
  - apply (Hnz k d Hsk). unfold claimed.
    apply has_flag_ldiff_mono in Hc. exact Hc.
  - apply pick_address_Some in Hpick as (_ & r & _ & _ & Hfree & ->).
    intros Hzero.
    apply (proj1 (still_allocated_false st_k k (r mod 256)%N) Hfree j
             (this_driver st_k)).
    + exact Hj.
    + intros ->. congruence.
    + unfold driver_at. now rewrite Hkj.
    + now rewrite Ht.
    + rewrite Ht, Ha. now symmetry.
  - apply (Hnz k d Hsk). unfold claimed.
    rewrite has_flag_mask_lor, Hing. apply orb_true_r.
  - now apply (Hnz k d Hsk).
Qed.

(** C1, as the code has it.  The constructor leaves the logic driver's own
    record at address 0 with LOCAL and INITIALISED set (so INITIALISED does
    not imply a non-zero address), and registered in the table whenever the
    table holds it.  [handlePacket] changes no address and neither sets nor
    clears INITIALISED: it preserves each half of the invariant by itself,
    keeps the logic driver registered and keeps the other drivers off
    address 0.  [periodicCallback] checks a new address against the
    INITIALISED drivers only.  While the logic driver is registered at
    address 0, a tick keeps it so and gives no other driver address 0: the
    non-zero half holds for every record but the logic driver's own.  After a
    tick no two INITIALISED records share an address provided that before it
    no two records with INITIALISING or INITIALISED set did. *)
Theorem address_invariant_steps :
  device_flags_wf ->
  (forall d cls table running,
      let st := PktLogicDriver_new d cls table running in
      address (device (this_driver st)) = 0%N
      /\ flags (device (this_driver st))
         = N.lor PKT_DEVICE_FLAGS_LOCAL PKT_DEVICE_FLAGS_INITIALISED
      /\ initialised (this_driver st)
      /\ (forall j, j < PKT_PROTOCOL_DRIVER_SIZE -> table !! j = Some This ->
                    logic_driver_registered st))
  /\ (forall st cp st' evs,
         handlePacket st cp = Some (st', evs) ->
         (nonzero_when_initialised st -> nonzero_when_initialised st')
         /\ (unique_initialised st -> unique_initialised st')
         /\ (logic_driver_registered st -> logic_driver_registered st')
         /\ (nonzero_peers st -> nonzero_peers st'))
  /\ (forall st rs st' evs rs',
         periodicCallback st rs = Some (st', evs, rs') ->
         (unique_claimed st -> unique_initialised st')
         /\ (logic_driver_registered st -> logic_driver_registered st')
         /\ (logic_driver_registered st -> nonzero_peers st -> nonzero_peers st')).
Proof.
  intros Hwf. split; [|split].
  - intros d cls table running. simpl.
    assert (Hinit : initialised
                      (this_driver (PktLogicDriver_new d cls table running))).
    { unfold initialised. simpl.
      rewrite has_flag_lor, (has_flag_self _ (wf_initialised Hwf)).
      apply orb_true_r. }
    split; [reflexivity|]. split; [reflexivity|]. split; [exact Hinit|].
    intros j Hj Hthis. split; [now exists j|]. split; [exact Hinit|reflexivity].
  - intros st cp st' evs Hrun.
    pose proof (handlePacket_entries st st' cp evs Hwf Hrun) as [Hent Hthis].
    split; [|split; [|split]].
    + intros Hnz i d' Hd' Hinit.
      destruct (handlePacket_slots _ _ _ _ _ _ Hwf Hrun Hd') as (d & Hd & -> & Hi).
      apply (Hnz i d Hd). now apply Hi.
    + intros Huniq i j di' dj' Hne Hdi' Hdj' Hi' Hj'.
      destruct (handlePacket_slots _ _ _ _ _ _ Hwf Hrun Hdi') as (di & Hdi & -> & Hi).
      destruct (handlePacket_slots _ _ _ _ _ _ Hwf Hrun Hdj') as (dj & Hdj & -> & Hj).
      apply (Huniq i j di dj Hne Hdi Hdj); auto.
    + intros ((j & Hj & Hslot) & Hinit & Ha).
      destruct Hthis as (Ha' & Hfwd & _).
      split; [exists j; split; [exact Hj|]|].
      * specialize (Hent j). now rewrite Hslot in Hent.
      * split; [now apply Hfwd|congruence].
    + intros Hnz k d' Hk Hc. specialize (Hent k).
      destruct (drivers st !! k) as [[| |d]|] eqn:Hsk; try congruence.
      destruct Hent as (d2 & Hd2 & Ha & _ & _ & Hback).
      assert (d2 = d') as -> by congruence.
      rewrite Ha. apply (Hnz k d Hsk). now apply Hback.
  - intros st rs st' evs rs' Hrun. split; [|split].
    + intros Huniq i j di' dj' Hne Hdi' Hdj' Hi' Hj'.
      destruct (periodicCallback_slots _ _ _ _ _ _ _ Hwf Hrun Hdi' Hi')
        as (di & Hdi & -> & Hci).
      destruct (periodicCallback_slots _ _ _ _ _ _ _ Hwf Hrun Hdj' Hj')
        as (dj & Hdj & -> & Hcj).
      apply (Huniq i j di dj Hne Hdi Hdj); auto.
    + exact (periodicCallback_registered st st' rs rs' evs Hrun).
    + exact (periodicCallback_nonzero_peers st st' rs rs' evs Hrun).
Qed.

End AddressInvariant.

Lemma sample_flags_wf : @device_flags_wf sample_constants.
Proof. split; try reflexivity. discriminate. Qed.

(** A tick on [contested_state]: the logic driver is registered at address
    0, the first candidate drawn is 0 and is passed over, and afterwards no
    other driver holds or announces address 0; no two INITIALISED drivers
    share an address. *)
Lemma address_invariant_steps_witness :
  @logic_driver_registered sample_constants contested_state
  /\ @nonzero_peers sample_constants contested_state
  /\ @unique_claimed sample_constants contested_state
  /\ @periodicCallback sample_constants contested_state contested_draws
     = Some (reallocated_state, [QueueControlPacket 1], [])
  /\ @logic_driver_registered sample_constants reallocated_state
  /\ @nonzero_peers sample_constants reallocated_state
  /\ @unique_initialised sample_constants reallocated_state.
Proof.
  assert (Hreg : @logic_driver_registered sample_constants contested_state).
  { split; [exists 0; split; [vm_compute; lia|reflexivity]|].
    split; reflexivity. }
  assert (Hnz : @nonzero_peers sample_constants contested_state).
  { intros k d Hd Hc. each_slot k Hd; vm_compute in Hc |- *; congruence. }
  assert (Hu : @unique_claimed sample_constants contested_state).
  { intros i j di dj Hne Hdi Hdj Hi Hj.
    each_slot i Hdi; each_slot j Hdj; try congruence;
      vm_compute in Hi, Hj |- *; congruence. }
  assert (Hrun : @periodicCallback sample_constants contested_state
                   contested_draws
                 = Some (reallocated_state, [QueueControlPacket 1], []))
    by reflexivity.
  destruct (@address_invariant_steps sample_constants sample_flags_wf)
    as (_ & _ & Htick).
  destruct (Htick contested_state contested_draws reallocated_state
              [QueueControlPacket 1] [] Hrun) as (Hui & Hr & Hn).
  split; [exact Hreg|]. split; [exact Hnz|]. split; [exact Hu|].
  split; [exact Hrun|]. split; [exact (Hr Hreg)|].
  split; [exact (Hn Hreg Hnz)|exact (Hui Hu)].
Defined.

(** The constructor's own record: INITIALISED, at address 0. *)
Lemma constructor_breaks_nonzero_address :
  driver_at constructed_state 0 = Some (this_driver constructed_state)
  /\ @initialised sample_constants (this_driver constructed_state)
  /\ address (device (this_driver constructed_state)) = 0%N
  /\ ~ @address_invariant sample_constants constructed_state.
Proof.
  split; [reflexivity|]. split; [reflexivity|]. split; [reflexivity|].
  intros [Hnz _].
  apply (Hnz 0 (this_driver constructed_state)); reflexivity.
Qed.

(** Two drivers that announce the same address both become INITIALISED: the
    tick does not compare INITIALISING drivers with each other. *)
Lemma tick_breaks_unique_initialised :
  @unique_initialised sample_constants shadowed_owner
  /\ @periodicCallback sample_constants shadowed_owner []
     = Some (both_own_12,
             [DeviceConnected 1 (mk_device 12 254 0x8080 0xAAAA)], [])
  /\ ~ @unique_initialised sample_constants both_own_12.
Proof.
  split; [|split; [reflexivity|]].
  - intros i j di dj Hne Hdi Hdj Hi Hj.
    each_slot i Hdi; each_slot j Hdj; try congruence;
      vm_compute in Hi, Hj |- *; congruence.
  - intros H.
    apply (H 1 2 {| device := mk_device 12 254 0x8080 0xAAAA; driver_class := 1 |}
             {| device := mk_device 12 255 0x8080 0xBBBB; driver_class := 1 |});
      try reflexivity. lia.
Qed.

(** ** Liveness of a REMOTE driver *)

Section Liveness.
Context {C : Constants}.

(** The body on a driver that is REMOTE and not LOCAL: only the timeout test
    can do anything. *)
Lemma tick_peer_remote (st : State) (i : nat) (d : PktSerialDriver) (rs : list N) :
  has_flag (flags (device d)) PKT_DEVICE_FLAGS_REMOTE = true ->
  has_flag (flags (device d)) PKT_DEVICE_FLAGS_LOCAL = false ->
  tick_peer st i d rs
  = let dev := bump_counter (device d) in
    if (rolling_counter dev =? PKT_LOGIC_DRIVER_TIMEOUT)%N then
      Some (set_device d
              (set_flags dev (N.ldiff (flags dev) PKT_DEVICE_FLAGS_CP_SEEN)),
            if has_flag (flags dev) PKT_DEVICE_FLAGS_CP_SEEN then []
            else [DeviceRemoved i],
            rs)
    else Some (set_device d dev, [], rs).
Proof.
  intros Hr Hl. unfold tick_peer. cbv zeta.
  rewrite !bump_counter_flags, Hr, Hl. simpl.
  destruct (_ =? _)%N; reflexivity.
Qed.

Lemma bump_counter_rolling (d : PktSerialDriver) :
  rolling_counter (bump_counter (device d)) = counter_after d 1.
Proof.
  unfold bump_counter, counter_after.
  destruct (has_flag _ _); reflexivity.
Qed.

Lemma set_flags_bump_counter (dev : PktDevice) :
  set_flags (bump_counter dev) (flags dev) = bump_counter dev.
Proof.
  rewrite <- (bump_counter_flags dev). now destruct (bump_counter dev).
Qed.

Lemma after_tick_remote (d : PktSerialDriver) :
  device_flags_wf ->
  has_flag (flags (device d)) PKT_DEVICE_FLAGS_REMOTE = true ->
  has_flag (flags (device (after_tick d))) PKT_DEVICE_FLAGS_REMOTE = true.
Proof.
  intros Hwf Hr. unfold after_tick. simpl. destruct (_ =? _)%N; [|exact Hr].
  now rewrite (has_flag_ldiff_disjoint _ _ _ (wf_cp_seen_remote Hwf)).
Qed.

Lemma after_tick_not_local (d : PktSerialDriver) :
  has_flag (flags (device d)) PKT_DEVICE_FLAGS_LOCAL = false ->
  has_flag (flags (device (after_tick d))) PKT_DEVICE_FLAGS_LOCAL = false.
Proof.
  intros Hl. unfold after_tick. simpl. destruct (_ =? _)%N; [|exact Hl].
  apply not_true_is_false. intros H. apply has_flag_ldiff_mono in H. congruence.
Qed.

Lemma after_tick_claim (d : PktSerialDriver) :
  device_flags_wf ->
  has_flag (flags (device (after_tick d)))
    (N.lor PKT_DEVICE_FLAGS_INITIALISED PKT_DEVICE_FLAGS_INITIALISING)
  = has_flag (flags (device d))
      (N.lor PKT_DEVICE_FLAGS_INITIALISED PKT_DEVICE_FLAGS_INITIALISING).
Proof.
  intros Hwf. unfold after_tick. simpl. destruct (_ =? _)%N; [|reflexivity].
  apply has_flag_ldiff_disjoint.
  rewrite N.land_lor_distr_r, (wf_cp_seen_initialised Hwf),
    (wf_cp_seen_initialising Hwf). reflexivity.
Qed.

Lemma after_tick_counter (d : PktSerialDriver) (k : nat) :
  device_flags_wf ->
  counter_after (after_tick d) k = counter_after d (S k).
Proof.
  intros Hwf. unfold counter_after at 1. rewrite (after_tick_claim d Hwf).
  unfold counter_after, after_tick, bump_counter. simpl.
  destruct (has_flag (flags (device d)) (N.lor _ _)); simpl; [|reflexivity].
  rewrite N.Div0.add_mod_idemp_l. f_equal. lia.
Qed.

Lemma after_tick_cp_seen (d : PktSerialDriver) :
  has_flag (flags (device (after_tick d))) PKT_DEVICE_FLAGS_CP_SEEN = false <->
  has_flag (flags (device d)) PKT_DEVICE_FLAGS_CP_SEEN = false
  \/ counter_after d 1 = PKT_LOGIC_DRIVER_TIMEOUT.
Proof.
  unfold after_tick. simpl.
  destruct (N.eqb_spec (counter_after d 1) PKT_LOGIC_DRIVER_TIMEOUT) as [He|Hne].
  - rewrite has_flag_ldiff_same. tauto.
  - tauto.
Qed.

End Liveness.

(** * Further properties *)

(** ** The filter array: lookup, insertion and removal *)

Section FilterTable.
Context {C : Constants}.

Lemma filter_scan_found (filters : list N) (a : N) (n start i : nat) :
  start <= i < start + n ->
  filters !! i = Some a ->
  filter_scan filters a (seq start n) = Some true.
Proof.
  revert start. induction n as [|n IH]; intros start Hi Ha; simpl; [lia|].
  destruct (lookup_lt_is_Some_2 filters start) as [f Hf].
  { apply lookup_lt_Some in Ha. lia. }
  rewrite Hf. destruct (N.eqb_spec f a) as [_|Hne]; [reflexivity|].
  apply IH; [|exact Ha].
  destruct (decide (start = i)) as [->|]; [congruence|lia].
Qed.

Lemma filter_scan_true (filters : list N) (a : N) (ixs : list nat) :
  filter_scan filters a ixs = Some true ->
  exists i, i ∈ ixs /\ filters !! i = Some a.
Proof.
  induction ixs as [|i ixs IH]; simpl; [discriminate|].
  destruct (filters !! i) as [f|] eqn:Hf; [|discriminate].
  destruct (N.eqb_spec f a) as [->|_].
  - intros _. exists i. split; [left|exact Hf].
  - intros H. destruct (IH H) as (j & Hj & Hja). exists j. split; [now right|exact Hja].
Qed.

(** An address that none of the examined entries holds is not reported. *)
Lemma filterPacket_absent (filters : list N) (a : N) :
  PKT_PROTOCOL_DRIVER_SIZE <= length filters ->
  (a <> 0%N -> forall i, i < PKT_PROTOCOL_DRIVER_SIZE -> filters !! i <> Some a) ->
  filterPacket filters a = Some false.
Proof.
  intros Hlen Hnone. unfold filterPacket.
  destruct (N.ltb_spec 0 a) as [Hpos|_]; [|reflexivity].
  destruct (filter_scan_in_range filters a (seq 0 PKT_PROTOCOL_DRIVER_SIZE))
    as [b Hb].
  { intros i Hi. apply elem_of_seq in Hi. lia. }
  destruct b; [|exact Hb]. exfalso.
  destruct (filter_scan_true _ _ _ Hb) as (i & Hi & Ha).
  apply elem_of_seq in Hi. apply (Hnone ltac:(lia) i); [lia|exact Ha].
Qed.

(** X1: what [filterPacket] answers when the filter array is at least as
    long as the slot table.  An address is reported exactly when it is not 0
    and one of the first [PKT_PROTOCOL_DRIVER_SIZE] entries holds it; address 0
    is never reported, and entries from that index on are not examined. *)
Theorem filterPacket_spec (filters : list N) (a : N) :
  PKT_PROTOCOL_DRIVER_SIZE <= length filters ->
  exists b, filterPacket filters a = Some b
            /\ (b = true <->
                a <> 0%N
                /\ exists i, i < PKT_PROTOCOL_DRIVER_SIZE /\ filters !! i = Some a).
Proof.
  intros Hlen. unfold filterPacket.
  destruct (N.ltb_spec 0 a) as [Hpos|Hzero].
  - destruct (filter_scan_in_range filters a (seq 0 PKT_PROTOCOL_DRIVER_SIZE))
      as [b Hb].
    { intros i Hi. apply elem_of_seq in Hi. lia. }
    exists b. split; [exact Hb|]. split.
    + intros ->. split; [lia|].
      destruct (filter_scan_true _ _ _ Hb) as (i & Hi & Ha).
      apply elem_of_seq in Hi. exists i. split; [lia|exact Ha].
    + intros (_ & i & Hi & Ha).
      rewrite (filter_scan_found filters a _ 0 i) in Hb by (assumption || lia).
      now injection Hb.
  - exists false. split; [reflexivity|]. split; [discriminate|].
    intros (Hne & _). lia.
Qed.

Lemma filter_insert_fmap (filters : list N) (a : N) :
  length filters <= PKT_LOGIC_DRIVER_MAX_FILTERS ->
  filter_insert filters a = (fun f => if (f =? 0)%N then a else f) <$> filters.
Proof. apply rewrite_filters_fmap. Qed.

Lemma filter_remove_fmap (filters : list N) (a : N) :
  length filters <= PKT_LOGIC_DRIVER_MAX_FILTERS ->
  filter_remove filters a = (fun f => if (f =? a)%N then 0%N else f) <$> filters.
Proof. apply rewrite_filters_fmap. Qed.


(** After the insertion loop, the lookup finds a non-zero address, provided
    one of the entries it examines was empty. *)
Lemma filter_insert_found (filters : list N) (a : N) (i : nat) :
  length filters = PKT_LOGIC_DRIVER_MAX_FILTERS ->
  a <> 0%N ->
  i < PKT_PROTOCOL_DRIVER_SIZE ->
  filters !! i = Some 0%N ->
  filterPacket (filter_insert filters a) a = Some true.
Proof.
  intros Hlen Ha Hi Hzero. rewrite filter_insert_fmap by lia.
  unfold filterPacket. destruct (N.ltb_spec 0 a) as [_|Hz]; [|lia].
  apply (filter_scan_found _ _ _ 0 i); [lia|].
  rewrite list_lookup_fmap, Hzero. reflexivity.
Qed.

(** Step 2 for a PAIRED packet whose address is not reported. *)
Lemma handlePacket_paired_unfiltered (st : State) (cp : ControlPacket) :
  no_address_match st cp ->
  has_flag (cp_flags cp) CONTROL_PKT_FLAGS_PAIRED = true ->
  filterPacket (address_filters st) (cp_address cp) = Some false ->
  handlePacket st cp
  = Some (set_address_filters st
            (filter_insert (address_filters st) (cp_address cp)), []).
Proof.
  intros Hno Hp Hf. unfold handlePacket.
  rewrite (no_address_match_find st cp Hno), Hf. simpl. now rewrite Hp.
Qed.

(** X2: insertion then lookup.  A PAIRED packet for a non-zero address that
    matches no slot and is not yet reported by [filterPacket] leaves the slots
    alone, produces no event, and makes [filterPacket] report the address from
    then on, provided one of the entries the lookup examines was empty. *)
Theorem paired_packet_is_filtered_afterwards (st : State) (cp : ControlPacket)
    (i : nat) :
  no_address_match st cp ->
  has_flag (cp_flags cp) CONTROL_PKT_FLAGS_PAIRED = true ->
  filterPacket (address_filters st) (cp_address cp) = Some false ->
  length (address_filters st) = PKT_LOGIC_DRIVER_MAX_FILTERS ->
  cp_address cp <> 0%N ->
  i < PKT_PROTOCOL_DRIVER_SIZE ->
  address_filters st !! i = Some 0%N ->
  exists st',
    handlePacket st cp = Some (st', [])
    /\ drivers st' = drivers st
    /\ this_driver st' = this_driver st
    /\ filterPacket (address_filters st') (cp_address cp) = Some true.
Proof.
  intros Hno Hp Hf Hlen Ha Hi Hzero.
  rewrite (handlePacket_paired_unfiltered st cp Hno Hp Hf).
  eexists. split; [reflexivity|]. split; [reflexivity|]. split; [reflexivity|].
  simpl. now apply (filter_insert_found _ _ i).
Qed.

Lemma set_address_filters_same (st : State) :
  set_address_filters st (address_filters st) = st.
Proof. now destruct st. Qed.

(** X3: a full filter array.  When no entry is 0, a PAIRED packet for an
    address that is not reported changes nothing and produces no event: the
    address is silently not recorded, and the next such packet meets the same
    state. *)
Theorem paired_packet_dropped_when_full (st : State) (cp : ControlPacket) :
  no_address_match st cp ->
  has_flag (cp_flags cp) CONTROL_PKT_FLAGS_PAIRED = true ->
  filterPacket (address_filters st) (cp_address cp) = Some false ->
  length (address_filters st) = PKT_LOGIC_DRIVER_MAX_FILTERS ->
  0%N ∉ address_filters st ->
  handlePacket st cp = Some (st, []).
Proof.
  intros Hno Hp Hf Hlen Hfull.
  rewrite (handlePacket_paired_unfiltered st cp Hno Hp Hf).
  rewrite filter_insert_fmap by lia.
  replace ((fun f => if (f =? 0)%N then cp_address cp else f) <$> address_filters st)
    with (address_filters st); [now rewrite set_address_filters_same|].
  apply list_eq. intros i. rewrite list_lookup_fmap.
  destruct (address_filters st !! i) as [f|] eqn:Hi; [|reflexivity].
  simpl. destruct (N.eqb_spec f 0) as [->|_]; [|reflexivity].
  exfalso. apply Hfull. eapply list_elem_of_lookup_2. exact Hi.
Qed.

(** Step 2 and 3 for a BROADCAST packet whose address is reported. *)
Lemma handlePacket_broadcast_filtered (st : State) (cp : ControlPacket) :
  no_address_match st cp ->
  filterPacket (address_filters st) (cp_address cp) = Some true ->
  has_flag (cp_flags cp) CONTROL_PKT_FLAGS_BROADCAST = true ->
  handlePacket st cp
  = Some (set_address_filters st
            (filter_remove (address_filters st) (cp_address cp)),
          match find_slot (remote_candidate cp) st
                  (seq 0 PKT_PROTOCOL_DRIVER_SIZE) with
          | Some (i, _) => [DeviceConnected i (device_of_packet cp)]
          | None => []
          end).
Proof.
  intros Hno Hf Hb. unfold handlePacket.
  rewrite (no_address_match_find st cp Hno), Hf. simpl.
  rewrite andb_false_r, Hb. rewrite find_slot_set_address_filters.
  destruct (find_slot (remote_candidate cp) st _) as [[i d]|]; reflexivity.
Qed.

Lemma filterPacket_true_nonzero (filters : list N) (a : N) :
  filterPacket filters a = Some true -> a <> 0%N.
Proof.
  unfold filterPacket. destruct (N.ltb_spec 0 a); [lia|discriminate].
Qed.

(** X4: a BROADCAST packet for a reported address that matches no slot zeroes
    every filter entry equal to the address and leaves the other entries and
    the slots as they were, so the address is no longer in the array; the
    packet then goes on to the remote association: [deviceConnected] on the
    first target slot, or no event when there is none. *)
Theorem broadcast_packet_clears_filter (st : State) (cp : ControlPacket) :
  no_address_match st cp ->
  filterPacket (address_filters st) (cp_address cp) = Some true ->
  has_flag (cp_flags cp) CONTROL_PKT_FLAGS_BROADCAST = true ->
  length (address_filters st) = PKT_LOGIC_DRIVER_MAX_FILTERS ->
  exists st' evs,
    handlePacket st cp = Some (st', evs)
    /\ drivers st' = drivers st
    /\ (address_filters st'
        = (fun f => if (f =? cp_address cp)%N then 0%N else f)
            <$> address_filters st)
    /\ (cp_address cp ∉ address_filters st')
    /\ (forall i d, first_slot (association_target cp) st i d ->
                    evs = [DeviceConnected i (device_of_packet cp)])
    /\ ((forall i d, i < PKT_PROTOCOL_DRIVER_SIZE -> driver_at st i = Some d ->
                     ~ association_target cp d) -> evs = []).
Proof.
  intros Hno Hf Hb Hlen.
  rewrite (handlePacket_broadcast_filtered st cp Hno Hf Hb).
  eexists _, _. split; [reflexivity|]. split; [reflexivity|]. simpl.
  rewrite filter_remove_fmap by lia. split; [reflexivity|]. split; [|split].
  - intros Hin. apply list_elem_of_fmap in Hin as (f & Heq & _).
    destruct (N.eqb_spec f (cp_address cp)) as [_|Hne].
    + now apply (filterPacket_true_nonzero _ _ Hf).
    + congruence.
  - intros i d Ht. now rewrite (first_target_find st cp i d Ht).
  - intros Hnone.
    destruct (find_slot (remote_candidate cp) st _) as [[i d]|] eqn:Hfind;
      [|reflexivity].
    apply find_slot_seq_inv in Hfind as (Hi & Hd & Hc & _).
    exfalso. apply (Hnone i d); [lia|exact Hd|].
    now apply remote_candidate_spec.
Qed.

End FilterTable.

(** ** start and stop composed *)

Section StartStopCompose.
Context {C : Constants}.

Lemma ldiff_lor_same (x m : N) : N.ldiff (N.lor x m) m = N.ldiff x m.
Proof.
  apply N.bits_inj. intros n. rewrite !N.ldiff_spec, N.lor_spec.
  destruct (N.testbit x n), (N.testbit m n); reflexivity.
Qed.

Lemma lor_ldiff_same (x m : N) : N.lor (N.ldiff x m) m = N.lor x m.
Proof.
  apply N.bits_inj. intros n. rewrite !N.lor_spec, N.ldiff_spec.
  destruct (N.testbit x n), (N.testbit m n); reflexivity.
Qed.

Lemma lor_lor_same (x m : N) : N.lor (N.lor x m) m = N.lor x m.
Proof. now rewrite <- N.lor_assoc, N.lor_diag. Qed.

Lemma ldiff_ldiff_same (x m : N) : N.ldiff (N.ldiff x m) m = N.ldiff x m.
Proof.
  apply N.bits_inj. intros n. rewrite !N.ldiff_spec.
  destruct (N.testbit x n), (N.testbit m n); reflexivity.
Qed.

(** X6: [start] and [stop] write the same two status bits and nothing else.
    Bit by bit, [start] sets the bits of RUNNING and SYSTEM_TICK and keeps
    every other bit of [status], [stop] clears them and keeps every other
    bit, and neither writes any other field.  So the later call wins and
    repeating a call changes nothing: stopping a started driver gives the
    stopped driver, starting a stopped one gives the started driver, whatever
    the other status bits are. *)
Theorem start_stop_compose (st : State) :
  (forall n,
      N.testbit (status (start st)) n
      = N.testbit (status st) n
        || N.testbit (N.lor DEVICE_COMPONENT_RUNNING
                        DEVICE_COMPONENT_STATUS_SYSTEM_TICK) n)
  /\ (forall n,
         N.testbit (status (stop st)) n
         = N.testbit (status st) n
           && negb (N.testbit (N.lor DEVICE_COMPONENT_RUNNING
                                 DEVICE_COMPONENT_STATUS_SYSTEM_TICK) n))
  /\ set_status (start st) (status st) = st
  /\ set_status (stop st) (status st) = st
  /\ stop (start st) = stop st
  /\ start (stop st) = start st
  /\ start (start st) = start st
  /\ stop (stop st) = stop st.
Proof.
  split; [apply start_status_bits|]. split; [apply stop_status_bits|].
  split; [now destruct st|]. split; [now destruct st|].
  unfold start, stop, set_status. simpl.
  rewrite ldiff_lor_same, lor_ldiff_same, lor_lor_same, ldiff_ldiff_same.
  repeat split.
Qed.

End StartStopCompose.

(** ** What a packet can change *)

Section PacketFrame.
Context {C : Constants}.

(** The four ways [handlePacket] returns. *)
Lemma handlePacket_result (st st' : State) (cp : ControlPacket) (evs : list Event) :
  handlePacket st cp = Some (st', evs) ->
  (st' = st /\ exists p, evs = [BusSend p])
  \/ (exists i d, driver_at st i = Some d
                  /\ st' = set_driver st i
                             (with_flags d
                                (N.ldiff (flags (device d))
                                   PKT_DEVICE_FLAGS_INITIALISING))
                  /\ evs = [])
  \/ (exists i d, driver_at st i = Some d
                  /\ st' = set_driver st i
                             (with_flags d
                                (N.lor (flags (device d))
                                   PKT_DEVICE_FLAGS_CP_SEEN))
                  /\ evs = [HandleControlPacket i cp])
  \/ (exists fs, st' = set_address_filters st fs
                 /\ (evs = []
                     \/ exists i, evs = [DeviceConnected i (device_of_packet cp)])).
Proof.
  unfold handlePacket.
  destruct (find_slot (address_matches cp) st _) as [[i d]|] eqn:Hfind.
  - apply find_slot_Some in Hfind as (_ & Hd & _).
    destruct (_ && _).
    { intros [= <- <-]. left. split; [reflexivity|eauto]. }
    destruct (_ && _); intros [= <- <-]; right.
    + left. exists i, d. now repeat split.
    + right. left. exists i, d. now repeat split.
  - clear Hfind. destruct (filterPacket _ _) as [b|]; [|discriminate]. simpl.
    destruct (_ && negb b).
    { intros [= <- <-]. do 3 right. eexists. split; [reflexivity|now left]. }
    destruct (b && _); cbv zeta; rewrite ?find_slot_set_address_filters;
      destruct (find_slot (remote_candidate cp) _ _) as [[j dj]|];
      intros [= <- <-]; do 3 right.
    + eexists. split; [reflexivity|]. right. eauto.
    + eexists. split; [reflexivity|]. now left.
    + exists (address_filters st). rewrite set_address_filters_same.
      split; [reflexivity|]. right. eauto.
    + exists (address_filters st). rewrite set_address_filters_same.
      split; [reflexivity|]. now left.
Qed.

Lemma same_identity_refl (l : list Slot) : Forall2 same_identity l l.
Proof.
  induction l as [|s l IH]; constructor; [|exact IH].
  destruct s; simpl; auto.
Qed.

Lemma same_identity_insert (l : list Slot) (i : nat) (d d' : PktSerialDriver) :
  l !! i = Some (Peer d) ->
  serial_number (device d) = serial_number (device d') ->
  driver_class d = driver_class d' ->
  Forall2 same_identity l (<[i := Peer d']> l).
Proof.
  intros Hi Hs Hc.
  rewrite <- (list_insert_id l i (Peer d) Hi) at 1.
  apply Forall2_insert; [apply same_identity_refl|]. now split.
Qed.

Lemma set_driver_identity (st : State) (i : nat) (d : PktSerialDriver) (f : N) :
  driver_at st i = Some d ->
  Forall2 same_identity (drivers st) (drivers (set_driver st i (with_flags d f))).
Proof.
  unfold driver_at, set_driver.
  destruct (drivers st !! i) as [[| |p]|] eqn:Hi; try discriminate.
  - intros _. apply same_identity_refl.
  - intros [= <-]. simpl. now apply (same_identity_insert _ _ p).
Qed.

(** A slot after [set_driver] with other flags: the old driver, or the old
    driver with the new flags. *)
Lemma driver_at_with_flags (st : State) (i k : nat) (d dk' : PktSerialDriver) (f : N) :
  driver_at st i = Some d ->
  driver_at (set_driver st i (with_flags d f)) k = Some dk' ->
  exists dk, driver_at st k = Some dk /\ (dk' = dk \/ dk' = with_flags dk f /\ dk = d).
Proof.
  intros Hd Hk.
  destruct (driver_at_set_driver _ _ _ _ _ _ Hd Hk) as [Hold|[Hold ->]].
  - exists dk'. split; [exact Hold|now left].
  - exists d. split; [exact Hold|]. right. now split.
Qed.

(** A packet keeps the bus state, the status word and the identity of every
    slot. *)
Lemma handlePacket_identity (st st' : State) (cp : ControlPacket)
    (evs : list Event) :
  handlePacket st cp = Some (st', evs) ->
  bus_running st' = bus_running st
  /\ status st' = status st
  /\ Forall2 same_identity (drivers st) (drivers st').
Proof.
  intros H. apply handlePacket_result in H.
  assert (Hkeep : forall i d f,
            driver_at st i = Some d ->
            bus_running (set_driver st i (with_flags d f)) = bus_running st
            /\ status (set_driver st i (with_flags d f)) = status st
            /\ Forall2 same_identity (drivers st)
                 (drivers (set_driver st i (with_flags d f)))).
  { intros i d f Hd. split; [|split; [|now apply set_driver_identity]];
      unfold set_driver; destruct (drivers st !! i) as [[| |p]|]; reflexivity. }
  destruct H as [(-> & _)|[(i & d & Hd & -> & _)|[(i & d & Hd & -> & _)
                |(fs & -> & _)]]].
  - repeat split. apply same_identity_refl.
  - now apply Hkeep.
  - now apply Hkeep.
  - repeat split. apply same_identity_refl.
Qed.

(** A packet changes no driver's address, counter, serial number or class. *)
Lemma handlePacket_fields (st st' : State) (cp : ControlPacket)
    (evs : list Event) (k : nat) (dk' : PktSerialDriver) :
  handlePacket st cp = Some (st', evs) ->
  driver_at st' k = Some dk' ->
  exists dk, driver_at st k = Some dk
             /\ address (device dk') = address (device dk)
             /\ rolling_counter (device dk') = rolling_counter (device dk)
             /\ serial_number (device dk') = serial_number (device dk)
             /\ driver_class dk' = driver_class dk.
Proof.
  intros H Hk. apply handlePacket_result in H.
  assert (Hsame : forall i d f,
            driver_at st i = Some d ->
            driver_at (set_driver st i (with_flags d f)) k = Some dk' ->
            exists dk, driver_at st k = Some dk
                   /\ address (device dk') = address (device dk)
                   /\ rolling_counter (device dk') = rolling_counter (device dk)
                   /\ serial_number (device dk') = serial_number (device dk)
                   /\ driver_class dk' = driver_class dk).
  { intros i d f Hd Hk'.
    destruct (driver_at_with_flags _ _ _ _ _ _ Hd Hk') as (dk & Hdk & [->|[-> _]]);
      exists dk; now repeat split. }
  destruct H as [(-> & _)|[(i & d & Hd & -> & _)|[(i & d & Hd & -> & _)
                |(fs & -> & _)]]].
  - exists dk'. now repeat split.
  - exact (Hsame i d _ Hd Hk).
  - exact (Hsame i d _ Hd Hk).
  - exists dk'. now repeat split.
Qed.

End PacketFrame.

(** ** What a tick can change *)

Section TickFrame.
Context {C : Constants}.

Lemma tick_peer_tick_event (st : State) (i : nat) (d d' : PktSerialDriver)
    (rs rs' : list N) (evs : list Event) :
  tick_peer st i d rs = Some (d', evs, rs') -> Forall tick_event evs.
Proof.
  unfold tick_peer.
  repeat match goal with
         | |- context [if ?b then _ else _] => destruct b
         | |- context [pick_address ?s ?k ?r] =>
             destruct (pick_address s k r) as [[? ?]|]
         end; simpl; intros [= <- <- <-] || discriminate;
    repeat constructor.
Qed.

Lemma tick_peer_identity (st : State) (i : nat) (d d' : PktSerialDriver)
    (rs rs' : list N) (evs : list Event) :
  tick_peer st i d rs = Some (d', evs, rs') ->
  serial_number (device d) = serial_number (device d')
  /\ driver_class d = driver_class d'.
Proof.
  intros H. apply tick_peer_cases in H.
  destruct H as [(_ & _ & -> & _)|[(_ & a & _ & -> & _)|[(_ & -> & _)|(-> & _)]]];
    simpl; rewrite bump_counter_serial; now split.
Qed.

Lemma same_identity_trans (l1 l2 l3 : list Slot) :
  Forall2 same_identity l1 l2 -> Forall2 same_identity l2 l3 ->
  Forall2 same_identity l1 l3.
Proof.
  apply Forall2_trans. intros [| |x] [| |y] [| |z]; simpl; try tauto.
  intros [? ?] [? ?]. split; congruence.
Qed.

Lemma tick_slots_identity (ixs : list nat) (st st' : State) (rs rs' : list N)
    (evs : list Event) :
  tick_slots ixs st rs = Some (st', evs, rs') ->
  Forall2 same_identity (drivers st) (drivers st') /\ Forall tick_event evs.
Proof.
  revert st rs evs. induction ixs as [|i ixs IH]; intros st rs evs; simpl.
  - intros [= <- <- <-]. split; [apply same_identity_refl|constructor].
  - destruct (drivers st !! i) as [[| |d]|] eqn:Hi; try apply IH.
    destruct (tick_peer st i d rs) as [[[d' e1] r1]|] eqn:Hp; [|discriminate].
    simpl.
    destruct (tick_slots ixs _ r1) as [[[st2 e2] r2]|] eqn:Hrest; [|discriminate].
    simpl. intros [= <- <- <-].
    apply IH in Hrest as [Hid Hev]. simpl in Hid.
    destruct (tick_peer_identity _ _ _ _ _ _ _ Hp) as [Hs Hc].
    split.
    + eapply same_identity_trans; [|exact Hid].
      now apply (same_identity_insert _ _ d).
    + apply Forall_app. split; [|exact Hev].
      exact (tick_peer_tick_event _ _ _ _ _ _ _ Hp).
Qed.

(** A tick keeps the bus state, the status word, the filter array, the logic
    driver's own record and the identity of every slot. *)
Lemma periodicCallback_identity (st st' : State) (rs rs' : list N)
    (evs : list Event) :
  periodicCallback st rs = Some (st', evs, rs') ->
  bus_running st' = bus_running st
  /\ status st' = status st
  /\ address_filters st' = address_filters st
  /\ this_driver st' = this_driver st
  /\ Forall2 same_identity (drivers st) (drivers st').
Proof.
  unfold periodicCallback. destruct (bus_running st) eqn:Hbus; simpl.
  - intros Hrun.
    destruct (tick_slots_frame _ _ _ _ _ _ Hrun) as (Hb & Ht & Hs & Hf & _).
    destruct (tick_slots_identity _ _ _ _ _ _ Hrun) as [Hid _].
    split; [congruence|]. now repeat split.
  - intros [= <- <- <-]. repeat split; try assumption. apply same_identity_refl.
Qed.

(** X8: what a tick never does.  [periodicCallback] leaves the bus state, the
    status word, the filter array and the logic driver's own record alone,
    keeps every entry of the slot table the same driver (same kind, serial
    number and class), and every event it causes is [queueControlPacket],
    [deviceConnected] or [deviceRemoved] on a slot below
    [PKT_PROTOCOL_DRIVER_SIZE]: a tick itself puts no frame on the bus and
    never calls [handleControlPacket]. *)
Theorem periodicCallback_frame (st st' : State) (rs rs' : list N)
    (evs : list Event) :
  periodicCallback st rs = Some (st', evs, rs') ->
  bus_running st' = bus_running st
  /\ status st' = status st
  /\ address_filters st' = address_filters st
  /\ this_driver st' = this_driver st
  /\ Forall2 same_identity (drivers st) (drivers st')
  /\ Forall (fun e => tick_event e
                      /\ exists k, k < PKT_PROTOCOL_DRIVER_SIZE
                                   /\ event_slot e = Some k) evs.
Proof.
  intros H.
  destruct (periodicCallback_identity _ _ _ _ _ H) as (Hb & Hs & Hf & Ht & Hid).
  split; [exact Hb|]. split; [exact Hs|]. split; [exact Hf|].
  split; [exact Ht|]. split; [exact Hid|].
  unfold periodicCallback in H. destruct (bus_running st); simpl in H.
  - destruct (tick_slots_frame _ _ _ _ _ _ H) as (_ & _ & _ & _ & _ & _ & Hev).
    destruct (tick_slots_identity _ _ _ _ _ _ H) as [_ Hte].
    apply Forall_and. split; [exact Hte|].
    eapply Forall_impl; [exact Hev|]. intros e (k & Hk & He).
    apply elem_of_seq in Hk. exists k. split; [lia|exact He].
  - injection H as <- <- <-. constructor.
Qed.

(** A slot after a tick holds the driver it held, or what the loop body made
    of it. *)
Lemma periodicCallback_slot_result (st st' : State) (rs rs' : list N)
    (evs : list Event) (k : nat) (d' : PktSerialDriver) :
  periodicCallback st rs = Some (st', evs, rs') ->
  drivers st' !! k = Some (Peer d') ->
  exists d, drivers st !! k = Some (Peer d)
            /\ (d' = d
                \/ exists st_k r e r', tick_peer st_k k d r = Some (d', e, r')).
Proof.
  unfold periodicCallback. destruct (bus_running st); simpl.
  2:{ intros [= <- <- <-] Hk. exists d'. split; [exact Hk|now left]. }
  intros Hrun Hk.
  destruct (tick_slots_frame _ _ _ _ _ _ Hrun) as (_ & _ & _ & _ & Hout & Hkind & _).
  specialize (Hkind k).
  destruct (drivers st !! k) as [[| |d]|] eqn:Hsk; try congruence.
  exists d. split; [reflexivity|].
  destruct (decide (k < PKT_PROTOCOL_DRIVER_SIZE)) as [Hlt|Hge].
  - destruct (tick_slots_at _ _ _ _ _ _ _ _ Hlt Hsk Hrun)
      as (st_k & _ & r_k & d2 & e_k & r_k' & _ & _ & Hp & Hd2 & _).
    rewrite Hd2 in Hk. injection Hk as <-. right. eauto.
  - rewrite Hout, Hsk in Hk by (intros Hin; apply elem_of_seq in Hin; lia).
    injection Hk as <-. now left.
Qed.

End TickFrame.

(** ** Invariants of any run of ticks and packets *)

Section RunInvariants.
Context {C : Constants}.

Lemma tick_peer_exclusive (st : State) (i : nat) (d d' : PktSerialDriver)
    (rs rs' : list N) (evs : list Event) :
  device_flags_wf ->
  tick_peer st i d rs = Some (d', evs, rs') ->
  exclusive d -> exclusive d'.
Proof.
  intros Hwf H Hex. apply tick_peer_cases in H. unfold exclusive in *.
  rewrite bump_counter_flags in H.
  destruct H as [(_ & _ & -> & _)|[(Hc & a & _ & -> & _)|[(_ & -> & _)|(-> & _)]]];
    simpl; rewrite ?bump_counter_flags.
  - intros [H1 H2]. apply Hex.
    split; eapply has_flag_ldiff_mono; eassumption.
  - intros [_ H2]. rewrite has_flag_mask_lor in Hc.
    apply orb_false_iff in Hc as [Hc _].
    rewrite has_flag_lor, Hc in H2. simpl in H2.
    apply has_flag_true in H2. apply H2, (wf_initialising_initialised Hwf).
  - intros [H1 _]. rewrite has_flag_lor, has_flag_ldiff_same in H1. simpl in H1.
    apply has_flag_true in H1. apply H1.
    rewrite N.land_comm. apply (wf_initialising_initialised Hwf).
  - exact Hex.
Qed.

Lemma bump_counter_uint8 (dev : PktDevice) :
  (rolling_counter dev < 256)%N -> (rolling_counter (bump_counter dev) < 256)%N.
Proof.
  intros H. unfold bump_counter. destruct (has_flag _ _); [|exact H].
  simpl. now apply N.mod_lt.
Qed.

Lemma tick_peer_uint8 (st : State) (i : nat) (d d' : PktSerialDriver)
    (rs rs' : list N) (evs : list Event) :
  tick_peer st i d rs = Some (d', evs, rs') ->
  (address (device d) < 256)%N /\ (rolling_counter (device d) < 256)%N ->
  (address (device d') < 256)%N /\ (rolling_counter (device d') < 256)%N.
Proof.
  intros H [Ha Hc]. apply tick_peer_cases in H.
  pose proof (bump_counter_uint8 (device d) Hc) as Hb.
  destruct H as [(_ & _ & -> & _)|[(_ & a & Hp & -> & _)|[(_ & -> & _)|(-> & _)]]];
    simpl; rewrite ?bump_counter_address; try (split; assumption).
  apply pick_address_Some in Hp as (_ & r & _ & _ & _ & ->).
  split; [now apply N.mod_lt|exact Hb].
Qed.

Lemma step_exclusive (st st' : State) :
  device_flags_wf -> step st st' -> all_exclusive st -> all_exclusive st'.
Proof.
  intros Hwf Hstep Hinv k d' Hd'. destruct Hstep as [st rs st' evs rs' Hrun|st cp st' evs Hrun].
  - destruct (periodicCallback_identity _ _ _ _ _ Hrun) as (_ & _ & _ & Hthis & Hid).
    unfold driver_at in Hd'.
    destruct (drivers st' !! k) as [[| |p]|] eqn:Hk; try discriminate.
    + injection Hd' as <-. rewrite Hthis.
      destruct (Forall2_lookup_r _ _ _ _ _ Hid Hk) as ([| |q] & Hq & Hsame);
        try contradiction.
      apply (Hinv k). unfold driver_at. now rewrite Hq.
    + injection Hd' as <-.
      destruct (periodicCallback_slot_result _ _ _ _ _ _ _ Hrun Hk)
        as (d & Hd & [->|(st_k & r & e & r' & Hp)]).
      * apply (Hinv k). unfold driver_at. now rewrite Hd.
      * apply (tick_peer_exclusive _ _ _ _ _ _ _ Hwf Hp).
        apply (Hinv k). unfold driver_at. now rewrite Hd.
  - apply handlePacket_result in Hrun.
    assert (Hflags : forall i d f,
              driver_at st i = Some d ->
              (exclusive d -> exclusive (with_flags d f)) ->
              driver_at (set_driver st i (with_flags d f)) k = Some d' ->
              exclusive d').
    { intros i d f Hd Hkeep Hk.
      destruct (driver_at_with_flags _ _ _ _ _ _ Hd Hk) as (dk & Hdk & [->|[-> ->]]).
      - now apply (Hinv k).
      - apply Hkeep. now apply (Hinv i). }
    destruct Hrun as [(-> & _)|[(i & d & Hd & -> & _)|[(i & d & Hd & -> & _)
                     |(fs & -> & _)]]].
    + now apply (Hinv k).
    + refine (Hflags i d _ Hd _ Hd').
      unfold exclusive. simpl. intros _ [H1 _].
      now rewrite has_flag_ldiff_same in H1.
    + refine (Hflags i d _ Hd _ Hd').
      unfold exclusive. simpl. intros Hex [H1 H2]. apply Hex.
      rewrite has_flag_lor in H1, H2.
      rewrite (proj2 (has_flag_false _ _) (wf_cp_seen_initialising Hwf)) in H1.
      rewrite (proj2 (has_flag_false _ _) (wf_cp_seen_initialised Hwf)) in H2.
      rewrite orb_false_r in H1, H2. now split.
    + now apply (Hinv k).
Qed.

(** X9: INITIALISING and INITIALISED stay mutually exclusive.  If no driver of
    the table (the logic driver included) has both flags set, then none has
    after any sequence of ticks and inbound packets, whatever the packets and
    the random draws are. *)
Theorem exclusive_invariant (st st' : State) :
  device_flags_wf ->
  run st st' ->
  all_exclusive st -> all_exclusive st'.
Proof.
  intros Hwf Hrun. induction Hrun as [st|st st1 st' Hstep _ IH]; [auto|].
  intros Hinv. apply IH. now apply (step_exclusive st st1).
Qed.

Lemma step_uint8 (st st' : State) :
  step st st' -> uint8_fields st -> uint8_fields st'.
Proof.
  intros Hstep Hinv k d' Hk.
  destruct Hstep as [st rs st' evs rs' Hrun|st cp st' evs Hrun].
  - destruct (periodicCallback_slot_result _ _ _ _ _ _ _ Hrun Hk)
      as (d & Hd & [->|(st_k & r & e & r' & Hp)]).
    + now apply (Hinv k).
    + apply (tick_peer_uint8 _ _ _ _ _ _ _ Hp). now apply (Hinv k).
  - destruct (handlePacket_identity _ _ _ _ Hrun) as (_ & _ & Hid).
    destruct (Forall2_lookup_r _ _ _ _ _ Hid Hk) as ([| |q] & Hq & Hsi);
      try contradiction.
    destruct (handlePacket_fields _ _ _ _ k d' Hrun) as (dk & Hdk & -> & -> & _).
    { unfold driver_at. now rewrite Hk. }
    unfold driver_at in Hdk. rewrite Hq in Hdk. injection Hdk as <-.
    now apply (Hinv k).
Qed.

(** X10: the 8-bit fields stay 8-bit.  If every driver's address and rolling
    counter are below 256, they are below 256 after any sequence of ticks and
    inbound packets: the counter wraps instead of growing, and an allocated
    address is a draw reduced modulo 256. *)
Theorem uint8_invariant (st st' : State) :
  run st st' ->
  uint8_fields st -> uint8_fields st'.
Proof.
  intros Hrun. induction Hrun as [st|st st1 st' Hstep _ IH]; [auto|].
  intros Hinv. apply IH. now apply (step_uint8 st st1).
Qed.

End RunInvariants.

(** ** Packets for an address a slot holds *)

Section OwnedAddress.
Context {C : Constants}.

Lemma first_match_find (st : State) (cp : ControlPacket) (i : nat)
    (d : PktSerialDriver) :
  first_slot (fun d => address (device d) = cp_address cp) st i d ->
  find_slot (address_matches cp) st (seq 0 PKT_PROTOCOL_DRIVER_SIZE) = Some (i, d).
Proof.
  intros (Hi & Hd & Ha & Hfirst).
  apply find_slot_seq_first; [lia|exact Hd|now apply N.eqb_eq|].
  intros j dj Hj Hdj. apply N.eqb_neq. apply (Hfirst j dj); [lia|exact Hdj].
Qed.

Lemma driver_at_set_driver_eq (st : State) (i : nat) (d d2 : PktSerialDriver) :
  driver_at st i = Some d -> driver_at (set_driver st i d2) i = Some d2.
Proof.
  unfold driver_at, set_driver.
  destruct (drivers st !! i) as [[| |p]|] eqn:Hi; try discriminate; intros _; simpl.
  - now rewrite Hi.
  - now rewrite list_lookup_insert_eq by (eapply lookup_lt_Some; exact Hi).
Qed.

Lemma set_driver_same (st : State) (i : nat) (d : PktSerialDriver) :
  driver_at st i = Some d -> set_driver st i d = st.
Proof.
  unfold driver_at, set_driver.
  destruct (drivers st !! i) as [[| |p]|] eqn:Hi; try discriminate; intros [= <-].
  - now destruct st.
  - unfold set_drivers. rewrite list_insert_id by exact Hi. now destruct st.
Qed.

(** The first match stays the first match when its flags change. *)
Lemma first_match_with_flags (st : State) (cp : ControlPacket) (i : nat)
    (d : PktSerialDriver) (f : N) :
  first_slot (fun d => address (device d) = cp_address cp) st i d ->
  first_slot (fun d => address (device d) = cp_address cp)
    (set_driver st i (with_flags d f)) i (with_flags d f).
Proof.
  intros (Hi & Hd & Ha & Hfirst).
  split; [exact Hi|]. split; [now apply (driver_at_set_driver_eq st i d)|].
  split; [exact Ha|].
  intros j dj Hj Hdj.
  destruct (driver_at_with_flags _ _ _ _ _ _ Hd Hdj) as (dk & Hdk & [->|[-> ->]]).
  - now apply (Hfirst j dk).
  - simpl. now apply (Hfirst j d).
Qed.

(** The branch of step 1 that marks the owner as seen. *)
Lemma handlePacket_seen (st : State) (cp : ControlPacket) (i : nat)
    (d : PktSerialDriver) :
  first_slot (fun d => address (device d) = cp_address cp) st i d ->
  serial_number (device d) = cp_serial_number cp
  \/ has_flag (flags (device d)) PKT_DEVICE_FLAGS_INITIALISING = true ->
  has_flag (flags (device d)) PKT_DEVICE_FLAGS_INITIALISING = false
  \/ has_flag (cp_flags cp) CONTROL_PKT_FLAGS_CONFLICT = false ->
  handlePacket st cp
  = Some (set_driver st i
            (with_flags d (N.lor (flags (device d)) PKT_DEVICE_FLAGS_CP_SEEN)),
          [HandleControlPacket i cp]).
Proof.
  intros Hfirst Hown Hquiet. unfold handlePacket.
  rewrite (first_match_find st cp i d Hfirst).
  assert (H1 : negb (serial_number (device d) =? cp_serial_number cp)%N
               && negb (has_flag (flags (device d)) PKT_DEVICE_FLAGS_INITIALISING)
               = false).
  { destruct Hown as [Ho|Ho]; rewrite Ho; [now rewrite N.eqb_refl|apply andb_false_r]. }
  assert (H2 : has_flag (flags (device d)) PKT_DEVICE_FLAGS_INITIALISING
               && has_flag (cp_flags cp) CONTROL_PKT_FLAGS_CONFLICT = false).
  { destruct Hquiet as [Hq|Hq]; rewrite Hq; [reflexivity|apply andb_false_r]. }
  now rewrite H1, H2.
Qed.

(** X12: the same packet twice.  When a packet is taken by the slot that holds
    its address (same serial number, or a driver still INITIALISING, and no
    CONFLICT against an INITIALISING driver), the slot gets CP_SEEN and its
    [handleControlPacket] is called once; handling the same packet again calls
    it once more and leaves the state exactly as the first handling left it. *)
Theorem handlePacket_seen_twice (st : State) (cp : ControlPacket) (i : nat)
    (d : PktSerialDriver) :
  device_flags_wf ->
  first_slot (fun d => address (device d) = cp_address cp) st i d ->
  serial_number (device d) = cp_serial_number cp
  \/ has_flag (flags (device d)) PKT_DEVICE_FLAGS_INITIALISING = true ->
  has_flag (flags (device d)) PKT_DEVICE_FLAGS_INITIALISING = false
  \/ has_flag (cp_flags cp) CONTROL_PKT_FLAGS_CONFLICT = false ->
  exists st1,
    handlePacket st cp = Some (st1, [HandleControlPacket i cp])
    /\ driver_at st1 i
       = Some (with_flags d (N.lor (flags (device d)) PKT_DEVICE_FLAGS_CP_SEEN))
    /\ handlePacket st1 cp = Some (st1, [HandleControlPacket i cp]).
Proof.
  intros Hwf Hfirst Hown Hquiet.
  pose proof (first_match_with_flags st cp i d
                (N.lor (flags (device d)) PKT_DEVICE_FLAGS_CP_SEEN) Hfirst) as Hfirst1.
  eexists. split; [exact (handlePacket_seen st cp i d Hfirst Hown Hquiet)|].
  split; [apply Hfirst1|].
  assert (Hing : has_flag (N.lor (flags (device d)) PKT_DEVICE_FLAGS_CP_SEEN)
                   PKT_DEVICE_FLAGS_INITIALISING
                 = has_flag (flags (device d)) PKT_DEVICE_FLAGS_INITIALISING).
  { rewrite has_flag_lor.
    rewrite (proj2 (has_flag_false _ _) (wf_cp_seen_initialising Hwf)).
    apply orb_false_r. }
  rewrite (handlePacket_seen _ cp i _ Hfirst1); simpl; rewrite ?Hing;
    try assumption.
  rewrite lor_lor_same. f_equal. f_equal.
  apply set_driver_same. apply Hfirst1.
Qed.

(** X13: a contested candidate.  When the slot that holds the packet's address
    is INITIALISING and the packet carries CONFLICT, INITIALISING is cleared on
    that slot and nothing else happens: no frame, no call, the serial number
    of the packet is not looked at, every other slot, the filter and the
    counter of the slot stay as they were. *)
Theorem handlePacket_contested (st : State) (cp : ControlPacket) (i : nat)
    (d : PktSerialDriver) :
  first_slot (fun d => address (device d) = cp_address cp) st i d ->
  has_flag (flags (device d)) PKT_DEVICE_FLAGS_INITIALISING = true ->
  has_flag (cp_flags cp) CONTROL_PKT_FLAGS_CONFLICT = true ->
  exists st1,
    handlePacket st cp = Some (st1, [])
    /\ driver_at st1 i
       = Some (mk_driver d (rolling_counter (device d))
                 (N.ldiff (flags (device d)) PKT_DEVICE_FLAGS_INITIALISING))
    /\ has_flag (N.ldiff (flags (device d)) PKT_DEVICE_FLAGS_INITIALISING)
         PKT_DEVICE_FLAGS_INITIALISING = false
    /\ address_filters st1 = address_filters st
    /\ (forall k dk, driver_at st k = Some dk -> dk <> d ->
                     driver_at st1 k = Some dk).
Proof.
  intros Hfirst Hing Hc.
  assert (Hrun : handlePacket st cp
                 = Some (set_driver st i
                           (with_flags d (N.ldiff (flags (device d))
                                            PKT_DEVICE_FLAGS_INITIALISING)), [])).
  { unfold handlePacket. rewrite (first_match_find st cp i d Hfirst).
    rewrite Hing, Hc, andb_false_r. reflexivity. }
  destruct Hfirst as (Hi & Hd & _).
  eexists. split; [exact Hrun|].
  split; [now apply (driver_at_set_driver_eq st i d)|].
  split; [apply has_flag_ldiff_same|]. split.
  - unfold set_driver. destruct (drivers st !! i) as [[| |p]|]; reflexivity.
  - intros k dk Hdk Hne. unfold driver_at, set_driver in *.
    destruct (drivers st !! i) as [[| |p]|] eqn:Hsi; try discriminate; simpl.
    + injection Hd as <-.
      destruct (drivers st !! k) as [[| |q]|]; try discriminate; [congruence|exact Hdk].
    + injection Hd as <-. destruct (decide (k = i)) as [->|Hki].
      * rewrite Hsi in Hdk. congruence.
      * now rewrite list_lookup_insert_ne by congruence.
Qed.

(** X14: a packet that nobody takes.  A packet that matches no slot by
    address, does not enter the filter (not PAIRED, or already reported), does
    not carry BROADCAST, and finds no REMOTE slot of its class waiting for its
    serial number is dropped: the state is unchanged and there is no event. *)
Theorem handlePacket_drops (st : State) (cp : ControlPacket) (filtered : bool) :
  no_address_match st cp ->
  filterPacket (address_filters st) (cp_address cp) = Some filtered ->
  has_flag (cp_flags cp) CONTROL_PKT_FLAGS_PAIRED = false \/ filtered = true ->
  has_flag (cp_flags cp) CONTROL_PKT_FLAGS_BROADCAST = false ->
  (forall i d, i < PKT_PROTOCOL_DRIVER_SIZE -> driver_at st i = Some d ->
               ~ association_target cp d) ->
  handlePacket st cp = Some (st, []).
Proof.
  intros Hno Hf Hp Hb Hnone. unfold handlePacket.
  rewrite (no_address_match_find st cp Hno), Hf. simpl.
  replace (has_flag (cp_flags cp) CONTROL_PKT_FLAGS_PAIRED && negb filtered)
    with false by (destruct Hp as [Hp|Hp]; rewrite Hp; [reflexivity|now rewrite andb_false_r]).
  rewrite Hb, andb_false_r.
  destruct (find_slot (remote_candidate cp) st _) as [[i d]|] eqn:Hfind;
    [|reflexivity].
  apply find_slot_seq_inv in Hfind as (Hi & Hd & Hc & _).
  exfalso. apply (Hnone i d); [lia|exact Hd|now apply remote_candidate_spec].
Qed.

End OwnedAddress.

(** ** A tick seen from one slot *)

Section SlotView.
Context {C : Constants}.

Lemma events_of_app (i : nat) (l1 l2 : list Event) :
  events_of i (l1 ++ l2) = events_of i l1 ++ events_of i l2.
Proof. unfold events_of. apply filter_app. Qed.

Lemma events_of_other (i : nat) (evs : list Event) :
  Forall (fun e => event_slot e <> Some i) evs -> events_of i evs = [].
Proof.
  unfold events_of. induction 1 as [|e evs He _ IH]; [reflexivity|].
  now rewrite filter_cons_False.
Qed.

Lemma events_of_own (i : nat) (evs : list Event) :
  Forall (fun e => event_slot e = Some i) evs -> events_of i evs = evs.
Proof.
  unfold events_of. induction 1 as [|e evs He _ IH]; [reflexivity|].
  rewrite filter_cons_True by exact He. now rewrite IH.
Qed.

(** One tick with the bus running, seen from slot [i]: the loop body runs once
    on the driver the slot held, against the table as the earlier slots left
    it, and the calls on the slot are the ones the body makes. *)
Lemma tick_at_slot (st st' : State) (rs rs' : list N) (evs : list Event)
    (i : nat) (d : PktSerialDriver) :
  bus_running st = true ->
  i < PKT_PROTOCOL_DRIVER_SIZE ->
  drivers st !! i = Some (Peer d) ->
  periodicCallback st rs = Some (st', evs, rs') ->
  exists st_i e_pre r_i d' e_i r_i',
    tick_slots (seq 0 i) st rs = Some (st_i, e_pre, r_i)
    /\ tick_peer st_i i d r_i = Some (d', e_i, r_i')
    /\ drivers st' !! i = Some (Peer d')
    /\ events_of i evs = e_i
    /\ bus_running st' = true.
Proof.
  intros Hbus Hi Hd Hrun. unfold periodicCallback in Hrun.
  rewrite Hbus in Hrun. simpl in Hrun.
  destruct (tick_slots_frame _ _ _ _ _ _ Hrun) as (Hb & _).
  destruct (tick_slots_at _ _ _ _ _ _ _ _ Hi Hd Hrun)
    as (st_i & e_pre & r_i & d' & e_i & r_i' & e_post
        & Hpre & Hp & Hd' & -> & Hev1 & Hev2).
  exists st_i, e_pre, r_i, d', e_i, r_i'.
  split; [exact Hpre|]. split; [exact Hp|]. split; [exact Hd'|].
  split; [|congruence].
  rewrite !events_of_app, (events_of_other i e_pre Hev1),
    (events_of_other i e_post Hev2), app_nil_r. simpl.
  apply events_of_own. exact (tick_peer_events _ _ _ _ _ _ _ Hp).
Qed.

(** The body on a LOCAL driver that is not REMOTE and holds or announces an
    address. *)
Lemma tick_peer_local_claimed (st : State) (i : nat) (d : PktSerialDriver)
    (rs : list N) :
  has_flag (flags (device d)) PKT_DEVICE_FLAGS_LOCAL = true ->
  has_flag (flags (device d)) PKT_DEVICE_FLAGS_REMOTE = false ->
  claimed d ->
  tick_peer st i d rs
  = let c := ((rolling_counter (device d) + 1) mod 256)%N in
    let f := flags (device d) in
    if has_flag f PKT_DEVICE_FLAGS_INITIALISING then
      if (c =? PKT_LOGIC_ADDRESS_ALLOC_TIME)%N then
        let d' := mk_driver d c
                    (N.lor (N.ldiff f PKT_DEVICE_FLAGS_INITIALISING)
                       PKT_DEVICE_FLAGS_INITIALISED) in
        Some (d', [DeviceConnected i (device d')], rs)
      else Some (mk_driver d c f, [], rs)
    else
      Some (mk_driver d c f,
            if (0 <? c)%N && (c mod PKT_LOGIC_DRIVER_CTRLPACKET_TIME =? 0)%N
            then [QueueControlPacket i] else [],
            rs).
Proof.
  intros Hl Hr Hc. unfold claimed in Hc. unfold tick_peer, bump_counter.
  rewrite Hc. simpl. rewrite Hr, Hl, Hc. simpl.
  destruct (has_flag (flags (device d)) PKT_DEVICE_FLAGS_INITIALISING) eqn:Hing.
  - destruct (_ =? PKT_LOGIC_ADDRESS_ALLOC_TIME)%N; reflexivity.
  - rewrite has_flag_mask_lor, Hing, orb_false_r in Hc. rewrite Hc. reflexivity.
Qed.

(** X15: an INITIALISED local driver.  In a tick with the bus running, a LOCAL
    driver that is INITIALISED (not INITIALISING, not REMOTE) keeps its
    address and flags, its counter advances by one modulo 256, and
    [queueControlPacket] is called on it once if the new counter value is not
    0 and is a multiple of the control-packet period, and not at all
    otherwise; in particular it is not called in the tick in which the counter
    wraps to 0. *)
Theorem periodicCallback_initialised_slot (st st' : State) (rs rs' : list N)
    (evs : list Event) (i : nat) (d : PktSerialDriver) :
  bus_running st = true ->
  i < PKT_PROTOCOL_DRIVER_SIZE ->
  drivers st !! i = Some (Peer d) ->
  has_flag (flags (device d)) PKT_DEVICE_FLAGS_LOCAL = true ->
  has_flag (flags (device d)) PKT_DEVICE_FLAGS_REMOTE = false ->
  has_flag (flags (device d)) PKT_DEVICE_FLAGS_INITIALISED = true ->
  has_flag (flags (device d)) PKT_DEVICE_FLAGS_INITIALISING = false ->
  periodicCallback st rs = Some (st', evs, rs') ->
  let c := ((rolling_counter (device d) + 1) mod 256)%N in
  drivers st' !! i = Some (Peer (mk_driver d c (flags (device d))))
  /\ events_of i evs
     = (if (0 <? c)%N && (c mod PKT_LOGIC_DRIVER_CTRLPACKET_TIME =? 0)%N
        then [QueueControlPacket i] else []).
Proof.
  intros Hbus Hi Hd Hl Hr Hinit Hing Hrun c.
  destruct (tick_at_slot _ _ _ _ _ _ _ Hbus Hi Hd Hrun)
    as (st_i & e_pre & r_i & d' & e_i & r_i' & _ & Hp & Hd' & Hev & _).
  rewrite tick_peer_local_claimed in Hp;
    [|exact Hl|exact Hr|now apply initialised_claimed].
  cbv zeta in Hp. rewrite Hing in Hp. injection Hp as <- <- _.
  split; [exact Hd'|exact Hev].
Qed.

End SlotView.

(** ** From announcement to ownership *)

Section Arbitration.
Context {C : Constants}.

(** X16: the silence window.  A LOCAL driver (not REMOTE) that is INITIALISING
    with counter [c] stays untouched but for its counter, with no call on it,
    through every tick in which the advanced counter differs from the
    allocation time; in the first tick in which [(c + n) mod 256] equals the
    allocation time INITIALISING is replaced by INITIALISED and
    [deviceConnected] is called on it once, with its record: same address and
    serial number, the counter at the allocation time. *)
Theorem initialised_after_silence (n : nat) (st st' : State) (rs rs' : list N)
    (tr : list (list Event)) (i : nat) (d : PktSerialDriver) :
  bus_running st = true ->
  i < PKT_PROTOCOL_DRIVER_SIZE ->
  drivers st !! i = Some (Peer d) ->
  has_flag (flags (device d)) PKT_DEVICE_FLAGS_LOCAL = true ->
  has_flag (flags (device d)) PKT_DEVICE_FLAGS_REMOTE = false ->
  has_flag (flags (device d)) PKT_DEVICE_FLAGS_INITIALISING = true ->
  0 < n ->
  (forall k, 0 < k < n ->
     ((rolling_counter (device d) + N.of_nat k) mod 256)%N
     <> PKT_LOGIC_ADDRESS_ALLOC_TIME) ->
  ((rolling_counter (device d) + N.of_nat n) mod 256)%N
  = PKT_LOGIC_ADDRESS_ALLOC_TIME ->
  ticks n st rs = Some (st', tr, rs') ->
  let d' := mk_driver d PKT_LOGIC_ADDRESS_ALLOC_TIME
              (N.lor (N.ldiff (flags (device d)) PKT_DEVICE_FLAGS_INITIALISING)
                 PKT_DEVICE_FLAGS_INITIALISED) in
  drivers st' !! i = Some (Peer d')
  /\ (forall k evs, tr !! k = Some evs ->
        events_of i evs
        = if decide (S k = n) then [DeviceConnected i (device d')] else []).
Proof.
  revert st rs tr d.
  induction n as [|m IH];
    intros st rs tr d Hbus Hi Hd Hl Hr Hing Hn Hwait Hend Hrun d'; [lia|].
  simpl in Hrun.
  destruct (periodicCallback st rs) as [[[st1 evs1] rs1]|] eqn:Hstep;
    [|discriminate].
  simpl in Hrun.
  destruct (ticks m st1 rs1) as [[[st2 tr1] rs2]|] eqn:Hrest; [|discriminate].
  simpl in Hrun. injection Hrun as <- <- <-.
  destruct (tick_at_slot _ _ _ _ _ _ _ Hbus Hi Hd Hstep)
    as (st_i & e_pre & r_i & d1 & e_i & r_i' & _ & Hp & Hd1 & Hev & Hbus1).
  rewrite tick_peer_local_claimed in Hp; [|exact Hl|exact Hr|].
  2:{ unfold claimed. rewrite has_flag_mask_lor, Hing. apply orb_true_r. }
  cbv zeta in Hp. rewrite Hing in Hp.
  destruct m as [|m'].
  - (* the window ends in this tick *)
    change (N.of_nat 1) with 1%N in Hend. rewrite Hend, N.eqb_refl in Hp.
    injection Hp as <- <- _. simpl in Hrest. injection Hrest as <- <- <-.
    split; [exact Hd1|].
    intros [|k] evs Hk; simpl in Hk; [|discriminate].
    injection Hk as <-. rewrite Hev. now rewrite decide_True by reflexivity.
  - (* one more tick of silence *)
    assert (Hne : ((rolling_counter (device d) + 1) mod 256)%N
                  <> PKT_LOGIC_ADDRESS_ALLOC_TIME).
    { apply (Hwait 1). lia. }
    apply N.eqb_neq in Hne. rewrite Hne in Hp. injection Hp as <- <- _.
    assert (Hshift : forall k,
              (((rolling_counter (device d) + 1) mod 256 + N.of_nat k) mod 256)%N
              = ((rolling_counter (device d) + N.of_nat (S k)) mod 256)%N).
    { intros k. rewrite N.Div0.add_mod_idemp_l. f_equal. lia. }
    destruct (IH st1 rs1 tr1
                (mk_driver d ((rolling_counter (device d) + 1) mod 256)%N
                   (flags (device d)))
                Hbus1 Hi Hd1 Hl Hr Hing) as [Hfin Hevs]; try (simpl; lia).
    + intros k Hk. simpl. rewrite Hshift. apply Hwait. lia.
    + simpl. rewrite Hshift. exact Hend.
    + exact Hrest.
    + split; [exact Hfin|].
      intros [|k] evs Hk; simpl in Hk.
      * injection Hk as <-. rewrite Hev. now rewrite decide_False by lia.
      * rewrite (Hevs k evs Hk). simpl.
        destruct (decide (S k = S m')), (decide (S (S k) = S (S m')));
          try reflexivity; lia.
Qed.

(** X17: a contested driver draws again.  When an INITIALISING local driver
    (not yet INITIALISED, not REMOTE) loses its candidate to a CONFLICT packet,
    the packet causes no event, and the next tick with the bus running gives
    the slot a new address below 256, sets INITIALISING again and calls
    [queueControlPacket] on it once; the rolling counter keeps the value it
    had when the packet arrived. *)
Theorem conflict_then_tick_reallocates (st st1 st2 : State) (cp : ControlPacket)
    (evs1 evs2 : list Event) (rs rs' : list N) (i : nat) (d : PktSerialDriver) :
  N.land PKT_DEVICE_FLAGS_INITIALISING PKT_DEVICE_FLAGS_LOCAL = 0%N ->
  bus_running st = true ->
  drivers st !! i = Some (Peer d) ->
  first_slot (fun d => address (device d) = cp_address cp) st i d ->
  has_flag (flags (device d)) PKT_DEVICE_FLAGS_LOCAL = true ->
  has_flag (flags (device d)) PKT_DEVICE_FLAGS_REMOTE = false ->
  has_flag (flags (device d)) PKT_DEVICE_FLAGS_INITIALISING = true ->
  has_flag (flags (device d)) PKT_DEVICE_FLAGS_INITIALISED = false ->
  has_flag (cp_flags cp) CONTROL_PKT_FLAGS_CONFLICT = true ->
  handlePacket st cp = Some (st1, evs1) ->
  periodicCallback st1 rs = Some (st2, evs2, rs') ->
  evs1 = []
  /\ exists a,
       (a < 256)%N
       /\ drivers st2 !! i
          = Some (Peer
                    {| device :=
                         {| address := a;
                            rolling_counter := rolling_counter (device d);
                            flags :=
                              N.lor (N.ldiff (flags (device d))
                                       PKT_DEVICE_FLAGS_INITIALISING)
                                PKT_DEVICE_FLAGS_INITIALISING;
                            serial_number := serial_number (device d) |};
                       driver_class := driver_class d |})
       /\ events_of i evs2 = [QueueControlPacket i].
Proof.
  intros Hdisj Hbus Hd Hfirst Hl Hr Hing Hinit Hc Hpkt Htick.
  assert (Hi : i < PKT_PROTOCOL_DRIVER_SIZE) by apply Hfirst.
  unfold handlePacket in Hpkt.
  rewrite (first_match_find st cp i d Hfirst), Hing, Hc, andb_false_r in Hpkt.
  simpl in Hpkt. unfold set_driver in Hpkt. rewrite Hd in Hpkt.
  injection Hpkt as <- <-. split; [reflexivity|].
  set (d1 := set_device d
               (set_flags (device d)
                  (N.ldiff (flags (device d)) PKT_DEVICE_FLAGS_INITIALISING))) in *.
  assert (Hd1 : drivers (set_drivers st (<[i:=Peer d1]> (drivers st))) !! i
                = Some (Peer d1)).
  { simpl. apply list_lookup_insert_eq. eapply lookup_lt_Some. exact Hd. }
  destruct (tick_at_slot (set_drivers st (<[i:=Peer d1]> (drivers st)))
              st2 rs rs' evs2 i d1 Hbus Hi Hd1 Htick)
    as (st_i & e_pre & r_i & d2 & e_i & r_i' & _ & Hp & Hd2 & Hev & _).
  rewrite tick_peer_allocates in Hp.
  - destruct (pick_address st_i i r_i) as [[a rest]|] eqn:Hpick; [|discriminate].
    simpl in Hp. injection Hp as <- <- _.
    apply pick_address_Some in Hpick as (_ & r & _ & _ & _ & ->).
    exists (r mod 256)%N. split; [now apply N.mod_lt|].
    split; [exact Hd2|exact Hev].
  - subst d1. simpl. now rewrite has_flag_ldiff_disjoint.
  - subst d1. simpl. rewrite has_flag_mask_lor, has_flag_ldiff_same, orb_false_r.
    apply not_true_is_false. intros H. apply has_flag_ldiff_mono in H. congruence.
  - subst d1. simpl.
    replace (has_flag (N.ldiff (flags (device d)) PKT_DEVICE_FLAGS_INITIALISING)
               PKT_DEVICE_FLAGS_REMOTE) with false; [reflexivity|].
    symmetry. apply not_true_is_false. intros H.
    apply has_flag_ldiff_mono in H. congruence.
Qed.

(** X18: an address the logic driver holds is never handed out.  When the
    logic driver sits in a slot of the table and is INITIALISED, the address a
    tick allocates to a local driver differs from the logic driver's own; as
    the constructor puts the logic driver at address 0, no local driver is
    given address 0 while the logic driver is registered. *)
Theorem allocation_avoids_logic_driver (st st' : State) (rs rs' : list N)
    (evs : list Event) (i j : nat) (d : PktSerialDriver) :
  bus_running st = true ->
  i < PKT_PROTOCOL_DRIVER_SIZE ->
  drivers st !! i = Some (Peer d) ->
  has_flag (flags (device d)) PKT_DEVICE_FLAGS_LOCAL = true ->
  has_flag (flags (device d))
    (N.lor PKT_DEVICE_FLAGS_INITIALISED PKT_DEVICE_FLAGS_INITIALISING) = false ->
  has_flag (flags (device d)) PKT_DEVICE_FLAGS_REMOTE
  && (rolling_counter (device d) =? PKT_LOGIC_DRIVER_TIMEOUT)%N = false ->
  j < PKT_PROTOCOL_DRIVER_SIZE ->
  drivers st !! j = Some This ->
  initialised (this_driver st) ->
  periodicCallback st rs = Some (st', evs, rs') ->
  exists d', drivers st' !! i = Some (Peer d')
             /\ address (device d') <> address (device (this_driver st))
             /\ this_driver st' = this_driver st.
Proof.
  intros Hbus Hi Hd Hl Hc Hr Hj Hthis Hinit Hrun.
  destruct (tick_at_slot _ _ _ _ _ _ _ Hbus Hi Hd Hrun)
    as (st_i & e_pre & r_i & d' & e_i & r_i' & Hpre & Hp & Hd' & _ & _).
  destruct (tick_slots_frame _ _ _ _ _ _ Hpre) as (_ & Ht & _ & _ & _ & Hkind & _).
  specialize (Hkind j). rewrite Hthis in Hkind.
  rewrite (tick_peer_allocates st_i i d r_i Hl Hc Hr) in Hp.
  destruct (pick_address st_i i r_i) as [[a rest]|] eqn:Hpick; [|discriminate].
  simpl in Hp. injection Hp as <- _ _.
  apply pick_address_Some in Hpick as (_ & r & _ & _ & Hfree & ->).
  exists (set_device d
            {| address := (r mod 256)%N;
               rolling_counter := rolling_counter (device d);
               flags := N.lor (flags (device d)) PKT_DEVICE_FLAGS_INITIALISING;
               serial_number := serial_number (device d) |}).
  split; [exact Hd'|]. split.
  - simpl. intros Heq.
    apply (proj1 (still_allocated_false st_i i (r mod 256)%N) Hfree j
             (this_driver st_i)); try assumption.
    + intros ->. congruence.
    + unfold driver_at. now rewrite Hkind.
    + now rewrite Ht.
    + now rewrite Ht.
  - destruct (periodicCallback_identity _ _ _ _ _ Hrun) as (_ & _ & _ & H & _).
    exact H.
Qed.

End Arbitration.

(** ** A packet and the timeout test *)

Section Seen.
Context {C : Constants}.

(** X19: a control packet keeps a REMOTE driver connected through the next
    timeout test.  When the slot of a REMOTE driver takes a packet (same
    serial number), CP_SEEN is set, and in the following tick with the bus
    running no method is called on the slot, [deviceRemoved] in particular,
    whether or not the counter equals the timeout in that tick; afterwards the
    slot has CP_SEEN clear if the counter did equal the timeout, and set
    otherwise. *)
Theorem control_packet_defers_removal (st st1 st2 : State) (cp : ControlPacket)
    (evs1 evs2 : list Event) (rs rs' : list N) (i : nat) (d : PktSerialDriver) :
  PKT_DEVICE_FLAGS_CP_SEEN <> 0%N ->
  N.land PKT_DEVICE_FLAGS_CP_SEEN PKT_DEVICE_FLAGS_LOCAL = 0%N ->
  bus_running st = true ->
  drivers st !! i = Some (Peer d) ->
  first_slot (fun d => address (device d) = cp_address cp) st i d ->
  has_flag (flags (device d)) PKT_DEVICE_FLAGS_REMOTE = true ->
  has_flag (flags (device d)) PKT_DEVICE_FLAGS_LOCAL = false ->
  serial_number (device d) = cp_serial_number cp ->
  has_flag (flags (device d)) PKT_DEVICE_FLAGS_INITIALISING = false
  \/ has_flag (cp_flags cp) CONTROL_PKT_FLAGS_CONFLICT = false ->
  handlePacket st cp = Some (st1, evs1) ->
  periodicCallback st1 rs = Some (st2, evs2, rs') ->
  evs1 = [HandleControlPacket i cp]
  /\ events_of i evs2 = []
  /\ exists d2, drivers st2 !! i = Some (Peer d2)
                /\ has_flag (flags (device d2)) PKT_DEVICE_FLAGS_CP_SEEN
                   = negb (rolling_counter (device d2)
                           =? PKT_LOGIC_DRIVER_TIMEOUT)%N.
Proof.
  intros Hnz Hdisj Hbus Hd Hfirst Hr Hl Hs Hquiet Hpkt Htick.
  assert (Hi : i < PKT_PROTOCOL_DRIVER_SIZE) by apply Hfirst.
  rewrite (handlePacket_seen st cp i d Hfirst (or_introl Hs) Hquiet) in Hpkt.
  unfold set_driver in Hpkt. rewrite Hd in Hpkt. injection Hpkt as <- <-.
  split; [reflexivity|].
  set (d1 := with_flags d (N.lor (flags (device d)) PKT_DEVICE_FLAGS_CP_SEEN)) in *.
  assert (Hd1 : drivers (set_drivers st (<[i:=Peer d1]> (drivers st))) !! i
                = Some (Peer d1)).
  { simpl. apply list_lookup_insert_eq. eapply lookup_lt_Some. exact Hd. }
  assert (Hseen : has_flag (flags (device d1)) PKT_DEVICE_FLAGS_CP_SEEN = true).
  { subst d1. simpl. rewrite has_flag_lor, (has_flag_self _ Hnz). apply orb_true_r. }
  destruct (tick_at_slot (set_drivers st (<[i:=Peer d1]> (drivers st)))
              st2 rs rs' evs2 i d1 Hbus Hi Hd1 Htick)
    as (st_i & e_pre & r_i & d2 & e_i & r_i' & _ & Hp & Hd2 & Hev & _).
  rewrite tick_peer_remote in Hp.
  - cbv zeta in Hp. rewrite bump_counter_flags, Hseen in Hp.
    destruct (rolling_counter (bump_counter (device d1))
              =? PKT_LOGIC_DRIVER_TIMEOUT)%N eqn:Ht;
      injection Hp as <- <- _; (split; [exact Hev|]);
      eexists; (split; [exact Hd2|]); subst d1; simpl in *.
    + rewrite Ht. apply has_flag_ldiff_same.
    + rewrite Ht, bump_counter_flags. exact Hseen.
  - subst d1. simpl. rewrite has_flag_lor, Hr. reflexivity.
  - subst d1. simpl. rewrite has_flag_lor, Hl.
    now rewrite (proj2 (has_flag_false _ _) Hdisj).
Qed.

End Seen.

(** ** The further properties on concrete tables *)

Lemma filterPacket_spec_witness :
  @PKT_PROTOCOL_DRIVER_SIZE sample_constants <= length s6_two_addresses
  /\ exists b, @filterPacket sample_constants s6_two_addresses 9 = Some b
               /\ (b = true <->
                   9%N <> 0%N
                   /\ exists i, i < @PKT_PROTOCOL_DRIVER_SIZE sample_constants
                                /\ s6_two_addresses !! i = Some 9%N).
Proof.
  split; [vm_compute; lia|].
  apply (@filterPacket_spec sample_constants s6_two_addresses 9).
  vm_compute. lia.
Defined.

Lemma paired_packet_is_filtered_afterwards_witness :
  exists st',
    @handlePacket sample_constants two_filtered_state paired_from_11
    = Some (st', [])
    /\ drivers st' = drivers two_filtered_state
    /\ this_driver st' = this_driver two_filtered_state
    /\ @filterPacket sample_constants (address_filters st') 11 = Some true.
Proof.
  apply (@paired_packet_is_filtered_afterwards sample_constants
           two_filtered_state paired_from_11 2);
    try reflexivity.
  - no_match_here.
  - discriminate.
  - vm_compute. lia.
Defined.

Lemma paired_packet_dropped_when_full_witness :
  @filterPacket sample_constants (address_filters s6_filtered_state) 9 = Some false
  /\ @handlePacket sample_constants s6_filtered_state paired_from_9
     = Some (s6_filtered_state, []).
Proof.
  split; [reflexivity|].
  apply (@paired_packet_dropped_when_full sample_constants
           s6_filtered_state paired_from_9);
    try reflexivity.
  - no_match_here.
  - intros H. apply elem_of_replicate in H as [H _]. discriminate H.
Defined.

Lemma broadcast_packet_clears_filter_witness :
  exists st' evs,
    @handlePacket sample_constants s6_filtered_state broadcast_from_5
    = Some (st', evs)
    /\ drivers st' = drivers s6_filtered_state
    /\ (address_filters st'
        = (fun f => if (f =? 5)%N then 0%N else f)
            <$> address_filters s6_filtered_state)
    /\ (5%N ∉ address_filters st')
    /\ (forall i d,
           @first_slot sample_constants
             (@association_target sample_constants broadcast_from_5)
             s6_filtered_state i d ->
           evs = [DeviceConnected i (device_of_packet broadcast_from_5)])
    /\ ((forall i d, i < @PKT_PROTOCOL_DRIVER_SIZE sample_constants ->
                     driver_at s6_filtered_state i = Some d ->
                     ~ @association_target sample_constants broadcast_from_5 d) ->
        evs = []).
Proof.
  apply (@broadcast_packet_clears_filter sample_constants
           s6_filtered_state broadcast_from_5);
    try reflexivity.
  no_match_here.
Defined.

Lemma periodicCallback_frame_witness :
  @periodicCallback sample_constants contested_state [12]%N
  = Some (reallocated_state, [QueueControlPacket 1], [])
  /\ address_filters reallocated_state = address_filters contested_state
  /\ this_driver reallocated_state = this_driver contested_state
  /\ Forall2 same_identity (drivers contested_state) (drivers reallocated_state).
Proof.
  split; [reflexivity|].
  destruct (@periodicCallback_frame sample_constants contested_state
              reallocated_state [12]%N [] [QueueControlPacket 1] eq_refl)
    as (_ & _ & Hf & Ht & Hid & _).
  now repeat split.
Defined.

(** From two announcing drivers to the re-allocated table: one packet, one
    tick. *)
Lemma sample_run :
  @run sample_constants both_announcing reallocated_state.
Proof.
  eapply run_more; [eapply (@step_packet sample_constants _ conflict_on_7)|].
  { reflexivity. }
  eapply run_more; [eapply (@step_tick sample_constants _ [12]%N)|apply run_done].
  reflexivity.
Qed.

Lemma exclusive_invariant_witness :
  @all_exclusive sample_constants both_announcing
  /\ @all_exclusive sample_constants reallocated_state.
Proof.
  assert (H : @all_exclusive sample_constants both_announcing)
    by all_exclusive_here.
  split; [exact H|].
  exact (@exclusive_invariant sample_constants both_announcing reallocated_state
           sample_flags_wf sample_run H).
Defined.

Lemma uint8_invariant_witness :
  uint8_fields both_announcing /\ uint8_fields reallocated_state.
Proof.
  assert (H : uint8_fields both_announcing) by uint8_fields_here.
  split; [exact H|].
  exact (@uint8_invariant sample_constants both_announcing reallocated_state
           sample_run H).
Defined.

Lemma handlePacket_seen_twice_witness :
  exists st1,
    @handlePacket sample_constants s5_state s5_own_packet
    = Some (st1, [HandleControlPacket 1 s5_own_packet])
    /\ driver_at st1 1
       = Some (with_flags
                 {| device := mk_device 12 3 0x8080 0xAAAA; driver_class := 1 |}
                 (N.lor 0x8080 (@PKT_DEVICE_FLAGS_CP_SEEN sample_constants)))
    /\ @handlePacket sample_constants st1 s5_own_packet
       = Some (st1, [HandleControlPacket 1 s5_own_packet]).
Proof.
  apply (@handlePacket_seen_twice sample_constants s5_state s5_own_packet 1
           {| device := mk_device 12 3 0x8080 0xAAAA; driver_class := 1 |}
           sample_flags_wf).
  - first_match_here.
  - left. reflexivity.
  - left. reflexivity.
Defined.

Lemma handlePacket_contested_witness :
  @handlePacket sample_constants both_announcing conflict_on_7
  = Some (contested_state, [])
  /\ exists st1,
       @handlePacket sample_constants both_announcing conflict_on_7
       = Some (st1, [])
       /\ driver_at st1 1
          = Some (mk_driver
                    {| device := mk_device 7 50 0x8040 0xAAAA; driver_class := 1 |}
                    50 (N.ldiff 0x8040
                          (@PKT_DEVICE_FLAGS_INITIALISING sample_constants)))
       /\ has_flag (N.ldiff 0x8040
                      (@PKT_DEVICE_FLAGS_INITIALISING sample_constants))
            (@PKT_DEVICE_FLAGS_INITIALISING sample_constants) = false
       /\ address_filters st1 = address_filters both_announcing
       /\ (forall k dk, driver_at both_announcing k = Some dk ->
             dk <> {| device := mk_device 7 50 0x8040 0xAAAA; driver_class := 1 |} ->
             driver_at st1 k = Some dk).
Proof.
  split; [reflexivity|].
  apply (@handlePacket_contested sample_constants both_announcing conflict_on_7 1
           {| device := mk_device 7 50 0x8040 0xAAAA; driver_class := 1 |});
    try reflexivity.
  first_match_here.
Defined.

Lemma handlePacket_drops_witness :
  @filterPacket sample_constants (address_filters s5_state) 7 = Some false
  /\ @handlePacket sample_constants s5_state s3_packet = Some (s5_state, []).
Proof.
  split; [reflexivity|].
  apply (@handlePacket_drops sample_constants s5_state s3_packet false);
    try reflexivity.
  - no_match_here.
  - left. reflexivity.
  - intros i d Hi Hd (Hr & _). each_slot i Hd; vm_compute in Hr; discriminate Hr.
Defined.

Lemma periodicCallback_initialised_slot_witness :
  @periodicCallback sample_constants beacon_due []
  = Some (beacon_sent, [QueueControlPacket 1], [])
  /\ drivers beacon_sent !! 1
     = Some (Peer (mk_driver
                     {| device := mk_device 12 111 0x8080 0xAAAA;
                        driver_class := 1 |}
                     ((111 + 1) mod 256)%N 0x8080))
  /\ @events_of 1 [QueueControlPacket 1]
     = (if (0 <? (111 + 1) mod 256)%N
           && ((111 + 1) mod 256
               mod @PKT_LOGIC_DRIVER_CTRLPACKET_TIME sample_constants =? 0)%N
        then [QueueControlPacket 1] else []).
Proof.
  split; [reflexivity|].
  apply (@periodicCallback_initialised_slot sample_constants beacon_due
           beacon_sent [] [] [QueueControlPacket 1] 1
           {| device := mk_device 12 111 0x8080 0xAAAA; driver_class := 1 |});
    try reflexivity.
  vm_compute. lia.
Defined.

Lemma initialised_after_silence_witness :
  @ticks sample_constants 2 window_closing []
  = Some (window_closed,
          [[]; [DeviceConnected 1 (mk_device 12 254 0x8080 0xAAAA)]], [])
  /\ drivers window_closed !! 1
     = Some (Peer (mk_driver
                     {| device := mk_device 12 252 0x8040 0xAAAA;
                        driver_class := 1 |}
                     (@PKT_LOGIC_ADDRESS_ALLOC_TIME sample_constants)
                     (N.lor (N.ldiff 0x8040
                               (@PKT_DEVICE_FLAGS_INITIALISING sample_constants))
                        (@PKT_DEVICE_FLAGS_INITIALISED sample_constants)))).
Proof.
  split; [reflexivity|].
  apply (@initialised_after_silence sample_constants 2 window_closing
           window_closed [] []
           [[]; [DeviceConnected 1 (mk_device 12 254 0x8080 0xAAAA)]] 1
           {| device := mk_device 12 252 0x8040 0xAAAA; driver_class := 1 |});
    try reflexivity.
  - vm_compute. lia.
  - lia.
  - intros k Hk. assert (k = 1) as -> by lia. vm_compute. discriminate.
Defined.

Lemma conflict_then_tick_reallocates_witness :
  @handlePacket sample_constants both_announcing conflict_on_7
  = Some (contested_state, [])
  /\ @periodicCallback sample_constants contested_state [12]%N
     = Some (reallocated_state, [QueueControlPacket 1], [])
  /\ exists a,
       (a < 256)%N
       /\ drivers reallocated_state !! 1
          = Some (Peer
                    {| device :=
                         {| address := a; rolling_counter := 50;
                            flags :=
                              N.lor (N.ldiff 0x8040
                                       (@PKT_DEVICE_FLAGS_INITIALISING
                                          sample_constants))
                                (@PKT_DEVICE_FLAGS_INITIALISING sample_constants);
                            serial_number := 0xAAAA |};
                       driver_class := 1 |})
       /\ @events_of 1 [QueueControlPacket 1] = [QueueControlPacket 1].
Proof.
  split; [reflexivity|]. split; [reflexivity|].
  apply (@conflict_then_tick_reallocates sample_constants both_announcing
           contested_state reallocated_state conflict_on_7 []
           [QueueControlPacket 1] [12]%N [] 1
           {| device := mk_device 7 50 0x8040 0xAAAA; driver_class := 1 |});
    try reflexivity.
  first_match_here.
Defined.

Lemma allocation_avoids_logic_driver_witness :
  exists d', drivers reallocated_state !! 1 = Some (Peer d')
             /\ address (device d') <> address (device (this_driver contested_state))
             /\ this_driver reallocated_state = this_driver contested_state.
Proof.
  apply (@allocation_avoids_logic_driver sample_constants contested_state
           reallocated_state [12]%N [] [QueueControlPacket 1] 1 0
           {| device := mk_device 7 50 0x8000 0xAAAA; driver_class := 1 |});
    try reflexivity.
  - vm_compute. lia.
  - vm_compute. lia.
Defined.

Lemma control_packet_defers_removal_witness :
  @handlePacket sample_constants s4_connected s4_last_packet
  = Some (s4_seen, [HandleControlPacket 1 s4_last_packet])
  /\ @periodicCallback sample_constants s4_seen [] = Some (s4_seen_next, [], [])
  /\ @events_of 1 [] = []
  /\ exists d2, drivers s4_seen_next !! 1 = Some (Peer d2)
                /\ has_flag (flags (device d2))
                     (@PKT_DEVICE_FLAGS_CP_SEEN sample_constants)
                   = negb (rolling_counter (device d2)
                           =? @PKT_LOGIC_DRIVER_TIMEOUT sample_constants)%N.
Proof.
  split; [reflexivity|]. split; [reflexivity|].
  destruct (@control_packet_defers_removal sample_constants s4_connected s4_seen
              s4_seen_next s4_last_packet [HandleControlPacket 1 s4_last_packet]
              [] [] [] 1
              {| device := mk_device 7 0 0x4080 0xDEADBEEF; driver_class := 7 |})
    as (_ & He & Hd); try reflexivity.
  - discriminate.
  - first_match_here.
  - left. reflexivity.
  - split; [exact He|exact Hd].
Defined.

(** ** What a run can do to a driver's flags and address *)

Section FlagsAlongRuns.
Context {C : Constants}.

Lemma tick_peer_slot_step (st : State) (i : nat) (d d' : PktSerialDriver)
    (rs rs' : list N) (evs : list Event) :
  tick_peer st i d rs = Some (d', evs, rs') -> slot_step d d'.
Proof.
  intros H. apply tick_peer_cases in H. unfold slot_step. cbv zeta.
  rewrite bump_counter_flags in H.
  destruct H as [(_ & _ & -> & _)|[(Hc & a & _ & -> & _)|[(_ & -> & _)|(-> & _)]]];
    simpl; rewrite ?bump_counter_flags, ?bump_counter_address.
  - right. left. now split.
  - do 2 right. left. now split.
  - do 3 right. left. now split.
  - left. now split.
Qed.

Lemma slot_step_refl (d : PktSerialDriver) : slot_step d d.
Proof. left. now split. Qed.

Lemma slot_step_initialised (d d' : PktSerialDriver) :
  device_flags_wf ->
  slot_step d d' -> initialised d ->
  initialised d' /\ address (device d') = address (device d).
Proof.
  intros Hwf Hs Hi. unfold slot_step, initialised in *. cbv zeta in Hs.
  destruct Hs as [[-> Ha]|[[-> Ha]|[[_ Hc]|[[-> Ha]|[[-> Ha]|[-> Ha]]]]]].
  - now split.
  - split; [|exact Ha].
    now rewrite (has_flag_ldiff_disjoint _ _ _ (wf_cp_seen_initialised Hwf)).
  - rewrite has_flag_mask_lor, Hi in Hc. discriminate.
  - split; [|exact Ha].
    rewrite has_flag_lor, (has_flag_self _ (wf_initialised Hwf)). apply orb_true_r.
  - split; [|exact Ha].
    now rewrite (has_flag_ldiff_disjoint _ _ _ (wf_initialising_initialised Hwf)).
  - split; [|exact Ha]. rewrite has_flag_lor, Hi. reflexivity.
Qed.

Lemma slot_step_other_bits (d d' : PktSerialDriver) (m : N) :
  N.land PKT_DEVICE_FLAGS_INITIALISING m = 0%N ->
  N.land PKT_DEVICE_FLAGS_INITIALISED m = 0%N ->
  N.land PKT_DEVICE_FLAGS_CP_SEEN m = 0%N ->
  slot_step d d' ->
  N.land (flags (device d')) m = N.land (flags (device d)) m.
Proof.
  intros Hing Hinit Hcp Hs. unfold slot_step in Hs. cbv zeta in Hs.
  destruct Hs as [[-> _]|[[-> _]|[[-> _]|[[-> _]|[[-> _]|[-> _]]]]]];
    rewrite ?N.land_lor_distr_l, ?land_ldiff_disjoint, ?Hing, ?Hinit, ?Hcp,
      ?N.lor_0_r by assumption;
    reflexivity.
Qed.

(** X22: a new logic driver filters nothing.  With a filter array at least as
    long as the slot table, [filterPacket] answers false for every address on
    the state the constructor produces. *)
Theorem constructor_filters_nothing (d : PktDevice) (cls : N) (table : list Slot)
    (running : bool) (a : N) :
  PKT_PROTOCOL_DRIVER_SIZE <= PKT_LOGIC_DRIVER_MAX_FILTERS ->
  filterPacket (address_filters (PktLogicDriver_new d cls table running)) a
  = Some false.
Proof.
  intros Hle. simpl. apply filterPacket_absent.
  - rewrite length_replicate. exact Hle.
  - intros Hne i _ Hi. apply lookup_replicate in Hi as [Hi _]. congruence.
Qed.

End FlagsAlongRuns.

Lemma constructor_filters_nothing_witness :
  @filterPacket sample_constants (address_filters constructed_state) 5
  = Some false.
Proof.
  apply (@constructor_filters_nothing sample_constants (mk_device 0 0 0 0) 0
           (table16 [This]) true 5).
  vm_compute. lia.
Defined.

(** * The methods taking effect *)

(** ** The loop of periodicCallback over the body with calls *)

Section CallingLoop.
Context {C : Constants} {K : Callees}.

Lemma call_effect_uncalled (i : nat) (e : Event) (d : PktSerialDriver) :
  event_slot e = Some i -> calls_into i e = false -> call_effect e d = d.
Proof.
  destruct e; simpl; try reflexivity; intros [= ->];
    rewrite Nat.eqb_refl; discriminate.
Qed.

Lemma calls_uncalled (i : nat) (evs : list Event) (d : PktSerialDriver) :
  Forall (fun e => event_slot e = Some i) evs ->
  Forall (fun e => calls_into i e = false) evs ->
  foldl (fun x e => call_effect e x) d evs = d.
Proof.
  intros Hs. revert d. induction Hs as [|e evs He _ IH]; intros d Hc; simpl.
  - reflexivity.
  - inversion Hc as [|? ? H1 H2]; subst.
    rewrite (call_effect_uncalled i e d He H1). now apply IH.
Qed.

Lemma tick_peer_with_events (st : State) (i : nat) (d d' : PktSerialDriver)
    (rs rs' : list N) (evs : list Event) :
  tick_peer_with st i d rs = Some (d', evs, rs') ->
  Forall (fun e => event_slot e = Some i) evs.
Proof.
  unfold tick_peer_with. cbv zeta. destruct (_ && _ && _).
  - intros [= <- <- <-]. repeat constructor.
  - destruct (tick_peer st i d rs) as [[[d1 e1] r1]|] eqn:Hp; [|discriminate].
    simpl. intros [= <- <- <-]. exact (tick_peer_events _ _ _ _ _ _ _ Hp).
Qed.

(** A body that calls neither [deviceConnected] nor [deviceRemoved] does what
    the logic driver's own statements do. *)
Lemma tick_peer_with_uncalled (st : State) (i : nat) (d d' : PktSerialDriver)
    (rs rs' : list N) (evs : list Event) :
  tick_peer_with st i d rs = Some (d', evs, rs') ->
  Forall (fun e => calls_into i e = false) evs ->
  tick_peer st i d rs = Some (d', evs, rs').
Proof.
  unfold tick_peer_with. cbv zeta. destruct (_ && _ && _).
  - intros [= <- <- <-] Hc. inversion Hc as [|? ? H1 H2]; subst.
    simpl in H1. rewrite Nat.eqb_refl in H1. discriminate.
  - destruct (tick_peer st i d rs) as [[[d1 e1] r1]|] eqn:Hp; [|discriminate].
    simpl. intros [= <- <- <-] Hc.
    now rewrite (calls_uncalled i e1 d1 (tick_peer_events _ _ _ _ _ _ _ Hp) Hc).
Qed.

Lemma tick_slots_with_app (l1 l2 : list nat) (st : State) (rs : list N) :
  tick_slots_with (l1 ++ l2) st rs
  = '(st1, e1, r1) ← tick_slots_with l1 st rs;
    '(st2, e2, r2) ← tick_slots_with l2 st1 r1;
    Some (st2, e1 ++ e2, r2).
Proof.
  revert st rs. induction l1 as [|i l1 IH]; intros st rs; simpl.
  - destruct (tick_slots_with l2 st rs) as [[[? ?] ?]|]; reflexivity.
  - destruct (drivers st !! i) as [[| |d]|]; try apply IH.
    destruct (tick_peer_with st i d rs) as [[[d' evs] rs']|]; [|reflexivity].
    simpl. rewrite IH.
    destruct (tick_slots_with l1 _ rs') as [[[st1 e1] r1]|]; [|reflexivity].
    simpl. destruct (tick_slots_with l2 st1 r1) as [[[st2 e2] r2]|]; [|reflexivity].
    simpl. now rewrite app_assoc.
Qed.

(** What the loop leaves alone: the bus, the logic driver's own fields, the
    kind of every slot, and every slot that is not visited. *)
Lemma tick_slots_with_frame (ixs : list nat) (st st' : State) (rs rs' : list N)
    (evs : list Event) :
  tick_slots_with ixs st rs = Some (st', evs, rs') ->
  bus_running st' = bus_running st
  /\ this_driver st' = this_driver st
  /\ status st' = status st
  /\ address_filters st' = address_filters st
  /\ (forall k, k ∉ ixs -> drivers st' !! k = drivers st !! k)
  /\ (forall k, match drivers st !! k with
                | Some (Peer _) => exists d', drivers st' !! k = Some (Peer d')
                | o => drivers st' !! k = o
                end)
  /\ Forall (fun e => exists k, k ∈ ixs /\ event_slot e = Some k) evs.
Proof.
  revert st rs evs. induction ixs as [|i ixs IH]; intros st rs evs; simpl.
  - intros [= <- <- <-]. repeat split; try constructor.
    intros k. destruct (drivers st !! k) as [[| |d]|]; eauto.
  - assert (Hskip : tick_slots_with ixs st rs = Some (st', evs, rs') ->
        bus_running st' = bus_running st
        /\ this_driver st' = this_driver st
        /\ status st' = status st
        /\ address_filters st' = address_filters st
        /\ (forall k, k ∉ i :: ixs -> drivers st' !! k = drivers st !! k)
        /\ (forall k, match drivers st !! k with
                      | Some (Peer _) => exists d', drivers st' !! k = Some (Peer d')
                      | o => drivers st' !! k = o
                      end)
        /\ Forall (fun e => exists k, k ∈ i :: ixs /\ event_slot e = Some k) evs).
    { intros H. apply IH in H as (? & ? & ? & ? & Hk & Hkind & Hev).
      repeat split; try assumption.
      - intros k Hnot. apply Hk. intros Hin. apply Hnot. now right.
      - eapply Forall_impl; [exact Hev|]. intros e (k & Hin & He).
        exists k. split; [now right|exact He]. }
    destruct (drivers st !! i) as [[| |d]|] eqn:Hi; try exact Hskip.
    clear Hskip.
    destruct (tick_peer_with st i d rs) as [[[d' e1] r1]|] eqn:Hp; [|discriminate].
    simpl.
    destruct (tick_slots_with ixs _ r1) as [[[st2 e2] r2]|] eqn:Hrest; [|discriminate].
    simpl. intros [= <- <- <-].
    apply IH in Hrest as (? & ? & ? & ? & Hk & Hkind & Hev).
    simpl in *. repeat split; try assumption.
    + intros k Hnot. rewrite Hk by (intros Hin; apply Hnot; now right).
      apply list_lookup_insert_ne. intros ->. apply Hnot. left.
    + intros k. specialize (Hkind k). destruct (decide (k = i)) as [->|Hne].
      * rewrite Hi. rewrite list_lookup_insert_eq in Hkind
          by (eapply lookup_lt_Some; exact Hi).
        exact Hkind.
      * rewrite list_lookup_insert_ne in Hkind by congruence. exact Hkind.
    + apply Forall_app. split.
      * eapply Forall_impl; [exact (tick_peer_with_events _ _ _ _ _ _ _ Hp)|].
        intros e He. exists i. split; [left|exact He].
      * eapply Forall_impl; [exact Hev|]. intros e (k & Hin & He).
        exists k. split; [now right|exact He].
Qed.

(** The loop seen from slot [i]: the slots before it are processed, then the
    body runs on the driver the slot held at the start of the tick, and the
    slots after it leave the result in place.  Events of the other slots are
    calls on other drivers. *)
Lemma tick_slots_with_at (n i : nat) (st st' : State) (rs rs' : list N)
    (evs : list Event) (d : PktSerialDriver) :
  i < n ->
  drivers st !! i = Some (Peer d) ->
  tick_slots_with (seq 0 n) st rs = Some (st', evs, rs') ->
  exists st_i e_pre r_i d' e_i r_i' e_post,
    tick_slots_with (seq 0 i) st rs = Some (st_i, e_pre, r_i)
    /\ tick_peer_with st_i i d r_i = Some (d', e_i, r_i')
    /\ drivers st' !! i = Some (Peer d')
    /\ evs = e_pre ++ e_i ++ e_post
    /\ Forall (fun e => event_slot e <> Some i) e_pre
    /\ Forall (fun e => event_slot e <> Some i) e_post.
Proof.
  intros Hi Hd Hrun.
  replace n with (i + S (n - S i)) in Hrun by lia.
  rewrite seq_app, tick_slots_with_app in Hrun. simpl in Hrun.
  destruct (tick_slots_with (seq 0 i) st rs) as [[[st_i e_pre] r_i]|] eqn:Hpre;
    [|discriminate].
  simpl in Hrun.
  destruct (tick_slots_with_frame _ _ _ _ _ _ Hpre) as (_ & _ & _ & _ & Hk & _ & Hev).
  assert (Hdi : drivers st_i !! i = Some (Peer d)).
  { rewrite Hk; [exact Hd|]. intros Hin. apply elem_of_seq in Hin. lia. }
  rewrite Hdi in Hrun.
  destruct (tick_peer_with st_i i d r_i) as [[[d' e_i] r_i']|] eqn:Hp; [|discriminate].
  simpl in Hrun.
  destruct (tick_slots_with (seq (S i) (n - S i)) _ r_i') as [[[st2 e_post] r2]|]
    eqn:Hpost; [|discriminate].
  simpl in Hrun. injection Hrun as <- <- <-.
  destruct (tick_slots_with_frame _ _ _ _ _ _ Hpost) as (_ & _ & _ & _ & Hk2 & _ & Hev2).
  exists st_i, e_pre, r_i, d', e_i, r_i', e_post.
  split; [reflexivity|]. split; [exact Hp|]. split.
  { rewrite Hk2 by (intros Hin; apply elem_of_seq in Hin; lia).
    simpl. apply list_lookup_insert_eq. eapply lookup_lt_Some. exact Hdi. }
  split; [reflexivity|]. split.
  - eapply Forall_impl; [exact Hev|]. intros e (k & Hin & He) Hc.
    apply elem_of_seq in Hin. rewrite He in Hc. injection Hc as ->. lia.
  - eapply Forall_impl; [exact Hev2|]. intros e (k & Hin & He) Hc.
    apply elem_of_seq in Hin. rewrite He in Hc. injection Hc as ->. lia.
Qed.

End CallingLoop.

(** ** Methods that leave the record alone *)

Section Quiet.
Context {C : Constants}.

Lemma quiet_calls (d : PktSerialDriver) (evs : list Event) :
  foldl (fun x e => @call_effect quiet_callees e x) d evs = d.
Proof.
  induction evs as [|e evs IH]; simpl; [reflexivity|].
  now destruct e.
Qed.

(** With such methods the body, the loop, the tick and the packet handler
    with calls are the ones defined first. *)
Lemma tick_peer_with_quiet (st : State) (i : nat) (d : PktSerialDriver)
    (rs : list N) :
  @tick_peer_with C quiet_callees st i d rs = tick_peer st i d rs.
Proof.
  unfold tick_peer_with. cbv zeta.
  destruct (_ && _ && _) eqn:Hdue.
  - apply andb_true_iff in Hdue as [Hdue Hseen].
    apply negb_true_iff in Hseen.
    unfold tick_peer. cbv zeta. rewrite Hdue, Hseen. reflexivity.
  - destruct (tick_peer st i d rs) as [[[d1 e1] r1]|]; [|reflexivity].
    simpl. now rewrite quiet_calls.
Qed.

Lemma tick_slots_with_quiet (ixs : list nat) (st : State) (rs : list N) :
  @tick_slots_with C quiet_callees ixs st rs = tick_slots ixs st rs.
Proof.
  revert st rs. induction ixs as [|i ixs IH]; intros st rs; simpl; [reflexivity|].
  destruct (drivers st !! i) as [[| |d]|]; try apply IH.
  rewrite tick_peer_with_quiet.
  destruct (tick_peer st i d rs) as [[[d1 e1] r1]|]; [|reflexivity].
  simpl. now rewrite IH.
Qed.

Lemma periodicCallback_with_quiet (st : State) (rs : list N) :
  @periodicCallback_with C quiet_callees st rs = periodicCallback st rs.
Proof.
  unfold periodicCallback_with, periodicCallback.
  destruct (bus_running st); simpl; [apply tick_slots_with_quiet|reflexivity].
Qed.

Lemma after_call_quiet (st : State) (e : Event) :
  @after_call quiet_callees st e = st.
Proof.
  destruct e as [p|i|i rec|i|i p]; simpl; try reflexivity;
    destruct (driver_at st i) as [d0|] eqn:Hd; try reflexivity;
    now apply set_driver_same.
Qed.

Lemma handlePacket_with_quiet (st : State) (cp : ControlPacket) :
  @handlePacket_with C quiet_callees st cp = handlePacket st cp.
Proof.
  unfold handlePacket_with.
  destruct (handlePacket st cp) as [[st1 evs]|]; [|reflexivity].
  simpl. f_equal. f_equal.
  induction evs as [|e evs IH]; simpl; [reflexivity|].
  now rewrite after_call_quiet.
Qed.

Lemma ticks_with_quiet (n : nat) (st : State) (rs : list N) :
  @ticks_with C quiet_callees n st rs = ticks n st rs.
Proof.
  revert st rs. induction n as [|n IH]; intros st rs; simpl; [reflexivity|].
  rewrite periodicCallback_with_quiet.
  destruct (periodicCallback st rs) as [[[st1 evs] rs1]|]; [|reflexivity].
  simpl. now rewrite IH.
Qed.

End Quiet.

(** ** Liveness of a REMOTE driver *)

Section CallingLiveness.
Context {C : Constants} {K : Callees}.

(** The body on a driver that is REMOTE and not LOCAL. *)
Lemma tick_peer_with_remote (st : State) (i : nat) (d : PktSerialDriver)
    (rs : list N) :
  has_flag (flags (device d)) PKT_DEVICE_FLAGS_REMOTE = true ->
  has_flag (flags (device d)) PKT_DEVICE_FLAGS_LOCAL = false ->
  tick_peer_with st i d rs
  = if (counter_after d 1 =? PKT_LOGIC_DRIVER_TIMEOUT)%N
       && negb (has_flag (flags (device d)) PKT_DEVICE_FLAGS_CP_SEEN)
    then Some (clear_cp_seen
                 (deviceRemoved (set_device d (bump_counter (device d)))),
               [DeviceRemoved i], rs)
    else Some (after_tick d, [], rs).
Proof.
  intros Hr Hl. unfold tick_peer_with. cbv zeta.
  rewrite bump_counter_flags, bump_counter_rolling, Hr, andb_true_l.
  destruct (_ && _) eqn:Hdue; [reflexivity|].
  rewrite (tick_peer_remote st i d rs Hr Hl). cbv zeta.
  rewrite bump_counter_rolling, bump_counter_flags. unfold after_tick.
  destruct (counter_after d 1 =? PKT_LOGIC_DRIVER_TIMEOUT)%N; simpl in *.
  - apply negb_false_iff in Hdue. rewrite Hdue. reflexivity.
  - now rewrite set_flags_bump_counter.
Qed.

(** One tick with the bus running, seen from a REMOTE slot. *)
Lemma periodicCallback_with_remote_slot (st st' : State) (rs rs' : list N)
    (evs : list Event) (i : nat) (d : PktSerialDriver) :
  bus_running st = true ->
  i < PKT_PROTOCOL_DRIVER_SIZE ->
  drivers st !! i = Some (Peer d) ->
  has_flag (flags (device d)) PKT_DEVICE_FLAGS_REMOTE = true ->
  has_flag (flags (device d)) PKT_DEVICE_FLAGS_LOCAL = false ->
  periodicCallback_with st rs = Some (st', evs, rs') ->
  bus_running st' = true
  /\ (if (counter_after d 1 =? PKT_LOGIC_DRIVER_TIMEOUT)%N
         && negb (has_flag (flags (device d)) PKT_DEVICE_FLAGS_CP_SEEN)
      then drivers st' !! i
           = Some (Peer (clear_cp_seen
                           (deviceRemoved
                              (set_device d (bump_counter (device d))))))
           /\ count_events (is_device_removed i) evs = 1
      else drivers st' !! i = Some (Peer (after_tick d))
           /\ count_events (is_device_removed i) evs = 0).
Proof.
  intros Hbus Hi Hd Hr Hl Hrun. unfold periodicCallback_with in Hrun.
  rewrite Hbus in Hrun. simpl in Hrun.
  destruct (tick_slots_with_frame _ _ _ _ _ _ Hrun) as (Hb & _).
  split; [congruence|].
  destruct (tick_slots_with_at _ _ _ _ _ _ _ _ Hi Hd Hrun)
    as (st_i & e_pre & r_i & d' & e_i & r_i' & e_post
        & _ & Hp & Hd' & -> & Hev1 & Hev2).
  rewrite (tick_peer_with_remote st_i i d r_i Hr Hl) in Hp.
  rewrite !count_events_app.
  rewrite (count_events_other_slots _ i e_pre (is_device_removed_slot i) Hev1).
  rewrite (count_events_other_slots _ i e_post (is_device_removed_slot i) Hev2).
  rewrite Hd'.
  destruct (_ && _); injection Hp as <- <- _; simpl;
    rewrite ?Nat.eqb_refl; split; reflexivity.
Qed.

Lemma dormant_body (st : State) (i : nat) (d : PktSerialDriver) (rs : list N) :
  dormant d -> tick_peer_with st i d rs = Some (d, [], rs).
Proof.
  intros (Hc & Hl & Ht). apply N.eqb_neq in Ht.
  assert (Hb : bump_counter (device d) = device d).
  { unfold bump_counter. now rewrite Hc. }
  unfold tick_peer_with, tick_peer. cbv zeta.
  rewrite Hb, Ht, Hl, !andb_false_r. simpl. now destruct d.
Qed.

(** A dormant driver stays as it is, and no tick calls [deviceRemoved] on
    it. *)
Lemma dormant_ticks (n : nat) (st st' : State) (rs rs' : list N)
    (tr : list (list Event)) (i : nat) (d : PktSerialDriver) :
  i < PKT_PROTOCOL_DRIVER_SIZE ->
  drivers st !! i = Some (Peer d) ->
  dormant d ->
  ticks_with n st rs = Some (st', tr, rs') ->
  forall k evs, tr !! k = Some evs ->
                count_events (is_device_removed i) evs = 0.
Proof.
  intros Hi. revert st rs tr.
  induction n as [|n IH]; intros st rs tr Hd Hdor Hrun k evs Hk; simpl in Hrun.
  - injection Hrun as <- <- <-. destruct k; discriminate Hk.
  - destruct (periodicCallback_with st rs) as [[[st1 evs1] rs1]|] eqn:Hstep;
      [|discriminate].
    simpl in Hrun.
    destruct (ticks_with n st1 rs1) as [[[st2 tr1] rs2]|] eqn:Hrest;
      [|discriminate].
    simpl in Hrun. injection Hrun as <- <- <-.
    assert (Hone : drivers st1 !! i = Some (Peer d)
                   /\ count_events (is_device_removed i) evs1 = 0).
    { unfold periodicCallback_with in Hstep.
      destruct (bus_running st); simpl in Hstep.
      - destruct (tick_slots_with_at _ _ _ _ _ _ _ _ Hi Hd Hstep)
          as (st_i & e_pre & r_i & d' & e_i & r_i' & e_post
              & _ & Hp & Hd' & -> & Hev1 & Hev2).
        rewrite (dormant_body st_i i d r_i Hdor) in Hp.
        injection Hp as <- <- _. split; [exact Hd'|].
        rewrite !count_events_app.
        rewrite (count_events_other_slots _ i e_pre (is_device_removed_slot i) Hev1).
        rewrite (count_events_other_slots _ i e_post (is_device_removed_slot i) Hev2).
        reflexivity.
      - injection Hstep as <- <- <-. now split. }
    destruct Hone as [Hd1 Hc1].
    destruct k as [|k]; simpl in Hk.
    + now injection Hk as <-.
    + exact (IH st1 rs1 tr1 Hd1 Hdor Hrest k evs Hk).
Qed.

Lemma removal_due_now (d : PktSerialDriver) :
  removal_due d 0 <->
  (counter_after d 1 =? PKT_LOGIC_DRIVER_TIMEOUT)%N
  && negb (has_flag (flags (device d)) PKT_DEVICE_FLAGS_CP_SEEN) = true.
Proof.
  unfold removal_due. rewrite andb_true_iff, N.eqb_eq, negb_true_iff. split.
  - intros (Ht & [Hc|(k' & Hlt & _)]); [now split|lia].
  - intros (Ht & Hc). split; [exact Ht|now left].
Qed.

Lemma removal_due_later (d : PktSerialDriver) (k : nat) :
  device_flags_wf ->
  removal_due (after_tick d) k <-> removal_due d (S k).
Proof.
  intros Hwf. unfold removal_due.
  rewrite (after_tick_counter d (S k) Hwf), after_tick_cp_seen. split.
  - intros (Ht & [[Hc|Hc]|(k' & Hlt & Hk')]).
    + split; [exact Ht|now left].
    + split; [exact Ht|]. right. exists 0. split; [lia|exact Hc].
    + split; [exact Ht|]. right. exists (S k'). split; [lia|].
      now rewrite <- (after_tick_counter d (S k') Hwf).
  - intros (Ht & [Hc|(k' & Hlt & Hk')]).
    + split; [exact Ht|]. left. now left.
    + split; [exact Ht|]. destruct k' as [|k'].
      * left. now right.
      * right. exists k'. split; [lia|].
        now rewrite (after_tick_counter d (S k') Hwf).
Qed.

(** After a control packet has set CP_SEEN, the counter running, the next
    timeout test only clears the flag, and the counter needs a whole turn of
    256 ticks to come back to the timeout: nothing is due in the first 256
    ticks. *)
Lemma removal_not_due_early (d : PktSerialDriver) (k : nat) :
  claimed d ->
  has_flag (flags (device d)) PKT_DEVICE_FLAGS_CP_SEEN = true ->
  k < 256 ->
  ~ removal_due d k.
Proof.
  intros Hc Hseen Hk (Ht & [Hclear|(k' & Hlt & Hk')]); [congruence|].
  unfold claimed in Hc. unfold counter_after in Ht, Hk'. rewrite Hc in Ht, Hk'.
  set (c := rolling_counter (device d)) in *.
  pose proof (N.Div0.div_mod (c + N.of_nat (S k)) 256) as H1.
  pose proof (N.Div0.div_mod (c + N.of_nat (S k')) 256) as H2.
  rewrite Ht in H1. rewrite Hk' in H2. lia.
Qed.

Lemma removal_schedule (n : nat) (st st' : State) (rs rs' : list N)
    (tr : list (list Event)) (i : nat) (d : PktSerialDriver) :
  device_flags_wf ->
  bus_running st = true ->
  i < PKT_PROTOCOL_DRIVER_SIZE ->
  drivers st !! i = Some (Peer d) ->
  has_flag (flags (device d)) PKT_DEVICE_FLAGS_REMOTE = true ->
  has_flag (flags (device d)) PKT_DEVICE_FLAGS_LOCAL = false ->
  ticks_with n st rs = Some (st', tr, rs') ->
  forall k evs,
    tr !! k = Some evs ->
    ((forall k', k' < k -> ~ removal_due d k') ->
     count_events (is_device_removed i) evs <= 1
     /\ (count_events (is_device_removed i) evs = 1 <-> removal_due d k))
    /\ (removal_ends_record ->
        (exists k', k' < k /\ removal_due d k') ->
        count_events (is_device_removed i) evs = 0).
Proof.
  intros Hwf. revert st rs tr d.
  induction n as [|n IH]; intros st rs tr d Hbus Hi Hd Hr Hl Hrun k evs Hk;
    simpl in Hrun.
  - injection Hrun as <- <- <-. destruct k; discriminate Hk.
  - destruct (periodicCallback_with st rs) as [[[st1 evs1] rs1]|] eqn:Hstep;
      [|discriminate].
    simpl in Hrun.
    destruct (ticks_with n st1 rs1) as [[[st2 tr1] rs2]|] eqn:Hrest;
      [|discriminate].
    simpl in Hrun. injection Hrun as <- <- <-.
    destruct (periodicCallback_with_remote_slot _ _ _ _ _ _ _ Hbus Hi Hd Hr Hl Hstep)
      as (Hbus1 & Hone).
    pose proof (removal_due_now d) as Hnow.
    destruct ((counter_after d 1 =? PKT_LOGIC_DRIVER_TIMEOUT)%N
              && negb (has_flag (flags (device d)) PKT_DEVICE_FLAGS_CP_SEEN))
      eqn:Hdue; destruct Hone as [Hd1 Hcount].
    + (* the call is made in this tick *)
      assert (Hdue0 : removal_due d 0) by now apply Hnow.
      destruct k as [|k]; simpl in Hk.
      * injection Hk as <-. rewrite Hcount. split.
        -- intros _. split; [lia|]. tauto.
        -- intros _ (k' & Hlt & _). lia.
      * split.
        -- intros Hnone. exfalso. apply (Hnone 0); [lia|exact Hdue0].
        -- intros Hends _.
           refine (dormant_ticks n st1 st2 rs1 rs2 tr1 i _ Hi Hd1 _ Hrest
                     k evs Hk).
           destruct (Hends (set_device d (bump_counter (device d))))
             as (Hc & Hloc & Ht).
           { simpl. now rewrite bump_counter_flags. }
           unfold dormant, clear_cp_seen. simpl. split; [|split].
           ++ apply not_true_is_false. intros H.
              apply has_flag_ldiff_mono in H. congruence.
           ++ apply not_true_is_false. intros H.
              apply has_flag_ldiff_mono in H. congruence.
           ++ exact Ht.
    + (* no call in this tick *)
      assert (Hnot0 : ~ removal_due d 0).
      { intros H. apply Hnow in H. discriminate. }
      destruct k as [|k]; simpl in Hk.
      * injection Hk as <-. rewrite Hcount. split.
        -- intros _. split; [lia|]. split; [discriminate|]. intros H.
           now apply Hnot0 in H.
        -- intros _ (k' & Hlt & _). lia.
      * destruct (IH st1 rs1 tr1 (after_tick d) Hbus1 Hi Hd1
                    (after_tick_remote d Hwf Hr) (after_tick_not_local d Hl)
                    Hrest k evs Hk) as (Hfirst & Hafter).
        split.
        -- intros Hnone.
           destruct Hfirst as (Hle & Hiff).
           { intros k' Hlt H. apply (Hnone (S k')); [lia|].
             now apply (removal_due_later d k' Hwf). }
           split; [exact Hle|]. rewrite Hiff. apply (removal_due_later d k Hwf).
        -- intros Hends (k' & Hlt & Hk'). apply Hafter; [exact Hends|].
           destruct k' as [|k']; [contradiction|].
           exists k'. split; [lia|]. now apply (removal_due_later d k' Hwf).
Qed.

(** C5, as the code has it.  Take a slot that is REMOTE and not LOCAL, a run
    of ticks with the bus running and no packet in between, whatever the
    drivers' methods do.  Up to its first invocation [deviceRemoved] is
    invoked on the slot in tick [k + 1] exactly when the rolling counter
    equals the timeout in that tick and CP_SEEN is clear by then: clear at
    the start, or cleared by the timeout test of an earlier tick.  A control
    packet sets CP_SEEN and does not restart the counter, so after it the
    next timeout test only clears the flag and nothing is invoked during the
    following 256 ticks: the invocation comes at the second test.  It is the
    only one provided that
    [deviceRemoved] ends the record (neither INITIALISING nor INITIALISED
    left set, the counter off the timeout); the logic driver itself resets
    nothing. *)
Theorem device_removed_schedule (n : nat) (st st' : State) (rs rs' : list N)
    (tr : list (list Event)) (i : nat) (d : PktSerialDriver) :
  device_flags_wf ->
  bus_running st = true ->
  i < PKT_PROTOCOL_DRIVER_SIZE ->
  drivers st !! i = Some (Peer d) ->
  has_flag (flags (device d)) PKT_DEVICE_FLAGS_REMOTE = true ->
  has_flag (flags (device d)) PKT_DEVICE_FLAGS_LOCAL = false ->
  ticks_with n st rs = Some (st', tr, rs') ->
  forall k evs,
    tr !! k = Some evs ->
    ((forall k', k' < k -> ~ removal_due d k') ->
     count_events (is_device_removed i) evs <= 1
     /\ (count_events (is_device_removed i) evs = 1 <-> removal_due d k))
    /\ (claimed d ->
        has_flag (flags (device d)) PKT_DEVICE_FLAGS_CP_SEEN = true ->
        k < 256 ->
        count_events (is_device_removed i) evs = 0)
    /\ (removal_ends_record ->
        (exists k', k' < k /\ removal_due d k') ->
        count_events (is_device_removed i) evs = 0).
Proof.
  intros Hwf Hbus Hi Hd Hr Hl Hrun k evs Hk.
  destruct (removal_schedule n st st' rs rs' tr i d Hwf Hbus Hi Hd Hr Hl Hrun
              k evs Hk) as (Hfirst & Hafter).
  split; [exact Hfirst|]. split; [|exact Hafter].
  intros Hc Hseen Hlt.
  destruct Hfirst as (Hle & Hiff).
  { intros k' Hk'. apply (removal_not_due_early d k' Hc Hseen). lia. }
  pose proof (removal_not_due_early d k Hc Hseen Hlt) as Hnot.
  destruct (count_events (is_device_removed i) evs) as [|[|c]]; [reflexivity| |lia].
  exfalso. apply Hnot, Hiff. reflexivity.
Qed.

End CallingLiveness.

Lemma placing_ends_record {C : Constants} :
  PKT_LOGIC_DRIVER_TIMEOUT <> 0%N ->
  @removal_ends_record C placing_callees.
Proof.
  intros Ht d Hl. simpl. split; [apply has_flag_ldiff_same|]. split.
  - apply not_true_is_false. intros H. apply has_flag_ldiff_mono in H. congruence.
  - congruence.
Qed.

(** Scenario S4 after the last packet, over 600 ticks: the timeout test of
    tick 254 clears CP_SEEN, [deviceRemoved] is invoked in tick 510 and, the
    record ended, never again. *)
Lemma device_removed_schedule_witness :
  let d := {| device := mk_device 7 0 0x40A0 0xDEADBEEF; driver_class := 7 |} in
  exists st' tr,
    @ticks_with sample_constants sample_callees 600 s4_seen [] = Some (st', tr, [])
    /\ removal_ticks 1 1 tr = [510]
    /\ forall k evs,
         tr !! k = Some evs ->
         ((forall k', k' < k -> ~ @removal_due sample_constants d k') ->
          count_events (is_device_removed 1) evs <= 1
          /\ (count_events (is_device_removed 1) evs = 1
              <-> @removal_due sample_constants d k))
         /\ (k < 256 -> count_events (is_device_removed 1) evs = 0)
         /\ ((exists k', k' < k /\ @removal_due sample_constants d k') ->
             count_events (is_device_removed 1) evs = 0).
Proof.
  intros d.
  pose (r := @ticks_with sample_constants sample_callees 600 s4_seen []).
  assert (Hr : @ticks_with sample_constants sample_callees 600 s4_seen [] = r)
    by reflexivity.
  vm_compute in r.
  destruct r as [[[st' tr] rs']|] eqn:Heq; [|discriminate Heq].
  injection Heq as Hst Htr Hrs. rewrite <- Hrs in Hr.
  exists st', tr. split; [exact Hr|]. split; [now rewrite <- Htr|].
  intros k evs Hk.
  destruct (@device_removed_schedule sample_constants sample_callees 600 s4_seen
              st' [] [] tr 1 d sample_flags_wf) with (k := k) (evs := evs)
    as (Hfirst & Hearly & Hafter); try reflexivity; try assumption.
  { vm_compute. lia. }
  split; [exact Hfirst|]. split.
  - apply Hearly; reflexivity.
  - apply Hafter. apply (@placing_ends_record sample_constants). discriminate.
Defined.

(** Scenario S4 on the code, with a timeout of 254 and a control-packet
    period of 112 ticks.  The last packet sets CP_SEEN; the timeout test of
    tick 254 clears it without a call; [deviceRemoved] is invoked in tick 510,
    later than 254 + 112 ticks after the packet, whatever the method does.
    With a method that ends the record it is the only invocation in 800
    ticks; with one that leaves the record alone another follows in tick
    766. *)
Lemma remote_removed_late :
  @handlePacket_with sample_constants sample_callees s4_connected s4_last_packet
  = Some (s4_seen, [HandleControlPacket 1 s4_last_packet])
  /\ (fun r => removal_ticks 1 1 r.1.2)
       <$> @ticks_with sample_constants sample_callees 800 s4_seen []
     = Some [510]
  /\ (fun r => removal_ticks 1 1 r.1.2)
       <$> @ticks_with sample_constants quiet_callees 800 s4_seen []
     = Some [510; 766]
  /\ (@PKT_LOGIC_DRIVER_TIMEOUT sample_constants
      + @PKT_LOGIC_DRIVER_CTRLPACKET_TIME sample_constants < 510)%N.
Proof. repeat split; vm_compute; reflexivity. Qed.

(** Scenarios S3 and S4 with [placing_callees]: the packet of S3 is
    associated with the REMOTE slot, which takes the peer's address and serial
    number; with no packet after that, [deviceRemoved] is invoked in tick 254,
    the timeout, and not again. *)
Lemma s3_then_s4 :
  @handlePacket_with sample_constants sample_callees s3_state s3_packet
  = Some (s3_associated, [DeviceConnected 1 (mk_device 7 0 0 0xDEADBEEF)])
  /\ (fun r => removal_ticks 1 1 r.1.2)
       <$> @ticks_with sample_constants sample_callees 800 s3_associated []
     = Some [254].
Proof. split; vm_compute; reflexivity. Qed.

(** ** A packet, with the methods taking effect *)

Section CallingPackets.
Context {C : Constants} {K : Callees}.

Lemma kinds_kept_refl (st : State) : kinds_kept st st.
Proof.
  intros k. destruct (drivers st !! k) as [[| |d]|]; try reflexivity. now exists d.
Qed.

Lemma kinds_kept_trans (st1 st2 st3 : State) :
  kinds_kept st1 st2 -> kinds_kept st2 st3 -> kinds_kept st1 st3.
Proof.
  intros H1 H2 k. specialize (H1 k). specialize (H2 k).
  destruct (drivers st1 !! k) as [[| |d]|].
  - now rewrite H1 in H2.
  - now rewrite H1 in H2.
  - destruct H1 as (d2 & Hd2). now rewrite Hd2 in H2.
  - now rewrite H1 in H2.
Qed.

Lemma kinds_kept_filters (st : State) (fs : list N) :
  kinds_kept st (set_address_filters st fs).
Proof. exact (kinds_kept_refl st). Qed.

Lemma set_driver_kinds (st : State) (i : nat) (d2 : PktSerialDriver) :
  kinds_kept st (set_driver st i d2).
Proof.
  unfold set_driver.
  destruct (drivers st !! i) as [[| |p]|] eqn:Hi;
    try exact (kinds_kept_refl st).
  intros k. simpl. destruct (decide (k = i)) as [->|Hne].
  - rewrite Hi. cbv beta iota. exists d2. apply list_lookup_insert_eq.
    eapply lookup_lt_Some. exact Hi.
  - rewrite list_lookup_insert_ne by congruence.
    destruct (drivers st !! k) as [[| |q]|]; try reflexivity. now exists q.
Qed.

(** Writing through slot [i], seen from a slot that holds another driver. *)
Lemma set_driver_lookup_peer (st : State) (i k : nat)
    (d0 d d2 : PktSerialDriver) :
  driver_at st i = Some d0 ->
  drivers st !! k = Some (Peer d) ->
  drivers (set_driver st i d2) !! k
  = Some (Peer (if decide (k = i) then d2 else d))
  /\ (k = i -> d0 = d).
Proof.
  unfold driver_at, set_driver.
  destruct (drivers st !! i) as [[| |p]|] eqn:Hi; try discriminate.
  - intros _ Hk. destruct (decide (k = i)) as [->|Hne]; [congruence|].
    split; [exact Hk|contradiction].
  - intros [= <-] Hk. simpl. destruct (decide (k = i)) as [->|Hne].
    + split; [|congruence].
      apply list_lookup_insert_eq. eapply lookup_lt_Some. exact Hi.
    + split; [|contradiction]. now rewrite list_lookup_insert_ne by congruence.
Qed.

Lemma set_driver_this (st : State) (i : nat) (d0 d2 : PktSerialDriver) :
  driver_at st i = Some d0 ->
  this_driver (set_driver st i d2) = this_driver st
  \/ (d0 = this_driver st /\ this_driver (set_driver st i d2) = d2).
Proof.
  unfold driver_at, set_driver.
  destruct (drivers st !! i) as [[| |p]|]; try discriminate.
  - intros [= <-]. right. now split.
  - intros _. now left.
Qed.

Lemma set_driver_frame (st : State) (i : nat) (d2 : PktSerialDriver) :
  bus_running (set_driver st i d2) = bus_running st
  /\ status (set_driver st i d2) = status st
  /\ address_filters (set_driver st i d2) = address_filters st.
Proof.
  unfold set_driver. destruct (drivers st !! i) as [[| |p]|]; now repeat split.
Qed.

(** The association of step 3: the record handed over is built from the
    packet, the slot holds a REMOTE driver, and nothing but the filter array
    has been written before the call. *)
Lemma handlePacket_association (st st1 : State) (cp : ControlPacket) (i : nat)
    (rec : PktDevice) :
  handlePacket st cp = Some (st1, [DeviceConnected i rec]) ->
  rec = device_of_packet cp
  /\ exists fs d, st1 = set_address_filters st fs
                  /\ driver_at st i = Some d
                  /\ has_flag (flags (device d)) PKT_DEVICE_FLAGS_REMOTE = true.
Proof.
  unfold handlePacket.
  destruct (find_slot (address_matches cp) st _) as [[j dj]|] eqn:Hfind.
  - destruct (_ && _); [discriminate|]. destruct (_ && _); discriminate.
  - clear Hfind. destruct (filterPacket _ _) as [b|]; [|discriminate]. simpl.
    destruct (_ && negb b); [discriminate|].
    assert (Hgo : forall fs,
              match find_slot (remote_candidate cp) (set_address_filters st fs)
                      (seq 0 PKT_PROTOCOL_DRIVER_SIZE) with
              | Some (j, _) =>
                  Some (set_address_filters st fs,
                        [DeviceConnected j (device_of_packet cp)])
              | None => Some (set_address_filters st fs, [])
              end = Some (st1, [DeviceConnected i rec]) ->
              rec = device_of_packet cp
              /\ exists fs d, st1 = set_address_filters st fs
                              /\ driver_at st i = Some d
                              /\ has_flag (flags (device d))
                                   PKT_DEVICE_FLAGS_REMOTE = true).
    { intros fs. rewrite find_slot_set_address_filters.
      destruct (find_slot (remote_candidate cp) st _) as [[j dj]|] eqn:Hf;
        [|discriminate].
      intros [= <- <- <-]. split; [reflexivity|].
      apply find_slot_Some in Hf as (_ & Hd & Hc).
      apply remote_candidate_spec in Hc as (Hr & _).
      exists fs, dj. now repeat split. }
    destruct (b && _); cbv zeta.
    + apply Hgo.
    + intros H. apply (Hgo (address_filters st)).
      rewrite set_address_filters_same. exact H.
Qed.

(** The two ways [handlePacket_with] returns: no method with an effect has
    been called, or [deviceConnected] has, on a REMOTE slot. *)
Lemma handlePacket_with_cases (st st' : State) (cp : ControlPacket)
    (evs : list Event) :
  handlePacket_with st cp = Some (st', evs) ->
  (handlePacket st cp = Some (st', evs)
   /\ (forall k, Forall (fun e => calls_into k e = false) evs)
   /\ Forall (fun e => is_device_connected e = false) evs)
  \/ (exists i d fs,
         evs = [DeviceConnected i (device_of_packet cp)]
         /\ driver_at st i = Some d
         /\ has_flag (flags (device d)) PKT_DEVICE_FLAGS_REMOTE = true
         /\ st' = set_driver (set_address_filters st fs) i
                    (deviceConnected d (device_of_packet cp))).
Proof.
  unfold handlePacket_with.
  destruct (handlePacket st cp) as [[st1 e1]|] eqn:H; [|discriminate].
  simpl. intros [= <- <-].
  destruct (handlePacket_result _ _ _ _ H)
    as [(_ & p & ->)|[(_ & _ & _ & _ & ->)|[(i & _ & _ & _ & ->)
       |(_ & _ & [->|(i & ->)])]]]; simpl.
  - left. split; [reflexivity|]. split; [intros k|]; repeat constructor.
  - left. split; [reflexivity|]. split; [intros k|]; constructor.
  - left. split; [reflexivity|]. split; [intros k|]; repeat constructor.
  - left. split; [reflexivity|]. split; [intros k|]; constructor.
  - right. destruct (handlePacket_association _ _ _ _ _ H)
      as (_ & fs & d & -> & Hd & Hr).
    exists i, d, fs. split; [reflexivity|]. split; [exact Hd|].
    split; [exact Hr|].
    now rewrite driver_at_set_address_filters, Hd.
Qed.

Lemma same_identity_kinds (st st' : State) :
  Forall2 same_identity (drivers st) (drivers st') -> kinds_kept st st'.
Proof.
  intros H k. destruct (drivers st !! k) as [s|] eqn:Hs.
  - destruct (Forall2_lookup_l _ _ _ _ _ H Hs) as (s' & Hs' & Hsame).
    destruct s as [| |d], s' as [| |d']; try contradiction; try exact Hs'.
    now exists d'.
  - destruct (drivers st' !! k) as [s'|] eqn:Hs'; [|reflexivity].
    destruct (Forall2_lookup_r _ _ _ _ _ H Hs') as (s & Hs2 & _). congruence.
Qed.

Lemma with_flags_fields (d : PktSerialDriver) (f : N) :
  same_fields d (with_flags d f).
Proof. now repeat split. Qed.

Lemma same_fields_refl (d : PktSerialDriver) : same_fields d d.
Proof. now repeat split. Qed.

(** What the statements of [handlePacket] themselves do to the driver a slot
    holds: nothing, INITIALISING cleared, or CP_SEEN set. *)
Lemma handlePacket_peer (st st' : State) (cp : ControlPacket)
    (evs : list Event) (k : nat) (d : PktSerialDriver) :
  handlePacket st cp = Some (st', evs) ->
  drivers st !! k = Some (Peer d) ->
  exists d', drivers st' !! k = Some (Peer d')
             /\ (d' = d
                 \/ d' = with_flags d (N.ldiff (flags (device d))
                                         PKT_DEVICE_FLAGS_INITIALISING)
                 \/ d' = with_flags d (N.lor (flags (device d))
                                         PKT_DEVICE_FLAGS_CP_SEEN)).
Proof.
  intros H Hk.
  destruct (handlePacket_result _ _ _ _ H)
    as [(-> & _)|[(i & d0 & Hd0 & -> & _)|[(i & d0 & Hd0 & -> & _)
       |(fs & -> & _)]]].
  - exists d. split; [exact Hk|now left].
  - destruct (set_driver_lookup_peer st i k d0 d
                (with_flags d0 (N.ldiff (flags (device d0))
                                  PKT_DEVICE_FLAGS_INITIALISING)) Hd0 Hk)
      as [Hl Heq].
    eexists. split; [exact Hl|].
    destruct (decide (k = i)) as [Hki|_]; [|now left].
    right. left. now rewrite (Heq Hki).
  - destruct (set_driver_lookup_peer st i k d0 d
                (with_flags d0 (N.lor (flags (device d0))
                                  PKT_DEVICE_FLAGS_CP_SEEN)) Hd0 Hk)
      as [Hl Heq].
    eexists. split; [exact Hl|].
    destruct (decide (k = i)) as [Hki|_]; [|now left].
    right. right. now rewrite (Heq Hki).
  - exists d. split; [exact Hk|now left].
Qed.

Lemma handlePacket_this (st st' : State) (cp : ControlPacket)
    (evs : list Event) :
  handlePacket st cp = Some (st', evs) ->
  same_fields (this_driver st) (this_driver st').
Proof.
  intros H.
  assert (Hset : forall i d0 f,
            driver_at st i = Some d0 ->
            same_fields (this_driver st)
              (this_driver (set_driver st i (with_flags d0 f)))).
  { intros i d0 f Hd0.
    destruct (set_driver_this st i d0 (with_flags d0 f) Hd0) as [->|[-> ->]];
      [apply same_fields_refl|apply with_flags_fields]. }
  destruct (handlePacket_result _ _ _ _ H)
    as [(-> & _)|[(i & d0 & Hd0 & -> & _)|[(i & d0 & Hd0 & -> & _)
       |(fs & -> & _)]]].
  - apply same_fields_refl.
  - now apply Hset.
  - now apply Hset.
  - apply same_fields_refl.
Qed.

(** X7: what a packet never does, whatever the drivers' methods do.
    [handlePacket] leaves the bus state and the status word alone, keeps the
    kind of every entry of the slot table, and causes at most one event, which
    is a frame on the bus, [handleControlPacket] or [deviceConnected]: a
    packet never makes a driver queue a control packet and never removes a
    device.  A driver on which [deviceConnected] is not called keeps its
    address, rolling counter, serial number and class; the driver on which it
    is called is left as [deviceConnected] leaves it, handed the record built
    from the packet.  The logic driver's own record keeps these fields unless
    the call is made. *)
Theorem handlePacket_frame (st st' : State) (cp : ControlPacket)
    (evs : list Event) :
  handlePacket_with st cp = Some (st', evs) ->
  bus_running st' = bus_running st
  /\ status st' = status st
  /\ kinds_kept st st'
  /\ length evs <= 1
  /\ Forall packet_event evs
  /\ (forall k dk,
         drivers st !! k = Some (Peer dk) ->
         exists dk', drivers st' !! k = Some (Peer dk')
                     /\ (Forall (fun e => calls_into k e = false) evs ->
                         same_fields dk dk')
                     /\ (forall rec, evs = [DeviceConnected k rec] ->
                                     rec = device_of_packet cp
                                     /\ dk' = deviceConnected dk rec))
  /\ (Forall (fun e => is_device_connected e = false) evs ->
      same_fields (this_driver st) (this_driver st')).
Proof.
  intros H.
  destruct (handlePacket_with_cases _ _ _ _ H)
    as [(Hown & Hnone & Hnc)|(i & d & fs & -> & Hd & _ & ->)].
  - destruct (handlePacket_identity _ _ _ _ Hown) as (Hb & Hs & Hid).
    split; [exact Hb|]. split; [exact Hs|].
    split; [now apply same_identity_kinds|].
    assert (Hev : length evs <= 1 /\ Forall packet_event evs).
    { destruct (handlePacket_result _ _ _ _ Hown)
        as [(_ & p & ->)|[(_ & _ & _ & _ & ->)|[(j & _ & _ & _ & ->)
           |(_ & _ & [->|(j & ->)])]]];
        simpl; split; try lia; repeat constructor. }
    split; [apply Hev|]. split; [apply Hev|]. split.
    + intros k dk Hk.
      destruct (handlePacket_peer _ _ _ _ k dk Hown Hk) as (dk' & Hk' & Hcase).
      exists dk'. split; [exact Hk'|]. split.
      * intros _. destruct Hcase as [->|[->| ->]];
          [apply same_fields_refl|apply with_flags_fields|apply with_flags_fields].
      * intros rec ->. inversion Hnc as [|? ? Hc _]. discriminate Hc.
    + intros _. exact (handlePacket_this _ _ _ _ Hown).
  - destruct (set_driver_frame (set_address_filters st fs) i
                (deviceConnected d (device_of_packet cp))) as (Hb & Hs & _).
    split; [exact Hb|]. split; [exact Hs|].
    split; [apply (kinds_kept_trans _ _ _ (kinds_kept_filters st fs)),
              set_driver_kinds|].
    split; [simpl; lia|]. split; [repeat constructor|]. split.
    + intros k dk Hk.
      destruct (set_driver_lookup_peer (set_address_filters st fs) i k d dk
                  (deviceConnected d (device_of_packet cp)) Hd Hk) as [Hl Heq].
      eexists. split; [exact Hl|]. split.
      * intros Hc. inversion Hc as [|? ? Hki _]. simpl in Hki.
        apply Nat.eqb_neq in Hki.
        rewrite decide_False by exact Hki. apply same_fields_refl.
      * intros rec [= <- <-]. split; [reflexivity|].
        rewrite decide_True by reflexivity. now rewrite (Heq eq_refl).
    + intros Hc. inversion Hc as [|? ? Hx _]. discriminate Hx.
Qed.




End CallingPackets.

(** ** Runs of ticks and packets, with the methods taking effect *)

Section CallingRuns.
Context {C : Constants} {K : Callees}.

Lemma other_slot_uncalled (k : nat) (e : Event) :
  event_slot e <> Some k -> calls_into k e = false.
Proof.
  destruct e; simpl; try reflexivity; intros H; apply Nat.eqb_neq;
    intros ->; now apply H.
Qed.

Lemma own_step_refl (d : PktSerialDriver) : own_step d d.
Proof. split; [apply slot_step_refl|now split]. Qed.

(** One tick, seen from a slot on which neither [deviceConnected] nor
    [deviceRemoved] is called. *)
Lemma periodicCallback_with_peer (st st' : State) (rs rs' : list N)
    (evs : list Event) (k : nat) (d : PktSerialDriver) :
  periodicCallback_with st rs = Some (st', evs, rs') ->
  drivers st !! k = Some (Peer d) ->
  exists d', drivers st' !! k = Some (Peer d')
             /\ (Forall (fun e => calls_into k e = false) evs -> own_step d d').
Proof.
  unfold periodicCallback_with. destruct (bus_running st); simpl.
  2:{ intros [= <- <- <-] Hk. exists d. split; [exact Hk|].
      intros _. apply own_step_refl. }
  intros Hrun Hk.
  destruct (decide (k < PKT_PROTOCOL_DRIVER_SIZE)) as [Hlt|Hge].
  - destruct (tick_slots_with_at _ _ _ _ _ _ _ _ Hlt Hk Hrun)
      as (st_k & e_pre & r_k & d' & e_k & r_k' & e_post
          & _ & Hp & Hd' & -> & _ & _).
    exists d'. split; [exact Hd'|]. intros Hc.
    apply Forall_app in Hc as [_ Hc]. apply Forall_app in Hc as [Hc _].
    pose proof (tick_peer_with_uncalled _ _ _ _ _ _ _ Hp Hc) as Hown.
    split; [exact (tick_peer_slot_step _ _ _ _ _ _ _ Hown)|].
    destruct (tick_peer_identity _ _ _ _ _ _ _ Hown) as [Hs Hcl]. now split.
  - destruct (tick_slots_with_frame _ _ _ _ _ _ Hrun)
      as (_ & _ & _ & _ & Hout & _).
    exists d. split; [|intros _; apply own_step_refl].
    rewrite Hout; [exact Hk|]. intros Hin. apply elem_of_seq in Hin. lia.
Qed.

Lemma periodicCallback_with_kinds (st st' : State) (rs rs' : list N)
    (evs : list Event) :
  periodicCallback_with st rs = Some (st', evs, rs') -> kinds_kept st st'.
Proof.
  unfold periodicCallback_with. destruct (bus_running st); simpl.
  - intros Hrun.
    now destruct (tick_slots_with_frame _ _ _ _ _ _ Hrun)
      as (_ & _ & _ & _ & _ & Hkind & _).
  - intros [= <- <- <-]. apply kinds_kept_refl.
Qed.

Lemma handlePacket_with_kinds (st st' : State) (cp : ControlPacket)
    (evs : list Event) :
  handlePacket_with st cp = Some (st', evs) -> kinds_kept st st'.
Proof.
  intros H.
  destruct (handlePacket_with_cases _ _ _ _ H)
    as [(Hown & _)|(i & d & fs & _ & _ & _ & ->)].
  - destruct (handlePacket_identity _ _ _ _ Hown) as (_ & _ & Hid).
    now apply same_identity_kinds.
  - apply (kinds_kept_trans _ _ _ (kinds_kept_filters st fs)), set_driver_kinds.
Qed.

(** One packet, seen from such a slot. *)
Lemma handlePacket_with_peer (st st' : State) (cp : ControlPacket)
    (evs : list Event) (k : nat) (d : PktSerialDriver) :
  handlePacket_with st cp = Some (st', evs) ->
  drivers st !! k = Some (Peer d) ->
  exists d', drivers st' !! k = Some (Peer d')
             /\ (Forall (fun e => calls_into k e = false) evs -> own_step d d').
Proof.
  intros H Hk.
  destruct (handlePacket_with_cases _ _ _ _ H)
    as [(Hown & _)|(i & d0 & fs & -> & Hd0 & _ & ->)].
  - destruct (handlePacket_peer _ _ _ _ k d Hown Hk) as (d' & Hk' & Hcase).
    exists d'. split; [exact Hk'|]. intros _.
    destruct Hcase as [->|[->| ->]].
    + apply own_step_refl.
    + split; [|now split]. do 4 right. left. now split.
    + split; [|now split]. do 5 right. now split.
  - destruct (set_driver_lookup_peer (set_address_filters st fs) i k d0 d
                (deviceConnected d0 (device_of_packet cp)) Hd0 Hk) as [Hl _].
    eexists. split; [exact Hl|]. intros Hc.
    inversion Hc as [|? ? Hki _]. simpl in Hki. apply Nat.eqb_neq in Hki.
    rewrite decide_False by exact Hki. apply own_step_refl.
Qed.

Lemma step_with_peer (st st' : State) (x : Input) (evs : list Event) (k : nat)
    (d : PktSerialDriver) :
  step_with st x = Some (st', evs) ->
  drivers st !! k = Some (Peer d) ->
  exists d', drivers st' !! k = Some (Peer d')
             /\ (Forall (fun e => calls_into k e = false) evs -> own_step d d').
Proof.
  destruct x as [rs|cp]; simpl.
  - destruct (periodicCallback_with st rs) as [[[st1 e1] r1]|] eqn:H;
      [|discriminate].
    simpl. intros [= <- <-]. exact (periodicCallback_with_peer _ _ _ _ _ k d H).
  - apply handlePacket_with_peer.
Qed.

Lemma step_with_kinds (st st' : State) (x : Input) (evs : list Event) :
  step_with st x = Some (st', evs) -> kinds_kept st st'.
Proof.
  destruct x as [rs|cp]; simpl.
  - destruct (periodicCallback_with st rs) as [[[st1 e1] r1]|] eqn:H;
      [|discriminate].
    simpl. intros [= <- <-]. exact (periodicCallback_with_kinds _ _ _ _ _ H).
  - apply handlePacket_with_kinds.
Qed.

Lemma run_with_kinds (xs : list Input) (st st' : State) (evs : list Event) :
  run_with xs st = Some (st', evs) -> kinds_kept st st'.
Proof.
  revert st evs. induction xs as [|x xs IH]; intros st evs; simpl.
  - intros [= <- <-]. apply kinds_kept_refl.
  - destruct (step_with st x) as [[st1 e1]|] eqn:Hstep; [|discriminate]. simpl.
    destruct (run_with xs st1) as [[st2 e2]|] eqn:Hrest; [|discriminate]. simpl.
    intros [= <- <-].
    exact (kinds_kept_trans _ _ _ (step_with_kinds _ _ _ _ Hstep) (IH _ _ Hrest)).
Qed.

Lemma kinds_kept_length (st st' : State) :
  kinds_kept st st' -> length (drivers st') = length (drivers st).
Proof.
  intros H.
  destruct (Nat.lt_trichotomy (length (drivers st')) (length (drivers st)))
    as [Hlt|[Heq|Hgt]]; [|exact Heq|].
  - exfalso. specialize (H (length (drivers st'))).
    destruct (lookup_lt_is_Some_2 (drivers st) _ Hlt) as [s Hs].
    assert (Hnone : drivers st' !! length (drivers st') = None)
      by now apply lookup_ge_None.
    rewrite Hs in H. destruct s as [| |d]; [congruence|congruence|].
    destruct H as (d' & Hd'). congruence.
  - exfalso. specialize (H (length (drivers st))).
    destruct (lookup_lt_is_Some_2 (drivers st') _ Hgt) as [s Hs].
    assert (Hnone : drivers st !! length (drivers st) = None)
      by now apply lookup_ge_None.
    rewrite Hnone in H. congruence.
Qed.

(** A property of a driver that the logic driver's own statements carry
    along holds after any run in which neither [deviceConnected] nor
    [deviceRemoved] is called on the driver. *)
Lemma run_with_uncalled (R : PktSerialDriver -> PktSerialDriver -> Prop) :
  (forall d, R d d) ->
  (forall d d1 d', own_step d d1 -> R d1 d' -> R d d') ->
  forall xs st st' evs k d,
    run_with xs st = Some (st', evs) ->
    drivers st !! k = Some (Peer d) ->
    Forall (fun e => calls_into k e = false) evs ->
    exists d', drivers st' !! k = Some (Peer d') /\ R d d'.
Proof.
  intros Hrefl Hstep xs.
  induction xs as [|x xs IH]; intros st st' evs k d; simpl.
  - intros [= <- <-] Hk _. exists d. split; [exact Hk|apply Hrefl].
  - destruct (step_with st x) as [[st1 e1]|] eqn:Hs; [|discriminate]. simpl.
    destruct (run_with xs st1) as [[st2 e2]|] eqn:Hrest; [|discriminate]. simpl.
    intros [= <- <-] Hk Hc. apply Forall_app in Hc as [Hc1 Hc2].
    destruct (step_with_peer _ _ _ _ k d Hs Hk) as (d1 & Hk1 & Hown).
    destruct (IH st1 st2 e2 k d1 Hrest Hk1 Hc2) as (d' & Hk' & HR).
    exists d'. split; [exact Hk'|]. exact (Hstep d d1 d' (Hown Hc1) HR).
Qed.

(** X11: a driver keeps its slot and, but for its own methods, its identity.
    After any sequence of ticks and inbound packets, whatever the drivers'
    methods do, the slot table has the same length and every entry is of the
    same kind (empty, the logic driver, another driver); a driver on which
    neither [deviceConnected] nor [deviceRemoved] was called has the serial
    number and the class it had. *)
Theorem identity_invariant (xs : list Input) (st st' : State)
    (evs : list Event) :
  run_with xs st = Some (st', evs) ->
  kinds_kept st st'
  /\ length (drivers st') = length (drivers st)
  /\ (forall k d,
         drivers st !! k = Some (Peer d) ->
         Forall (fun e => calls_into k e = false) evs ->
         exists d', drivers st' !! k = Some (Peer d')
                    /\ serial_number (device d') = serial_number (device d)
                    /\ driver_class d' = driver_class d).
Proof.
  intros Hrun. pose proof (run_with_kinds _ _ _ _ Hrun) as Hkinds.
  split; [exact Hkinds|]. split; [now apply kinds_kept_length|].
  intros k d Hk Hc.
  apply (run_with_uncalled
           (fun d d' => serial_number (device d') = serial_number (device d)
                        /\ driver_class d' = driver_class d))
    with (xs := xs) (st := st) (evs := evs); try assumption.
  - now split.
  - intros d0 d1 d2 (_ & Hs & Hcl) [Hs2 Hcl2]. split; congruence.
Qed.

(** The body on a local driver that owns its address: the counter advances,
    and the only call is [queueControlPacket]. *)
Lemma owner_body (st : State) (i : nat) (d : PktSerialDriver) (rs : list N) :
  owner d ->
  exists evs,
    tick_peer_with st i d rs
    = Some (mk_driver d ((rolling_counter (device d) + 1) mod 256)%N
              (flags (device d)), evs, rs)
    /\ Forall (fun e => calls_into i e = false) evs.
Proof.
  intros (Hl & Hr & Hi & Hing). unfold tick_peer_with. cbv zeta.
  rewrite bump_counter_flags, Hr. cbn [andb].
  rewrite (tick_peer_local_claimed st i d rs Hl Hr (initialised_claimed d Hi)).
  cbv zeta. rewrite Hing.
  destruct (_ && _); eexists; (split; [reflexivity|]); repeat constructor.
Qed.

Lemma mk_driver_owner (d : PktSerialDriver) (c : N) :
  owner d -> owner (mk_driver d c (flags (device d))).
Proof. intros H. exact H. Qed.

Lemma ldiff_disjoint (f m : N) : has_flag f m = false -> N.ldiff f m = f.
Proof.
  intros H. apply has_flag_false in H. apply N.bits_inj. intros n.
  assert (Hn : N.testbit (N.land f m) n = false) by (rewrite H; apply N.bits_0).
  rewrite N.land_spec in Hn. rewrite N.ldiff_spec.
  destruct (N.testbit f n), (N.testbit m n); simpl in *; congruence.
Qed.

Lemma owner_seen (d : PktSerialDriver) :
  device_flags_wf ->
  owner d ->
  owner (with_flags d (N.lor (flags (device d)) PKT_DEVICE_FLAGS_CP_SEEN)).
Proof.
  intros Hwf (Hl & Hr & Hi & Hing). unfold owner. simpl.
  rewrite !has_flag_lor, Hl, Hr, Hi, Hing.
  rewrite (proj2 (has_flag_false _ _) (wf_cp_seen_remote Hwf)).
  rewrite (proj2 (has_flag_false _ _) (wf_cp_seen_initialising Hwf)).
  now repeat split.
Qed.

Lemma step_with_owner (st st' : State) (x : Input) (evs : list Event)
    (k : nat) (d : PktSerialDriver) :
  device_flags_wf ->
  step_with st x = Some (st', evs) ->
  drivers st !! k = Some (Peer d) ->
  owner d ->
  exists d', drivers st' !! k = Some (Peer d')
             /\ owner d'
             /\ address (device d') = address (device d)
             /\ Forall (fun e => calls_into k e = false) evs.
Proof.
  intros Hwf Hstep Hk Hown. destruct x as [rs|cp]; simpl in Hstep.
  - destruct (periodicCallback_with st rs) as [[[st1 e1] r1]|] eqn:H;
      [|discriminate].
    simpl in Hstep. injection Hstep as <- <-.
    unfold periodicCallback_with in H. destruct (bus_running st); simpl in H.
    2:{ injection H as <- <- <-. exists d. split; [exact Hk|].
        split; [exact Hown|]. split; [reflexivity|constructor]. }
    destruct (decide (k < PKT_PROTOCOL_DRIVER_SIZE)) as [Hlt|Hge].
    + destruct (tick_slots_with_at _ _ _ _ _ _ _ _ Hlt Hk H)
        as (st_k & e_pre & r_k & d' & e_k & r_k' & e_post
            & _ & Hp & Hd' & -> & Hev1 & Hev2).
      destruct (owner_body st_k k d r_k Hown) as (e0 & Hbody & Hquiet).
      rewrite Hbody in Hp. injection Hp as <- <- _.
      eexists. split; [exact Hd'|]. split; [now apply mk_driver_owner|].
      split; [reflexivity|].
      apply Forall_app. split; [|apply Forall_app; split; [exact Hquiet|]].
      * eapply Forall_impl; [exact Hev1|]. intros e. apply other_slot_uncalled.
      * eapply Forall_impl; [exact Hev2|]. intros e. apply other_slot_uncalled.
    + destruct (tick_slots_with_frame _ _ _ _ _ _ H)
        as (_ & _ & _ & _ & Hout & _ & Hev).
      exists d. split.
      { rewrite Hout; [exact Hk|]. intros Hin. apply elem_of_seq in Hin. lia. }
      split; [exact Hown|]. split; [reflexivity|].
      eapply Forall_impl; [exact Hev|]. intros e (j & Hj & He).
      apply other_slot_uncalled. rewrite He. intros [= ->].
      apply elem_of_seq in Hj. lia.
  - destruct (handlePacket_with_cases _ _ _ _ Hstep)
      as [(Hself & Hnone & _)|(i & d0 & fs & -> & Hd0 & Hr0 & ->)].
    + destruct (handlePacket_peer _ _ _ _ k d Hself Hk) as (d' & Hk' & Hcase).
      exists d'. split; [exact Hk'|].
      destruct Hcase as [->|[->| ->]].
      * split; [exact Hown|]. split; [reflexivity|apply Hnone].
      * destruct Hown as (Hl & Hr & Hi & Hing).
        rewrite (ldiff_disjoint _ _ Hing).
        split; [now repeat split|]. split; [reflexivity|apply Hnone].
      * split; [now apply owner_seen|]. split; [reflexivity|apply Hnone].
    + destruct (set_driver_lookup_peer (set_address_filters st fs) i k d0 d
                  (deviceConnected d0 (device_of_packet cp)) Hd0 Hk) as [Hl Heq].
      destruct (decide (k = i)) as [Hki|Hki].
      * exfalso. rewrite (Heq Hki) in Hr0. destruct Hown as (_ & Hr & _).
        congruence.
      * exists d. split; [exact Hl|]. split; [exact Hown|].
        split; [reflexivity|]. constructor; [|constructor].
        simpl. now apply Nat.eqb_neq.
Qed.

(** X20: a local driver's address, once owned, is kept, whatever the drivers'
    methods do.  A LOCAL driver that is INITIALISED (not REMOTE, not
    INITIALISING) stays so in its slot, at the same address, through any
    sequence of ticks and inbound packets, and neither [deviceConnected] nor
    [deviceRemoved] is called on it: nothing in the logic driver clears
    INITIALISED or re-allocates an owned address, not even a CONFLICT
    packet. *)
Theorem ownership_is_permanent (xs : list Input) (st st' : State)
    (evs : list Event) (k : nat) (d : PktSerialDriver) :
  device_flags_wf ->
  run_with xs st = Some (st', evs) ->
  drivers st !! k = Some (Peer d) ->
  owner d ->
  exists d', drivers st' !! k = Some (Peer d')
             /\ owner d'
             /\ address (device d') = address (device d)
             /\ Forall (fun e => calls_into k e = false) evs.
Proof.
  intros Hwf. revert st evs d.
  induction xs as [|x xs IH]; intros st evs d; simpl.
  - intros [= <- <-] Hk Hown. exists d. split; [exact Hk|].
    split; [exact Hown|]. split; [reflexivity|constructor].
  - destruct (step_with st x) as [[st1 e1]|] eqn:Hs; [|discriminate]. simpl.
    destruct (run_with xs st1) as [[st2 e2]|] eqn:Hrest; [|discriminate]. simpl.
    intros [= <- <-] Hk Hown.
    destruct (step_with_owner _ _ _ _ k d Hwf Hs Hk Hown)
      as (d1 & Hk1 & Hown1 & Ha1 & Hc1).
    destruct (IH st1 e2 d1 Hrest Hk1 Hown1) as (d' & Hk' & Hown' & Ha' & Hc2).
    exists d'. split; [exact Hk'|]. split; [exact Hown'|].
    split; [congruence|]. apply Forall_app. now split.
Qed.

(** X21: the logic driver writes three flag bits only.  Through any sequence
    of ticks and inbound packets, whatever the drivers' methods do, the bits
    of a driver's flags outside INITIALISING, INITIALISED and CP_SEEN keep
    their values as long as neither [deviceConnected] nor [deviceRemoved] is
    called on the driver; so a driver that is LOCAL stays LOCAL and one that
    is REMOTE stays REMOTE unless its own methods change that. *)
Theorem run_writes_three_flags (xs : list Input) (st st' : State)
    (evs : list Event) (k : nat) (d : PktSerialDriver) (m : N) :
  N.land PKT_DEVICE_FLAGS_INITIALISING m = 0%N ->
  N.land PKT_DEVICE_FLAGS_INITIALISED m = 0%N ->
  N.land PKT_DEVICE_FLAGS_CP_SEEN m = 0%N ->
  run_with xs st = Some (st', evs) ->
  drivers st !! k = Some (Peer d) ->
  Forall (fun e => calls_into k e = false) evs ->
  exists d', drivers st' !! k = Some (Peer d')
             /\ N.land (flags (device d')) m = N.land (flags (device d)) m
             /\ has_flag (flags (device d')) m = has_flag (flags (device d)) m.
Proof.
  intros Hing Hinit Hcp Hrun Hk Hc.
  destruct (run_with_uncalled
              (fun d d' => N.land (flags (device d')) m
                           = N.land (flags (device d)) m))
    with (xs := xs) (st := st) (st' := st') (evs := evs) (k := k) (d := d)
    as (d' & Hk' & Hl); try assumption.
  - reflexivity.
  - intros d0 d1 d2 (Hs & _) H2.
    rewrite H2. exact (slot_step_other_bits d0 d1 m Hing Hinit Hcp Hs).
  - exists d'. split; [exact Hk'|]. split; [exact Hl|].
    unfold has_flag. now rewrite Hl.
Qed.

End CallingRuns.

(** ** The properties with calls, on concrete tables *)

(** The packet of S3 on [s5_with_waiting]: the owner of address 12 in slot 1
    is left alone, the REMOTE slot 2 is what [deviceConnected] makes of it. *)
Lemma handlePacket_frame_witness :
  @handlePacket_with sample_constants sample_callees s5_with_waiting s3_packet
  = Some (s5_associated, [DeviceConnected 2 (mk_device 7 0 0 0xDEADBEEF)])
  /\ kinds_kept s5_with_waiting s5_associated
  /\ (exists dk',
         drivers s5_associated !! 1 = Some (Peer dk')
         /\ same_fields
              {| device := mk_device 12 3 0x8080 0xAAAA; driver_class := 1 |} dk')
  /\ (exists dk',
         drivers s5_associated !! 2 = Some (Peer dk')
         /\ dk' = @deviceConnected sample_callees
                    {| device := mk_device 0 0 0x4000 0; driver_class := 7 |}
                    (mk_device 7 0 0 0xDEADBEEF)).
Proof.
  split; [reflexivity|].
  destruct (@handlePacket_frame sample_constants sample_callees s5_with_waiting
              s5_associated s3_packet
              [DeviceConnected 2 (mk_device 7 0 0 0xDEADBEEF)] eq_refl)
    as (_ & _ & Hkinds & _ & _ & Hpeer & _).
  split; [exact Hkinds|]. split.
  - destruct (Hpeer 1 {| device := mk_device 12 3 0x8080 0xAAAA;
                         driver_class := 1 |} eq_refl)
      as (dk' & Hl & Hsame & _).
    exists dk'. split; [exact Hl|]. apply Hsame. repeat constructor.
  - destruct (Hpeer 2 {| device := mk_device 0 0 0x4000 0; driver_class := 7 |}
                eq_refl)
      as (dk' & Hl & _ & Hcon).
    exists dk'. split; [exact Hl|].
    now destruct (Hcon (mk_device 7 0 0 0xDEADBEEF) eq_refl).
Defined.


(** A run on [s5_with_waiting]: a peer is associated with slot 2, and the
    owner of address 12 in slot 1 goes through two ticks, a foreign packet
    for its address and its own packet. *)
Lemma s5_run :
  @run_with sample_constants sample_callees s5_inputs s5_with_waiting
  = Some (s5_with_waiting_later, s5_calls).
Proof. reflexivity. Qed.

Lemma identity_invariant_witness :
  kinds_kept s5_with_waiting s5_with_waiting_later
  /\ length (drivers s5_with_waiting_later) = length (drivers s5_with_waiting)
  /\ exists d', drivers s5_with_waiting_later !! 1 = Some (Peer d')
                /\ serial_number (device d') = 0xAAAA%N
                /\ driver_class d' = 1%N.
Proof.
  destruct (@identity_invariant sample_constants sample_callees s5_inputs
              s5_with_waiting s5_with_waiting_later s5_calls s5_run)
    as (Hkinds & Hlen & Hpeer).
  split; [exact Hkinds|]. split; [exact Hlen|].
  apply (Hpeer 1 {| device := mk_device 12 3 0x8080 0xAAAA; driver_class := 1 |});
    [reflexivity|repeat constructor].
Defined.

Lemma ownership_is_permanent_witness :
  @owner sample_constants
    {| device := mk_device 12 3 0x8080 0xAAAA; driver_class := 1 |}
  /\ exists d', drivers s5_with_waiting_later !! 1 = Some (Peer d')
                /\ @owner sample_constants d'
                /\ address (device d') = 12%N
                /\ Forall (fun e => calls_into 1 e = false) s5_calls.
Proof.
  assert (Hown : @owner sample_constants
                   {| device := mk_device 12 3 0x8080 0xAAAA; driver_class := 1 |})
    by now repeat split.
  split; [exact Hown|].
  apply (@ownership_is_permanent sample_constants sample_callees s5_inputs
           s5_with_waiting s5_with_waiting_later s5_calls 1
           {| device := mk_device 12 3 0x8080 0xAAAA; driver_class := 1 |}
           sample_flags_wf s5_run);
    try reflexivity; exact Hown.
Defined.

Lemma run_writes_three_flags_witness :
  Forall (fun e => calls_into 1 e = false) s5_calls
  /\ exists d', drivers s5_with_waiting_later !! 1 = Some (Peer d')
                /\ N.land (flags (device d')) (@PKT_DEVICE_FLAGS_LOCAL sample_constants)
                   = N.land 0x8080 (@PKT_DEVICE_FLAGS_LOCAL sample_constants)
                /\ has_flag (flags (device d')) (@PKT_DEVICE_FLAGS_LOCAL sample_constants)
                   = has_flag 0x8080 (@PKT_DEVICE_FLAGS_LOCAL sample_constants).
Proof.
  assert (Hc : Forall (fun e => calls_into 1 e = false) s5_calls)
    by repeat constructor.
  split; [exact Hc|].
  apply (@run_writes_three_flags sample_constants sample_callees s5_inputs
           s5_with_waiting s5_with_waiting_later s5_calls 1
           {| device := mk_device 12 3 0x8080 0xAAAA; driver_class := 1 |}
           (@PKT_DEVICE_FLAGS_LOCAL sample_constants));
    try reflexivity; try exact s5_run; exact Hc.
Defined.
